(** * The recognition pipeline of the NVDA Vision add-on

    A shallow embedding of the cache-first, fallback-ordered recognition
    pipeline (src/addon/globalPlugins/nvdaVision): the element and result
    schemas, the result processor, the inference engine with its fallback
    chain, the SQLite cache database with its manager, and the recognition
    controller with its navigation cursor.

    Conventions of the embedding.
    - A Python [int] is a [Z]; a Python [float] is a rational [Q]: every
      finite float is one, NaN and the infinities are not; comparisons are
      exact, and where the code adds, multiplies and divides floats the
      model computes the exact value, without the rounding.
    - A naive local [datetime] is a [Z], the microseconds since a fixed
      epoch; a [timedelta] is a [Z] of microseconds.
    - SQLite stores integers of 64 bits and a [datetime] holds the years 1
      to 9999, where [Z] has no bound: a statement that a row is written
      carries the bounds as hypotheses ([Invariants.storable],
      [Invariants.has_room], [Invariants.datetime_in_range]).
    - A call that may raise returns a [pyres]; methods that also mutate the
      database return the database together with the [pyres], because the
      connection keeps what a statement wrote before a later one raised.
    - Readings of the clock, the UUID generator, the consent dialog and the
      cancellation flag set by another thread are arguments of the
      functions that read them. *)

From Stdlib Require Import ZArith QArith List String Ascii Bool Lia Lqa.
From Stdlib Require Import DecimalString Sorted Permutation.
Import ListNotations.
Open Scope string_scope.
Open Scope list_scope.
Open Scope Z_scope.

(** ** Python results *)

Inductive exn : Type :=
| AttributeError (attr : string)
| ValueError (msg : string)
| TypeError (msg : string)
| KeyError (key : string)
| IntegrityError (msg : string)
| IndexError
| TimeoutError
| RuntimeError (msg : string).

Inductive pyres (A : Type) : Type :=
| Ok (a : A)
| Raise (e : exn).
Arguments Ok {A} a.
Arguments Raise {A} e.

Definition bind {A B : Type} (m : pyres A) (k : A -> pyres B) : pyres B :=
  match m with
  | Ok a => k a
  | Raise e => Raise e
  end.

Notation "x <- m ;; k" := (bind m (fun x => k))
  (at level 61, m at next level, right associativity).

Fixpoint mapM {A B : Type} (f : A -> pyres B) (l : list A) : pyres (list B) :=
  match l with
  | [] => Ok []
  | a :: l' => b <- f a ;; bs <- mapM f l' ;; Ok (b :: bs)
  end.

Definition is_ok {A : Type} (m : pyres A) : bool :=
  match m with Ok _ => true | Raise _ => false end.

(** A dict kept as an association list in insertion order. *)
Fixpoint dict_mem {V : Type} (k : string) (d : list (string * V)) : bool :=
  match d with
  | [] => false
  | (k', _) :: d' => String.eqb k k' || dict_mem k d'
  end.

Fixpoint dict_get {V : Type} (k : string) (d : list (string * V)) : option V :=
  match d with
  | [] => None
  | (k', v) :: d' => if String.eqb k k' then Some v else dict_get k d'
  end.

Fixpoint dict_set {V : Type} (k : string) (v : V) (d : list (string * V))
    : list (string * V) :=
  match d with
  | [] => [(k, v)]
  | (k', v') :: d' =>
      if String.eqb k k' then (k', v) :: d' else (k', v') :: dict_set k v d'
  end.

Definition Qlt_bool (a b : Q) : bool := negb (Qle_bool b a).

Definition datetime : Type := Z.
Definition timedelta_seconds (s : Z) : Z := s * 1000000.
Definition timedelta_minutes (m : Z) : Z := m * 60000000.

(** ** constants.py *)

Module Constants.

Inductive RecognitionStatus : Type :=
| SUCCESS | PARTIAL_SUCCESS | FAILURE | TIMEOUT | CACHE_HIT.

Inductive InferenceSource : Type :=
| LOCAL_GPU | LOCAL_CPU | CLOUD_API | CACHE.

Definition CACHE_TTL : Z := 300.

Definition status_name (s : RecognitionStatus) : string :=
  match s with
  | SUCCESS => "SUCCESS"
  | PARTIAL_SUCCESS => "PARTIAL_SUCCESS"
  | FAILURE => "FAILURE"
  | TIMEOUT => "TIMEOUT"
  | CACHE_HIT => "CACHE_HIT"
  end.

Definition source_name (s : InferenceSource) : string :=
  match s with
  | LOCAL_GPU => "LOCAL_GPU"
  | LOCAL_CPU => "LOCAL_CPU"
  | CLOUD_API => "CLOUD_API"
  | CACHE => "CACHE"
  end.

(** [RecognitionStatus[name] if hasattr(RecognitionStatus, name) else
    RecognitionStatus.SUCCESS], for the names of the members and for the
    names the enum class has no attribute of.  (For the name of another
    attribute of the class, such as [__doc__], the subscript raises
    [KeyError]; [to_dict] writes the name of a member.) *)
Definition status_of_name (n : string) : RecognitionStatus :=
  if String.eqb n "SUCCESS" then SUCCESS
  else if String.eqb n "PARTIAL_SUCCESS" then PARTIAL_SUCCESS
  else if String.eqb n "FAILURE" then FAILURE
  else if String.eqb n "TIMEOUT" then TIMEOUT
  else if String.eqb n "CACHE_HIT" then CACHE_HIT
  else SUCCESS.

Definition source_of_name (n : string) : InferenceSource :=
  if String.eqb n "LOCAL_GPU" then LOCAL_GPU
  else if String.eqb n "LOCAL_CPU" then LOCAL_CPU
  else if String.eqb n "CLOUD_API" then CLOUD_API
  else if String.eqb n "CACHE" then CACHE
  else LOCAL_GPU.

Definition status_eqb (a b : RecognitionStatus) : bool :=
  match a, b with
  | SUCCESS, SUCCESS | PARTIAL_SUCCESS, PARTIAL_SUCCESS
  | FAILURE, FAILURE | TIMEOUT, TIMEOUT | CACHE_HIT, CACHE_HIT => true
  | _, _ => false
  end.

(** The label [ResultProcessor.generate_result_summary] speaks for a
    source: the meaning the code itself gives to each value. *)
Definition source_text (s : InferenceSource) : string :=
  match s with
  | LOCAL_GPU => "on GPU"
  | LOCAL_CPU => "on CPU"
  | CLOUD_API => "via cloud API"
  | CACHE => "from cache"
  end.

Definition MIN_CONFIDENCE_THRESHOLD : Q := 7 # 10.

Definition LOW_CONFIDENCE_THRESHOLD : Q := 7 # 10.

End Constants.
Import Constants.

(** ** schemas/ui_element.py, schemas/screenshot.py,
       schemas/recognition_result.py *)

Module Schemas.

(** The dataclass [UIElement] declares eight fields.  It is not slotted, so
    an instance can carry further attributes in its [__dict__]; the code
    reads and writes two of them, [id] and [attributes].  [None] in
    [attr_id] or [attr_attributes] is an instance without the attribute,
    which is what the generated [__init__] builds: reading it raises
    [AttributeError].  [attributes] is a dict from keys to lists of
    annotations, kept in insertion order. *)
Record UIElement : Type := mkUIElement {
  element_type : string;
  text : string;
  bbox : list Z;
  confidence : Q;
  app_name : option string;
  parent_id : option string;
  actionable : bool;
  created_at : datetime;
  attr_id : option string;
  attr_attributes : option (list (string * list string))
}.

(** The declared fields, which are what the generated [__eq__] compares
    and what [to_dict] serializes. *)
Definition fields (e : UIElement) : UIElement :=
  mkUIElement (element_type e) (text e) (bbox e) (confidence e) (app_name e)
    (parent_id e) (actionable e) (created_at e) None None.

(** [UIElement(...)] followed by [__post_init__]. *)
Definition UIElement_init (element_type text : string) (bbox : list Z)
    (confidence : Q) (app_name parent_id : option string) (actionable : bool)
    (created_at : datetime) : pyres UIElement :=
  if negb (Qle_bool 0 confidence && Qle_bool confidence 1) then
    Raise (ValueError "Confidence must be 0-1")
  else
    match bbox with
    | [x1; y1; x2; y2] =>
        if (x2 <=? x1) || (y2 <=? y1) then
          Raise (ValueError "Invalid bounding box")
        else
          Ok (mkUIElement element_type text bbox confidence app_name
                parent_id actionable created_at None None)
    | _ => Raise (ValueError "Bounding box must have 4 coordinates")
    end.

Record Screenshot : Type := mkScreenshot {
  hash : string;
  width : Z;
  height : Z;
  window_title : option string;
  sc_app_name : option string;
  captured_at : datetime;
  file_size : option Z
}.


Record RecognitionResult : Type := mkRecognitionResult {
  id : string;
  screenshot_hash : string;
  elements : list UIElement;
  model_name : string;
  inference_time : Q;
  status : RecognitionStatus;
  source : InferenceSource;
  r_created_at : datetime;
  expires_at : option datetime;
  model_version : option string
}.

(** [RecognitionResult(...)] followed by [__post_init__]; [fresh_uuid] is
    what [uuid.uuid4()] returns if it is asked. *)
Definition RecognitionResult_init (fresh_uuid : string) (id screenshot_hash : string)
    (elements : list UIElement) (model_name : string) (inference_time : Q)
    (status : RecognitionStatus) (source : InferenceSource)
    (created_at : datetime) (expires_at : option datetime)
    (model_version : option string) : pyres RecognitionResult :=
  let id' := if String.eqb id "" then fresh_uuid else id in
  if Qlt_bool inference_time 0 then
    Raise (ValueError "Inference time cannot be negative")
  else
    let expires' :=
      match expires_at with
      | None => Some (created_at + timedelta_seconds CACHE_TTL)
      | Some t => Some t
      end in
    Ok (mkRecognitionResult id' screenshot_hash elements model_name
          inference_time status source created_at expires' model_version).

(** [is_expired], read at the time [now]. *)
Definition is_expired (now : datetime) (r : RecognitionResult) : bool :=
  match expires_at r with
  | None => false
  | Some t => t <=? now
  end.

(** [l[i]] for an index that is not negative. *)
Definition item (l : list Z) (i : nat) : pyres Z :=
  match nth_error l i with
  | Some z => Ok z
  | None => Raise IndexError
  end.

(** The properties [center_x], [center_y], [width] and [height] of an
    element; [//] is floor division. *)
Definition center_x (e : UIElement) : pyres Z :=
  a <- item (bbox e) 0 ;; b <- item (bbox e) 2 ;; Ok ((a + b) / 2).

Definition center_y (e : UIElement) : pyres Z :=
  a <- item (bbox e) 1 ;; b <- item (bbox e) 3 ;; Ok ((a + b) / 2).

Definition element_width (e : UIElement) : pyres Z :=
  b <- item (bbox e) 2 ;; a <- item (bbox e) 0 ;; Ok (b - a).

Definition element_height (e : UIElement) : pyres Z :=
  b <- item (bbox e) 3 ;; a <- item (bbox e) 1 ;; Ok (b - a).

(** The property [is_uncertain]. *)
Definition is_uncertain (e : UIElement) : bool :=
  Qlt_bool (confidence e) LOW_CONFIDENCE_THRESHOLD.

(** The properties [element_count], [actionable_elements] and
    [high_confidence_elements] of a result. *)
Definition element_count (r : RecognitionResult) : Z :=
  Z.of_nat (List.length (elements r)).

Definition actionable_elements (r : RecognitionResult) : list UIElement :=
  filter actionable (elements r).

Definition high_confidence_elements (r : RecognitionResult) : list UIElement :=
  filter (fun e => Qle_bool MIN_CONFIDENCE_THRESHOLD (confidence e)) (elements r).

(** Whether [__post_init__] accepts the values the fields of an element
    hold now (the dataclass is mutable, so they may have changed since its
    construction). *)
Definition accepted (e : UIElement) : bool :=
  is_ok (UIElement_init (element_type e) (text e) (bbox e) (confidence e)
           (app_name e) (parent_id e) (actionable e) (created_at e)).

End Schemas.
Import Schemas.

(** ** services/result_processor.py *)

Module ResultProcessor.

Definition set_attributes (e : UIElement) (d : list (string * list string))
    : UIElement :=
  mkUIElement (element_type e) (text e) (bbox e) (confidence e) (app_name e)
    (parent_id e) (actionable e) (created_at e) (attr_id e) (Some d).

Definition set_id (e : UIElement) (i : string) : UIElement :=
  mkUIElement (element_type e) (text e) (bbox e) (confidence e) (app_name e)
    (parent_id e) (actionable e) (created_at e) (Some i) (attr_attributes e).

Definition keep_element (e : UIElement) : bool :=
  match bbox e with
  | [x1; y1; x2; y2] =>
      if (x1 >=? x2) || (y1 >=? y2) then false
      else if Qlt_bool (confidence e) 0 || Qlt_bool 1 (confidence e) then false
      else true
  | _ => false
  end.

Definition _filter_invalid (elements : list UIElement) : list UIElement :=
  filter keep_element elements.

(** The body of the loop of [_annotate_uncertainty] for one element. *)
Definition annotate_element (confidence_threshold : Q) (e : UIElement)
    : pyres UIElement :=
  if Qlt_bool (confidence e) confidence_threshold then
    match attr_attributes e with
    | None => Raise (AttributeError "attributes")
    | Some d =>
        let d1 := if dict_mem "annotations" d then d
                  else dict_set "annotations" [] d in
        match dict_get "annotations" d1 with
        | Some l => Ok (set_attributes e (dict_set "annotations" (l ++ ["uncertain"]) d1))
        | None => Raise (KeyError "annotations")
        end
    end
  else Ok e.

Definition _annotate_uncertainty (confidence_threshold : Q)
    (elements : list UIElement) : pyres (list UIElement) :=
  mapM (annotate_element confidence_threshold) elements.

(** [x1, y1, x2, y2 = element.bbox; return (y1, x1)] *)
Definition sort_key (e : UIElement) : pyres (Z * Z) :=
  match bbox e with
  | [x1; y1; x2; y2] => Ok (y1, x1)
  | _ => Raise (ValueError "not enough values to unpack")
  end.

(** Tuple comparison, [k1 <= k2]. *)
Definition key_le (k1 k2 : Z * Z) : bool :=
  (fst k1 <? fst k2) || ((fst k1 =? fst k2) && (snd k1 <=? snd k2)).

(** [sorted] is stable: an element goes after the ones whose key is not
    greater than its own. *)
Fixpoint insert_by_key {A : Type} (x : (Z * Z) * A) (l : list ((Z * Z) * A))
    : list ((Z * Z) * A) :=
  match l with
  | [] => [x]
  | y :: l' =>
      if key_le (fst y) (fst x) then y :: insert_by_key x l' else x :: y :: l'
  end.

Definition sorted_by_key {A : Type} (l : list ((Z * Z) * A)) : list ((Z * Z) * A) :=
  fold_left (fun acc x => insert_by_key x acc) l [].

Definition _sort_by_position (elements : list UIElement) : pyres (list UIElement) :=
  keys <- mapM sort_key elements ;;
  Ok (map snd (sorted_by_key (combine keys elements))).

(** [f"{n:03d}"] for a non-negative [n]. *)
Definition format_03d (n : nat) : string :=
  let s := NilEmpty.string_of_uint (Nat.to_uint n) in
  match String.length s with
  | O => "000"
  | 1%nat => String.append "00" s
  | 2%nat => String.append "0" s
  | _ => s
  end.

(** The loop of [_assign_ids], [i] is the index [enumerate] has reached. *)
Fixpoint assign_ids_from (i : nat) (elements : list UIElement)
    : pyres (list UIElement) :=
  match elements with
  | [] => Ok []
  | e :: rest =>
      match attr_id e with
      | None => Raise (AttributeError "id")
      | Some s =>
          let e' := if String.eqb s "" then set_id e (String.append "element_" (format_03d (S i)))
                    else e in
          rest' <- assign_ids_from (S i) rest ;;
          Ok (e' :: rest')
      end
  end.

Definition _assign_ids (elements : list UIElement) : pyres (list UIElement) :=
  assign_ids_from 0 elements.

Definition sum_confidence (elements : list UIElement) : Q :=
  fold_left (fun acc e => (acc + confidence e)%Q) elements 0%Q.

Definition actionable_count (elements : list UIElement) : Z :=
  Z.of_nat (List.length (filter actionable elements)).

Definition _determine_status (confidence_threshold : Q)
    (elements : list UIElement) : RecognitionStatus :=
  match elements with
  | [] => FAILURE
  | _ =>
      if actionable_count elements =? 0 then PARTIAL_SUCCESS
      else
        let avg_confidence :=
          (sum_confidence elements / inject_Z (Z.of_nat (List.length elements)))%Q in
        if Qlt_bool avg_confidence confidence_threshold then PARTIAL_SUCCESS
        else SUCCESS
  end.

(** [process]; [fresh_uuid] and [now] are the readings of [uuid.uuid4()]
    and [datetime.now()]. *)
Definition process (confidence_threshold : Q) (elements : list UIElement)
    (screenshot : Screenshot) (model_name : string) (inference_time : Q)
    (source : InferenceSource) (fresh_uuid : string) (now : datetime)
    : pyres RecognitionResult :=
  let valid_elements := _filter_invalid elements in
  annotated_elements <- _annotate_uncertainty confidence_threshold valid_elements ;;
  sorted_elements <- _sort_by_position annotated_elements ;;
  id_elements <- _assign_ids sorted_elements ;;
  let status := _determine_status confidence_threshold id_elements in
  RecognitionResult_init fresh_uuid fresh_uuid (hash screenshot) id_elements
    model_name inference_time status source now None None.

End ResultProcessor.

(** ** services/vision_engine.py *)

Module VisionEngine.

(** An adapter as the engine uses it: a name and [infer], which returns
    elements or raises ([TimeoutError] or any other exception). *)
Record VisionModelAdapter : Type := mkAdapter {
  name : string;
  infer : Screenshot -> Q -> pyres (list UIElement)
}.

Record t : Type := mkEngine {
  primary_adapter : VisionModelAdapter;
  backup_adapters : list VisionModelAdapter;
  cloud_adapter : option VisionModelAdapter;
  enable_cloud : bool;
  _inference_count : Z;
  _fallback_count : Z;
  _cloud_count : Z
}.

(** [VisionEngine(primary, backups, cloud, enable_cloud)] *)
Definition init (primary : VisionModelAdapter)
    (backups : option (list VisionModelAdapter))
    (cloud : option VisionModelAdapter) (enable : bool) : t :=
  mkEngine primary (match backups with Some l => l | None => [] end)
    cloud enable 0 0 0.

(** The place of an adapter in the chain the engine was built with. *)
Inductive slot : Type :=
| Primary
| Backup (i : nat)
| Cloud.

(** What one invocation does towards the outside, in order: calls of
    [infer], calls of [_notify_user], and the consent dialog. *)
Inductive event : Type :=
| Attempt (s : slot) (adapter_name : string)
| Notify (message : string)
| ConsentDialog (answer : bool).

Definition bump_inference (self : t) : t :=
  mkEngine (primary_adapter self) (backup_adapters self) (cloud_adapter self)
    (enable_cloud self) (_inference_count self + 1) (_fallback_count self)
    (_cloud_count self).

Definition bump_fallback (self : t) : t :=
  mkEngine (primary_adapter self) (backup_adapters self) (cloud_adapter self)
    (enable_cloud self) (_inference_count self) (_fallback_count self + 1)
    (_cloud_count self).

Definition bump_cloud (self : t) : t :=
  mkEngine (primary_adapter self) (backup_adapters self) (cloud_adapter self)
    (enable_cloud self) (_inference_count self) (_fallback_count self)
    (_cloud_count self + 1).

(** The loop over [self.backup_adapters], from the backup of index [i]. *)
Fixpoint try_backups (i : nat) (adapters : list VisionModelAdapter)
    (screenshot : Screenshot) (timeout : Q)
    : option (list UIElement) * list event :=
  match adapters with
  | [] => (None, [])
  | adapter :: rest =>
      match infer adapter screenshot timeout with
      | Ok els => (Some els, [Attempt (Backup i) (name adapter)])
      | Raise _ =>
          let (r, evs) := try_backups (S i) rest screenshot timeout in
          (r, Attempt (Backup i) (name adapter) :: evs)
      end
  end.

(** [infer_with_fallback]; [consent] is what [_check_cloud_consent] returns
    if it is called (the answer to the dialog, [False] when the dialog
    cannot be shown). *)
Definition infer_with_fallback (self : t) (screenshot : Screenshot)
    (timeout : Q) (consent : bool)
    : (list UIElement * InferenceSource) * t * list event :=
  let self1 := bump_inference self in
  let p := primary_adapter self in
  match infer p screenshot timeout with
  | Ok els => ((els, LOCAL_GPU), self1, [Attempt Primary (name p)])
  | Raise e =>
      let self2 := bump_fallback self1 in
      let message :=
        match e with
        | TimeoutError => "Primary model timed out, switching to backup..."
        | _ => "Primary model failed, switching to backup..."
        end in
      let ev1 := [Attempt Primary (name p); Notify message] in
      match try_backups 0 (backup_adapters self) screenshot timeout with
      | (Some els, ev2) => ((els, LOCAL_CPU), self2, ev1 ++ ev2)
      | (None, ev2) =>
          match enable_cloud self, cloud_adapter self with
          | true, Some c =>
              if consent then
                let self3 := bump_cloud self2 in
                let ev3 := [ConsentDialog true;
                            Notify "Local models failed, using cloud API...";
                            Attempt Cloud (name c)] in
                match infer c screenshot timeout with
                | Ok els =>
                    ((els, CLOUD_API), self3,
                     ev1 ++ ev2 ++ ev3
                       ++ [Notify "Recognition successful via cloud API"])
                | Raise _ => (([], CACHE), self3, ev1 ++ ev2 ++ ev3)
                end
              else
                (([], CACHE), self2,
                 ev1 ++ ev2 ++ [ConsentDialog false;
                                Notify "Cloud API declined by user"])
          | _, _ => (([], CACHE), self2, ev1 ++ ev2)
          end
      end
  end.

(** The slots on which [infer] was called, in the order of the calls. *)
Fixpoint attempted (evs : list event) : list slot :=
  match evs with
  | [] => []
  | Attempt s _ :: evs' => s :: attempted evs'
  | _ :: evs' => attempted evs'
  end.




(** [get_statistics] *)
Record statistics : Type := mkStatistics {
  total_inferences : Z;
  fallback_count : Z;
  fallback_rate_percent : Q;
  cloud_count : Z;
  cloud_rate_percent : Q;
  primary_model : string;
  backup_models : list string;
  cloud_enabled : bool
}.

Definition get_statistics (self : t) : statistics :=
  let fallback_rate :=
    if 0 <? _inference_count self
    then (inject_Z (_fallback_count self) / inject_Z (_inference_count self) * 100)%Q
    else 0%Q in
  let cloud_rate :=
    if 0 <? _inference_count self
    then (inject_Z (_cloud_count self) / inject_Z (_inference_count self) * 100)%Q
    else 0%Q in
  mkStatistics (_inference_count self) (_fallback_count self) fallback_rate
    (_cloud_count self) cloud_rate (name (primary_adapter self))
    (map name (backup_adapters self))
    (enable_cloud self
     && match cloud_adapter self with Some _ => true | None => false end).

(** One invocation after the other on one engine: the screenshot, the
    timeout and the answer of the consent dialog of each. *)
Fixpoint infer_many (self : t) (requests : list (Screenshot * Q * bool))
    : t * list ((list UIElement * InferenceSource) * list event) :=
  match requests with
  | [] => (self, [])
  | (screenshot, timeout, consent) :: rest =>
      let '(res, self1, evs) := infer_with_fallback self screenshot timeout consent in
      let (self2, outs) := infer_many self1 rest in
      (self2, (res, evs) :: outs)
  end.

(** The answers of the consent dialogs shown, in order. *)
Fixpoint consent_answers (evs : list event) : list bool :=
  match evs with
  | [] => []
  | ConsentDialog b :: evs' => b :: consent_answers evs'
  | _ :: evs' => consent_answers evs'
  end.

(** The messages given to [_notify_user], in order. *)
Fixpoint notifications (evs : list event) : list string :=
  match evs with
  | [] => []
  | Notify m :: evs' => m :: notifications evs'
  | _ :: evs' => notifications evs'
  end.

(** The names of the adapters on which [infer] was called, with the place
    of each, in order. *)
Fixpoint attempts (evs : list event) : list (slot * string) :=
  match evs with
  | [] => []
  | Attempt s n :: evs' => (s, n) :: attempts evs'
  | _ :: evs' => attempts evs'
  end.

End VisionEngine.

(** ** Serialization: [to_dict], [from_dict] and the JSON text *)

Module Json.

(** A JSON value as [json.loads] returns it.  [JIso t] is the string
    [t.isoformat()]: [datetime.fromisoformat] is the inverse of
    [isoformat], and the model keeps the datetime instead of its digits.
    A value built by [to_dict] holds dicts, lists, strings, numbers,
    booleans and [None] only, so [json.loads (json.dumps v)] is [v] and the
    column [result_json] holds the value itself. *)
Local Unset Elimination Schemes.
Inductive json : Type :=
| JNull
| JBool (b : bool)
| JInt (z : Z)
| JFloat (q : Q)
| JStr (s : string)
| JIso (t : datetime)
| JList (l : list json)
| JDict (d : list (string * json)).
Local Set Elimination Schemes.

Definition require (k : string) (d : list (string * json)) : pyres json :=
  match dict_get k d with
  | Some v => Ok v
  | None => Raise (KeyError k)
  end.

Definition get_default (k : string) (default : json) (d : list (string * json))
    : json :=
  match dict_get k d with
  | Some v => v
  | None => default
  end.

(** The model is typed where Python is not: a value of another type than
    the annotated one raises [TypeError] where it is read. *)
Definition as_str (v : json) : pyres string :=
  match v with JStr s => Ok s | _ => Raise (TypeError "str") end.

Definition as_opt_str (v : json) : pyres (option string) :=
  match v with
  | JNull => Ok None
  | JStr s => Ok (Some s)
  | _ => Raise (TypeError "Optional[str]")
  end.

Definition as_int (v : json) : pyres Z :=
  match v with JInt z => Ok z | _ => Raise (TypeError "int") end.

Definition as_num (v : json) : pyres Q :=
  match v with
  | JFloat q => Ok q
  | JInt z => Ok (inject_Z z)
  | _ => Raise (TypeError "float")
  end.

Definition as_bool (v : json) : pyres bool :=
  match v with JBool b => Ok b | _ => Raise (TypeError "bool") end.

Definition as_list (v : json) : pyres (list json) :=
  match v with JList l => Ok l | _ => Raise (TypeError "list") end.

Definition as_dict (v : json) : pyres (list (string * json)) :=
  match v with JDict d => Ok d | _ => Raise (TypeError "dict") end.

(** [datetime.fromisoformat(s) if s else default] *)
Definition parse_datetime (v : json) (default : option datetime)
    : pyres (option datetime) :=
  match v with
  | JNull => Ok default
  | JIso t => Ok (Some t)
  | JStr s => if String.eqb s "" then Ok default
              else Raise (ValueError "Invalid isoformat string")
  | _ => Raise (TypeError "fromisoformat: argument must be str")
  end.

Definition of_opt_str (o : option string) : json :=
  match o with Some s => JStr s | None => JNull end.

(** [UIElement.to_dict] *)
Definition UIElement_to_dict (e : UIElement) : list (string * json) :=
  [("type", JStr (element_type e));
   ("text", JStr (text e));
   ("bbox", JList (map JInt (bbox e)));
   ("confidence", JFloat (confidence e));
   ("app_name", of_opt_str (app_name e));
   ("parent_id", of_opt_str (parent_id e));
   ("actionable", JBool (actionable e));
   ("created_at", JIso (created_at e))].

(** [UIElement.from_dict]; [now] is the reading of [datetime.now()]. *)
Definition UIElement_from_dict (now : datetime) (data : list (string * json))
    : pyres UIElement :=
  created <- parse_datetime (get_default "created_at" JNull data) (Some now) ;;
  ty <- (v <- require "type" data ;; as_str v) ;;
  tx <- (v <- require "text" data ;; as_str v) ;;
  bb <- (v <- require "bbox" data ;; l <- as_list v ;; mapM as_int l) ;;
  cf <- (v <- require "confidence" data ;; as_num v) ;;
  an <- as_opt_str (get_default "app_name" JNull data) ;;
  pi <- as_opt_str (get_default "parent_id" JNull data) ;;
  ac <- as_bool (get_default "actionable" (JBool true) data) ;;
  UIElement_init ty tx bb cf an pi ac
    (match created with Some t => t | None => now end).

(** The property [average_confidence]. *)
Definition average_confidence (r : RecognitionResult) : Q :=
  match elements r with
  | [] => 0%Q
  | _ => (ResultProcessor.sum_confidence (elements r)
          / inject_Z (Z.of_nat (List.length (elements r))))%Q
  end.

(** [RecognitionResult.to_dict] *)
Definition RecognitionResult_to_dict (r : RecognitionResult)
    : list (string * json) :=
  [("id", JStr (id r));
   ("screenshot_hash", JStr (screenshot_hash r));
   ("elements", JList (map (fun e => JDict (UIElement_to_dict e)) (elements r)));
   ("model_name", JStr (model_name r));
   ("model_version", of_opt_str (model_version r));
   ("inference_time", JFloat (inference_time r));
   ("status", JStr (status_name (status r)));
   ("source", JStr (source_name (source r)));
   ("created_at", JIso (r_created_at r));
   ("expires_at", match expires_at r with Some t => JIso t | None => JNull end);
   ("element_count", JInt (Z.of_nat (List.length (elements r))));
   ("average_confidence", JFloat (average_confidence r))].

(** [RecognitionResult.from_dict]; a name that is no member of the enum
    falls back to the default member. *)
Definition RecognitionResult_from_dict (now : datetime) (fresh_uuid : string)
    (data : list (string * json)) : pyres RecognitionResult :=
  els <- (l <- as_list (get_default "elements" (JList []) data) ;;
          mapM (fun v => d <- as_dict v ;; UIElement_from_dict now d) l) ;;
  created <- parse_datetime (get_default "created_at" JNull data) (Some now) ;;
  expires <- parse_datetime (get_default "expires_at" JNull data) None ;;
  status_str <- as_str (get_default "status" (JStr "SUCCESS") data) ;;
  source_str <- as_str (get_default "source" (JStr "LOCAL_GPU") data) ;;
  rid <- as_str (get_default "id" (JStr fresh_uuid) data) ;;
  sh <- (v <- require "screenshot_hash" data ;; as_str v) ;;
  mn <- (v <- require "model_name" data ;; as_str v) ;;
  it <- as_num (get_default "inference_time" (JFloat 0) data) ;;
  mv <- as_opt_str (get_default "model_version" JNull data) ;;
  RecognitionResult_init fresh_uuid rid sh els mn it
    (status_of_name status_str) (source_of_name source_str)
    (match created with Some t => t | None => now end) expires mv.

End Json.
Import Json.

(** ** infrastructure/cache_database.py *)

Module CacheDatabase.

(** The value of a TIMESTAMP column.  The code stores two texts:
    [datetime.now().isoformat()], the local time as
    [YYYY-MM-DDTHH:MM:SS.ffffff], and the column default CURRENT_TIMESTAMP,
    the UTC time as [YYYY-MM-DD HH:MM:SS].  SQLite compares them as text.
    Two texts of one format compare as their times do.  Texts of the two
    formats compare by their dates, the first ten characters, and on one
    date the text with the space is the smaller. *)
Inductive sqltime : Type :=
| IsoLocal (t : datetime)
| UtcSecond (s : Z).

Definition sqltime_compare (a b : sqltime) : comparison :=
  match a, b with
  | IsoLocal x, IsoLocal y => x ?= y
  | UtcSecond x, UtcSecond y => x ?= y
  | UtcSecond x, IsoLocal y =>
      match (x / 86400) ?= (y / 86400000000) with Eq => Lt | c => c end
  | IsoLocal x, UtcSecond y =>
      match (x / 86400000000) ?= (y / 86400) with Eq => Gt | c => c end
  end.

Definition sqltime_ltb (a b : sqltime) : bool :=
  match sqltime_compare a b with Lt => true | _ => false end.

(** The rows of the three tables; the columns the code never writes
    ([source_app], [file_size_kb], [model_version]) are left out. *)
Record screenshot_row : Type := mkScreenshotRow {
  s_id : Z;
  sha256_hash : string;
  s_width : Z;
  s_height : Z;
  source_window : string;
  s_captured_at : sqltime;
  s_expires_at : sqltime;
  s_created_at : sqltime
}.

Record result_row : Type := mkResultRow {
  r_id : Z;
  screenshot_id : Z;
  r_model_name : string;
  inference_time_ms : Z;
  confidence_score : Q;
  element_count : Z;
  result_json : list (string * json);
  hit_count : Z;
  last_accessed_at : sqltime;
  r_status : string;
  r_created : sqltime
}.

Record element_row : Type := mkElementRow {
  e_id : Z;
  result_id : Z;
  e_element_type : string;
  text_content : string;
  x1 : Z;
  y1 : Z;
  x2 : Z;
  y2 : Z;
  e_confidence : Q;
  e_actionable : bool;
  parent_element_id : option Z;
  e_created : sqltime
}.

(** The database as the connection sees it: the tables in rowid order, the
    AUTOINCREMENT counters, and the connection's [foreign_keys] pragma,
    which decides whether SQLite acts on the FOREIGN KEY clauses of the
    schema. *)
Record t : Type := mkDb {
  foreign_keys : bool;
  screenshots : list screenshot_row;
  recognition_results : list result_row;
  ui_elements : list element_row;
  seq_screenshots : Z;
  seq_results : Z;
  seq_elements : Z
}.

Definition empty : t := mkDb false [] [] [] 0 0 0.

(** [sqlite3.connect(...)]: the tables are those of the file; the pragma
    [foreign_keys] of a new connection is off, and the module never issues
    [PRAGMA foreign_keys = ON]. *)
Definition connect (file : t) : t :=
  mkDb false (screenshots file) (recognition_results file) (ui_elements file)
    (seq_screenshots file) (seq_results file) (seq_elements file).

Definition mem (x : Z) (l : list Z) : bool := existsb (Z.eqb x) l.

(** Deleting the elements of the results [rids]: ON DELETE SET NULL on
    [parent_element_id] for the elements that stay. *)
Definition delete_elements_of (rids : list Z) (els : list element_row)
    : list element_row :=
  let gone := map e_id (filter (fun e => mem (result_id e) rids) els) in
  map (fun e =>
         match parent_element_id e with
         | Some p =>
             if mem p gone then
               mkElementRow (e_id e) (result_id e) (e_element_type e)
                 (text_content e) (x1 e) (y1 e) (x2 e) (y2 e) (e_confidence e)
                 (e_actionable e) None (e_created e)
             else e
         | None => e
         end)
      (filter (fun e => negb (mem (result_id e) rids)) els).

(** DELETE of the rows [rids] of [recognition_results]; ON DELETE CASCADE
    reaches [ui_elements] when the pragma is on. *)
Definition delete_results (db : t) (rids : list Z) : t :=
  mkDb (foreign_keys db) (screenshots db)
    (filter (fun r => negb (mem (r_id r) rids)) (recognition_results db))
    (if foreign_keys db then delete_elements_of rids (ui_elements db)
     else ui_elements db)
    (seq_screenshots db) (seq_results db) (seq_elements db).

(** DELETE of the rows [sids] of [screenshots]; ON DELETE CASCADE reaches
    [recognition_results], and from there [ui_elements], when the pragma
    is on. *)
Definition delete_screenshots (db : t) (sids : list Z) : t :=
  let db1 :=
    mkDb (foreign_keys db)
      (filter (fun s => negb (mem (s_id s) sids)) (screenshots db))
      (recognition_results db) (ui_elements db)
      (seq_screenshots db) (seq_results db) (seq_elements db) in
  if foreign_keys db then
    delete_results db1
      (map r_id (filter (fun r => mem (screenshot_id r) sids)
                   (recognition_results db)))
  else db1.

(** [_cleanup_expired]: the database and the number of deleted rows. *)
Definition _cleanup_expired (db : t) (now : datetime) : t * Z :=
  let expired :=
    filter (fun s => sqltime_ltb (s_expires_at s) (IsoLocal now)) (screenshots db) in
  (delete_screenshots db (map s_id expired), Z.of_nat (List.length expired)).

(** [CacheDatabase(db_path)]: connect, create the tables if they are not
    there, clean up. *)
Definition init (file : t) (now : datetime) : t :=
  fst (_cleanup_expired (connect file) now).

(** ORDER BY last_accessed_at ASC, read from the index: rows of one value
    stay in rowid order. *)
Fixpoint insert_by_access (x : result_row) (l : list result_row)
    : list result_row :=
  match l with
  | [] => [x]
  | y :: l' =>
      match sqltime_compare (last_accessed_at y) (last_accessed_at x) with
      | Gt => x :: y :: l'
      | _ => y :: insert_by_access x l'
      end
  end.

Definition order_by_access (rows : list result_row) : list result_row :=
  fold_left (fun acc r => insert_by_access r acc) rows [].

(** [_evict_lru] *)
Definition _evict_lru (db : t) (keep_count : Z) : t :=
  let current_count := Z.of_nat (List.length (recognition_results db)) in
  if current_count <=? keep_count then db
  else
    let to_delete := current_count - keep_count in
    delete_results db
      (map r_id (firstn (Z.to_nat to_delete)
                   (order_by_access (recognition_results db)))).

(** The SELECT of [lookup_cache]: the results joined to a screenshot of
    this hash that expires after [now], ORDER BY created_at DESC LIMIT 1;
    of the rows with the greatest [created_at] the first one scanned is
    returned. *)
Definition select_newest (db : t) (screenshot_hash : string) (now : datetime)
    : option result_row :=
  let live :=
    map s_id
      (filter (fun s => String.eqb (sha256_hash s) screenshot_hash
                        && sqltime_ltb (IsoLocal now) (s_expires_at s))
         (screenshots db)) in
  fold_left
    (fun best r =>
       match best with
       | None => Some r
       | Some b => if sqltime_ltb (r_created b) (r_created r) then Some r
                   else Some b
       end)
    (filter (fun r => mem (screenshot_id r) live) (recognition_results db))
    None.

Definition touch (now : datetime) (rid : Z) (r : result_row) : result_row :=
  if r_id r =? rid then
    mkResultRow (r_id r) (screenshot_id r) (r_model_name r)
      (inference_time_ms r) (confidence_score r) (element_count r)
      (result_json r) (hit_count r + 1) (IsoLocal now) (r_status r)
      (r_created r)
  else r.

(** [lookup_cache]; [now_query] and [now_update] are the two readings of
    [datetime.now()]. *)
Definition lookup_cache (db : t) (screenshot_hash : string)
    (now_query now_update : datetime) : t * option (list (string * json)) :=
  match select_newest db screenshot_hash now_query with
  | None => (db, None)
  | Some row =>
      let db' :=
        mkDb (foreign_keys db) (screenshots db)
          (map (touch now_update (r_id row)) (recognition_results db))
          (ui_elements db)
          (seq_screenshots db) (seq_results db) (seq_elements db) in
      (db',
       Some (dict_set "_hit_count" (JInt (hit_count row + 1))
               (dict_set "_cache_hit" (JBool true) (result_json row))))
  end.

(** [int(x)]: truncation towards zero. *)
Definition int_of_float (q : Q) : Z := Z.quot (Qnum q) (Zpos (Qden q)).

Definition in_unit_interval (q : Q) : bool := Qle_bool 0 q && Qle_bool q 1.

(** A statement sequence that stops at the first exception and keeps what
    the statements before it wrote. *)
Definition guard {A : Type} (db : t) (m : pyres A) (k : A -> t * pyres unit)
    : t * pyres unit :=
  match m with
  | Ok a => k a
  | Raise e => (db, Raise e)
  end.

Notation "x <~ m 'within' db ;; k" := (guard db m (fun x => k))
  (at level 61, m at next level, db at next level, right associativity).

(** INSERT OR IGNORE INTO screenshots: a row that breaks the UNIQUE
    constraint on the hash or a CHECK constraint is skipped. *)
Definition insert_or_ignore_screenshot (db : t) (screenshot_hash : string)
    (screenshot_width screenshot_height : Z) (window : string)
    (now expires_at : datetime) (utc : Z) : t :=
  if existsb (fun s => String.eqb (sha256_hash s) screenshot_hash) (screenshots db)
     || negb (0 <? screenshot_width) || negb (0 <? screenshot_height)
  then db
  else
    let new_id := seq_screenshots db + 1 in
    mkDb (foreign_keys db)
      (screenshots db
         ++ [mkScreenshotRow new_id screenshot_hash screenshot_width
               screenshot_height window (IsoLocal now) (IsoLocal expires_at)
               (UtcSecond utc)])
      (recognition_results db) (ui_elements db)
      new_id (seq_results db) (seq_elements db).

(** [SELECT id FROM screenshots WHERE sha256_hash = ?], then
    [fetchone()['id']]. *)
Definition select_screenshot_id (db : t) (screenshot_hash : string) : pyres Z :=
  match find (fun s => String.eqb (sha256_hash s) screenshot_hash) (screenshots db) with
  | Some s => Ok (s_id s)
  | None => Raise (TypeError "'NoneType' object is not subscriptable")
  end.

(** INSERT INTO ui_elements for one element of the dict. *)
Definition insert_element (db : t) (rid : Z) (utc : Z)
    (element : list (string * json)) : t * pyres unit :=
  ty <~ (v <- require "type" element ;; as_str v) within db ;;
  tx <~ as_str (get_default "text" (JStr "") element) within db ;;
  bb <~ (v <- require "bbox" element ;; l <- as_list v ;; mapM as_int l) within db ;;
  cf <~ (v <- require "confidence" element ;; as_num v) within db ;;
  ac <~ as_bool (get_default "actionable" (JBool false) element) within db ;;
  match bb with
  | b0 :: b1 :: b2 :: b3 :: _ =>
      if in_unit_interval cf then
        let new_id := seq_elements db + 1 in
        (mkDb (foreign_keys db) (screenshots db) (recognition_results db)
           (ui_elements db
              ++ [mkElementRow new_id rid ty tx b0 b1 b2 b3 cf ac None
                    (UtcSecond utc)])
           (seq_screenshots db) (seq_results db) new_id,
         Ok tt)
      else (db, Raise (IntegrityError "CHECK constraint failed: confidence"))
  | _ => (db, Raise IndexError)
  end.

Fixpoint insert_elements (db : t) (rid : Z) (utc : Z)
    (elements : list (list (string * json))) : t * pyres unit :=
  match elements with
  | [] => (db, Ok tt)
  | element :: rest =>
      match insert_element db rid utc element with
      | (db', Ok _) => insert_elements db' rid utc rest
      | (db', Raise e) => (db', Raise e)
      end
  end.

(** [insert_cache]; [now] is the reading of [datetime.now()] and [utc] the
    second CURRENT_TIMESTAMP gives to the rows written. *)
Definition insert_cache (db : t) (screenshot_hash : string)
    (screenshot_width screenshot_height : Z)
    (recognition_result : list (string * json)) (model_name : string)
    (ttl_minutes max_results : Z) (now : datetime) (utc : Z)
    : t * pyres unit :=
  let count := Z.of_nat (List.length (recognition_results db)) in
  let db1 := if count >=? max_results then _evict_lru db max_results else db in
  let expires_at := now + timedelta_minutes ttl_minutes in
  window <~ as_str (get_default "source_window" (JStr "Unknown") recognition_result)
    within db1 ;;
  let db2 := insert_or_ignore_screenshot db1 screenshot_hash screenshot_width
               screenshot_height window now expires_at utc in
  sid <~ select_screenshot_id db2 screenshot_hash within db2 ;;
  elements <~ (l <- as_list (get_default "elements" (JList []) recognition_result) ;;
               mapM as_dict l) within db2 ;;
  let element_count := Z.of_nat (List.length elements) in
  confidences <~ mapM (fun e => v <- require "confidence" e ;; as_num v) elements
    within db2 ;;
  let avg_confidence :=
    if 0 <? element_count
    then (fold_left Qplus confidences 0 / inject_Z element_count)%Q
    else 0%Q in
  seconds <~ as_num (get_default "inference_time" (JInt 0) recognition_result)
    within db2 ;;
  let inference_time_ms := int_of_float (seconds * 1000)%Q in
  status <~ as_str (get_default "status" (JStr "success") recognition_result)
    within db2 ;;
  if negb (0 <=? inference_time_ms) || negb (in_unit_interval avg_confidence) then
    (db2, Raise (IntegrityError "CHECK constraint failed: recognition_results"))
  else
    let rid := seq_results db2 + 1 in
    let db3 :=
      mkDb (foreign_keys db2) (screenshots db2)
        (recognition_results db2
           ++ [mkResultRow rid sid model_name inference_time_ms avg_confidence
                 element_count recognition_result 0 (UtcSecond utc) status
                 (UtcSecond utc)])
        (ui_elements db2)
        (seq_screenshots db2) rid (seq_elements db2) in
    insert_elements db3 rid utc elements.

(** [clear] *)
Definition clear (db : t) : t :=
  mkDb (foreign_keys db) [] [] []
    (seq_screenshots db) (seq_results db) (seq_elements db).

(** [get_stats]; SUM and AVG are NULL on an empty table, which [or 0]
    turns into 0. *)
Record stats : Type := mkStats {
  total_screenshots : Z;
  total_results : Z;
  total_elements : Z;
  total_cache_hits : Z;
  avg_hits_per_result : Q;
  hit_rate : Q
}.

Definition sum_hits (rows : list result_row) : Z :=
  fold_left (fun acc r => acc + hit_count r) rows 0.

Definition get_stats (db : t) : stats :=
  let n_results := Z.of_nat (List.length (recognition_results db)) in
  let total_hits := sum_hits (recognition_results db) in
  let avg_hits :=
    match recognition_results db with
    | [] => 0%Q
    | _ => (inject_Z total_hits / inject_Z n_results)%Q
    end in
  let total_accesses := n_results + total_hits in
  mkStats (Z.of_nat (List.length (screenshots db))) n_results
    (Z.of_nat (List.length (ui_elements db))) total_hits avg_hits
    (if 0 <? total_accesses
     then (inject_Z total_hits / inject_Z total_accesses * 100)%Q
     else 0%Q).

End CacheDatabase.

(** ** services/cache_manager.py *)

Module CacheManager.

Record t : Type := mkManager {
  ttl_seconds : Z;
  max_size : Z;
  db : CacheDatabase.t
}.

(** [CacheManager(cache_dir, ttl_seconds, max_size)] over the database
    file found in the directory. *)
Definition init (file : CacheDatabase.t) (ttl_seconds max_size : Z)
    (now : datetime) : t :=
  mkManager ttl_seconds max_size (CacheDatabase.init file now).

(** The readings of [datetime.now()] during one [get], in the order they
    are taken: the SELECT, the UPDATE, [from_dict], [is_expired]. *)
Record get_clock : Type := mkGetClock {
  at_query : datetime;
  at_update : datetime;
  at_parse : datetime;
  at_check : datetime
}.

(** [get]: any exception is logged and gives [None]. *)
Definition get (self : t) (screenshot : Screenshot) (clk : get_clock)
    (fresh_uuid : string) : t * option RecognitionResult :=
  let (db', cached) :=
    CacheDatabase.lookup_cache (db self) (hash screenshot)
      (at_query clk) (at_update clk) in
  let self' := mkManager (ttl_seconds self) (max_size self) db' in
  match cached with
  | None => (self', None)
  | Some cached_data =>
      match RecognitionResult_from_dict (at_parse clk) fresh_uuid cached_data with
      | Raise _ => (self', None)
      | Ok result =>
          if is_expired (at_check clk) result then (self', None)
          else (self', Some result)
      end
  end.

(** [put]: any exception is logged and swallowed; [//] is floor division. *)
Definition put (self : t) (screenshot : Screenshot) (result : RecognitionResult)
    (now : datetime) (utc : Z) : t :=
  let result_dict := RecognitionResult_to_dict result in
  let (db', _) :=
    CacheDatabase.insert_cache (db self) (hash screenshot) (width screenshot)
      (height screenshot) result_dict (model_name result)
      (ttl_seconds self / 60) (max_size self) now utc in
  mkManager (ttl_seconds self) (max_size self) db'.

(** [cleanup] *)
Definition cleanup (self : t) (now : datetime) : t :=
  mkManager (ttl_seconds self) (max_size self)
    (fst (CacheDatabase._cleanup_expired (db self) now)).

(** [clear] and [get_stats] *)
Definition clear (self : t) : t :=
  mkManager (ttl_seconds self) (max_size self) (CacheDatabase.clear (db self)).

Definition get_stats (self : t) : CacheDatabase.stats :=
  CacheDatabase.get_stats (db self).

End CacheManager.

(** ** core/recognition_controller.py *)

Module RecognitionController.

(** The controller with the parts of its collaborators it reads: the
    threshold of its result processor and the [inference_timeout] of its
    configuration.  The plugin passes no engine when no model is
    detected. *)
Record t : Type := mkController {
  cache_manager : CacheManager.t;
  vision_engine : option VisionEngine.t;
  confidence_threshold : Q;
  inference_timeout : Q;
  _cancel_requested : bool;
  _current_result : option RecognitionResult;
  _current_element_index : Z
}.

Definition init (cm : CacheManager.t) (engine : option VisionEngine.t)
    (threshold timeout : Q) : t :=
  mkController cm engine threshold timeout false None 0.

(** What a worker reads from outside the pipeline during one request. *)
Record worker_env : Type := mkWorkerEnv {
  capture : pyres Screenshot;
  cancelled_after_capture : bool;
  cancelled_before_inference : bool;
  cancelled_after_inference : bool;
  cache_clock : CacheManager.get_clock;
  uuid_parse : string;
  consent : bool;
  inference_seconds : Q;
  uuid_process : string;
  processed_at : datetime;
  cached_at : datetime;
  cached_utc : Z
}.

(** A call handed to [_call_on_main_thread]. *)
Inductive callback_call : Type :=
| Callback (result : RecognitionResult)
| ErrorCallback (e : exn).

Definition with_manager (self : t) (cm : CacheManager.t) : t :=
  mkController cm (vision_engine self) (confidence_threshold self)
    (inference_timeout self) (_cancel_requested self) (_current_result self)
    (_current_element_index self).

Definition with_engine (self : t) (engine : VisionEngine.t) : t :=
  mkController (cache_manager self) (Some engine) (confidence_threshold self)
    (inference_timeout self) (_cancel_requested self) (_current_result self)
    (_current_element_index self).

(** [self._current_result = result; self._current_element_index = 0] *)
Definition with_result (self : t) (result : RecognitionResult) : t :=
  mkController (cache_manager self) (vision_engine self)
    (confidence_threshold self) (inference_timeout self)
    (_cancel_requested self) (Some result) 0.

Definition with_index (self : t) (i : Z) : t :=
  mkController (cache_manager self) (vision_engine self)
    (confidence_threshold self) (inference_timeout self)
    (_cancel_requested self) (_current_result self) i.

(** [_recognition_worker]: the controller after the request, the calls
    handed to the main thread, and what the engine did. *)
Definition _recognition_worker (self : t) (env : worker_env)
    : t * list callback_call * list VisionEngine.event :=
  match capture env with
  | Raise e => (self, [ErrorCallback e], [])
  | Ok screenshot =>
      if cancelled_after_capture env then (self, [], [])
      else
        let (cm1, cached_result) :=
          CacheManager.get (cache_manager self) screenshot (cache_clock env)
            (uuid_parse env) in
        let self1 := with_manager self cm1 in
        match cached_result with
        | Some cached => (with_result self1 cached, [Callback cached], [])
        | None =>
            if cancelled_before_inference env then (self1, [], [])
            else
              match vision_engine self1 with
              | None =>
                  (self1, [ErrorCallback (AttributeError "infer_with_fallback")], [])
              | Some engine =>
                  let '((els, source), engine', evs) :=
                    VisionEngine.infer_with_fallback engine screenshot
                      (inference_timeout self1) (consent env) in
                  let self2 := with_engine self1 engine' in
                  if cancelled_after_inference env then (self2, [], evs)
                  else
                    match ResultProcessor.process (confidence_threshold self2)
                            els screenshot
                            (VisionEngine.name (VisionEngine.primary_adapter engine'))
                            (inference_seconds env) source (uuid_process env)
                            (processed_at env) with
                    | Raise e => (self2, [ErrorCallback e], evs)
                    | Ok result =>
                        let cm2 :=
                          if negb (status_eqb (status result) FAILURE) then
                            CacheManager.put (cache_manager self2) screenshot
                              result (cached_at env) (cached_utc env)
                          else cache_manager self2 in
                        (with_result (with_manager self2 cm2) result,
                         [Callback result], evs)
                    end
              end
        end
  end.

(** [l[i]] with Python's reading of a negative index. *)
Definition getitem {A : Type} (l : list A) (i : Z) : pyres A :=
  let n := Z.of_nat (List.length l) in
  let j := if i <? 0 then i + n else i in
  if (j <? 0) || (n <=? j) then Raise IndexError
  else match nth_error l (Z.to_nat j) with
       | Some a => Ok a
       | None => Raise IndexError
       end.

Definition get_next_element (self : t) : t * pyres (option UIElement) :=
  match _current_result self with
  | None => (self, Ok None)
  | Some r =>
      match elements r with
      | [] => (self, Ok None)
      | _ =>
          let i := _current_element_index self + 1 in
          let n := Z.of_nat (List.length (elements r)) in
          if i >=? n then (with_index self (n - 1), Ok None)
          else (with_index self i, e <- getitem (elements r) i ;; Ok (Some e))
      end
  end.

Definition get_previous_element (self : t) : t * pyres (option UIElement) :=
  match _current_result self with
  | None => (self, Ok None)
  | Some r =>
      match elements r with
      | [] => (self, Ok None)
      | _ =>
          let i := _current_element_index self - 1 in
          if i <? 0 then (with_index self 0, Ok None)
          else (with_index self i, e <- getitem (elements r) i ;; Ok (Some e))
      end
  end.

Definition get_current_element (self : t) : t * pyres (option UIElement) :=
  match _current_result self with
  | None => (self, Ok None)
  | Some r =>
      match elements r with
      | [] => (self, Ok None)
      | _ =>
          let i := _current_element_index self in
          let n := Z.of_nat (List.length (elements r)) in
          if (i <? 0) || (i >=? n) then (self, Ok None)
          else (self, e <- getitem (elements r) i ;; Ok (Some e))
      end
  end.

(** The cursor operations a caller can issue, and a run of them: the
    controller after the run, what each call returned, and the index
    after each call. *)
Inductive cursor_op : Type := Next | Previous | Current.

Definition cursor_step (self : t) (op : cursor_op) : t * pyres (option UIElement) :=
  match op with
  | Next => get_next_element self
  | Previous => get_previous_element self
  | Current => get_current_element self
  end.

Fixpoint cursor_run (self : t) (ops : list cursor_op)
    : t * list (pyres (option UIElement) * Z) :=
  match ops with
  | [] => (self, [])
  | op :: rest =>
      let (self1, out) := cursor_step self op in
      let (self2, outs) := cursor_run self1 rest in
      (self2, (out, _current_element_index self1) :: outs)
  end.

(** The cursor is on an element of the result [r]. *)
Definition on_element (r : RecognitionResult) (self : t) : Prop :=
  _current_result self = Some r
  /\ 0 <= _current_element_index self <= Z.of_nat (List.length (elements r)) - 1.

End RecognitionController.

(** ** Concrete engines, stores and requests *)

Module Scenarios.

Import VisionEngine.

Definition failing (n : string) (e : exn) : VisionModelAdapter :=
  mkAdapter n (fun _ _ => Raise e).


Definition is_cloud (s : slot) : bool :=
  match s with Cloud => true | _ => false end.

Definition has_cloud (self : VisionEngine.t) : bool :=
  match cloud_adapter self with Some _ => true | None => false end.

(** A primary, a backup and an enabled cloud adapter, none of which
    returns. *)
Definition exhausted_engine : VisionEngine.t :=
  VisionEngine.init (failing "UI-TARS 7B" TimeoutError)
    (Some [failing "MiniCPM-V 2.6" (RuntimeError "inference failed")])
    (Some (failing "Doubao Cloud API" (RuntimeError "API error")))
    true.

(** A captured window. *)
Definition active_window : Screenshot :=
  mkScreenshot "9f86d081884c7d659a2feaa0c55ad015a3bf4f1b2b0b822cd15d6c15b0f00a08"
    1920 1080 (Some "Untitled - Notepad") (Some "notepad.exe") 0 None.

(** The element [UIElement(element_type="button", text="OK",
    bbox=[100, 100, 180, 130], confidence=c, actionable=True)] as the
    constructor builds it. *)
Definition ok_button (c : Q) : UIElement :=
  mkUIElement "button" "OK" [100; 100; 180; 130] c None None true 0 None None.

(** The same element on an instance that was given the attributes [id]
    and [attributes] after its construction. *)
Definition ok_button_with_attributes (c : Q) : UIElement :=
  mkUIElement "button" "OK" [100; 100; 180; 130] c None None true 0
    (Some "") (Some []).

Definition annotations (e : UIElement) : list string :=
  match attr_attributes e with
  | Some d => match dict_get "annotations" d with Some l => l | None => [] end
  | None => []
  end.

(** The window [active_window] with another content, hence another hash. *)
Definition window (h : string) : Screenshot :=
  mkScreenshot h 1920 1080 (Some "Untitled - Notepad") (Some "notepad.exe") 0 None.

(** A successful result for the window of hash [h], created at [created]. *)
Definition result_for (h : string) (created : datetime) : RecognitionResult :=
  mkRecognitionResult "0b5c1f0e-6d0a-4c57-9a51-5c2f3f1d7e11" h
    [ok_button (9 # 10)] "UI-TARS 7B" (3 # 2) SUCCESS LOCAL_GPU created
    (Some (created + timedelta_seconds CACHE_TTL)) None.

(** One reading [t] of the clock for all of a [get]. *)
Definition at_time (t : datetime) : CacheManager.get_clock :=
  CacheManager.mkGetClock t t t t.

Definition seconds (n : Z) : datetime := n * 1000000.

(** What a caller can ask of a cache manager, and a run of such calls:
    the manager after the run and, for each [get], the hash asked and the
    answer. *)
Inductive cache_op : Type :=
| OpGet (s : Screenshot) (clk : CacheManager.get_clock) (fresh_uuid : string)
| OpPut (s : Screenshot) (r : RecognitionResult) (now : datetime) (utc : Z)
| OpCleanup (now : datetime).

Fixpoint run_ops (cm : CacheManager.t) (ops : list cache_op)
    : CacheManager.t * list (string * option RecognitionResult) :=
  match ops with
  | [] => (cm, [])
  | OpGet s clk u :: rest =>
      let (cm1, out) := CacheManager.get cm s clk u in
      let (cm2, outs) := run_ops cm1 rest in
      (cm2, (hash s, out) :: outs)
  | OpPut s r now utc :: rest => run_ops (CacheManager.put cm s r now utc) rest
  | OpCleanup now :: rest => run_ops (CacheManager.cleanup cm now) rest
  end.




(** A manager over an empty database file. *)
Definition fresh_manager (ttl_seconds max_size : Z) : CacheManager.t :=
  CacheManager.init CacheDatabase.empty ttl_seconds max_size 0.

(** Five buttons as the navigation test of the repository builds them. *)
Definition button_at (i : Z) (label : string) : UIElement :=
  mkUIElement "button" label [i * 100; i * 50; i * 100 + 80; i * 50 + 30]
    (9 # 10) None None true 0 None None.

Definition five_buttons : list UIElement :=
  [button_at 0 "Button 0"; button_at 1 "Button 1"; button_at 2 "Button 2";
   button_at 3 "Button 3"; button_at 4 "Button 4"].

Definition navigation_result : RecognitionResult :=
  mkRecognitionResult "6f1d2c3b-0a4e-4f5a-8b6c-7d8e9f0a1b2c" (hash active_window)
    five_buttons "mock" 1 SUCCESS LOCAL_GPU 0
    (Some (timedelta_seconds CACHE_TTL)) None.

(** A controller with the defaults of the plugin over an empty cache. *)
Definition controller_with (engine : option VisionEngine.t)
    : RecognitionController.t :=
  RecognitionController.init (fresh_manager 300 1000) engine (7 # 10) 15.

Definition navigating_controller : RecognitionController.t :=
  RecognitionController.with_result (controller_with None) navigation_result.




(** The store after one entry was put with the default TTL of 300 s. *)
Definition one_entry : CacheManager.t :=
  CacheManager.put (fresh_manager 300 1000) active_window
    (result_for (hash active_window) (seconds 1)) (seconds 1) 1.

(** Three windows put one after the other into a store of at most two
    entries. *)
Definition three_puts : list cache_op :=
  [OpPut (window "4e07408562bedb8b60ce05c1decfe3ad16b72230967de01f640b7e4729b49fce")
     (result_for "4e07408562bedb8b60ce05c1decfe3ad16b72230967de01f640b7e4729b49fce"
        (seconds 1)) (seconds 1) 1;
   OpPut (window "4b227777d4dd1fc61c6f884f48641d02b4d121d3fd328cb08b5531fcacdabf8a")
     (result_for "4b227777d4dd1fc61c6f884f48641d02b4d121d3fd328cb08b5531fcacdabf8a"
        (seconds 2)) (seconds 2) 2;
   OpPut (window "ef2d127de37b942baad06145e54b0c619a1f22327b2ebbcfbec78f5564afe39d")
     (result_for "ef2d127de37b942baad06145e54b0c619a1f22327b2ebbcfbec78f5564afe39d"
        (seconds 3)) (seconds 3) 3].

(** One window recognized, found in the cache, recognized again after its
    entry has expired, and looked up right after. *)
Definition recognize_again : list cache_op :=
  [OpPut active_window (result_for (hash active_window) (seconds 1)) (seconds 1) 1;
   OpGet active_window (at_time (seconds 2)) "";
   OpGet active_window (at_time (seconds 400)) "";
   OpPut active_window (result_for (hash active_window) (seconds 401))
     (seconds 401) 401;
   OpGet active_window (at_time (seconds 401)) ""].




(** The store after the eviction step of [insert_cache]. *)
Definition after_eviction (db : CacheDatabase.t) (max_results : Z) : CacheDatabase.t :=
  if Z.of_nat (List.length (CacheDatabase.recognition_results db)) >=? max_results
  then CacheDatabase._evict_lru db max_results
  else db.

(** What [from_dict] builds from the dict of [r]: the declared fields of
    every element, and a fresh identifier when [r] has none. *)
Definition reloaded (fresh_uuid : string) (r : RecognitionResult) : RecognitionResult :=
  mkRecognitionResult (if String.eqb (id r) "" then fresh_uuid else id r)
    (screenshot_hash r) (map fields (elements r)) (model_name r)
    (inference_time r) (status r) (source r) (r_created_at r)
    (match expires_at r with
     | Some t => Some t
     | None => Some (r_created_at r + timedelta_seconds CACHE_TTL)
     end)
    (model_version r).

End Scenarios.

(** ** models/model_detector.py *)

Module ModelDetector.

(** The three adapter classes; each fixes the [name] of its instances and
    is given here by its [infer]. *)
Definition UITarsAdapter (infer : Screenshot -> Q -> pyres (list UIElement))
    : VisionEngine.VisionModelAdapter :=
  VisionEngine.mkAdapter "UI-TARS 7B" infer.

Definition MiniCPMAdapter (infer : Screenshot -> Q -> pyres (list UIElement))
    : VisionEngine.VisionModelAdapter :=
  VisionEngine.mkAdapter "MiniCPM-V 2.6" infer.

Definition DoubaoAPIAdapter (infer : Screenshot -> Q -> pyres (list UIElement))
    : VisionEngine.VisionModelAdapter :=
  VisionEngine.mkAdapter "Doubao Cloud API" infer.

Definition found {A B : Type} (make : A -> B) (o : option A) : list B :=
  match o with
  | Some a => [make a]
  | None => []
  end.

(** [detect_all_adapters]: [uitars] is there when the GPU meets the
    requirements and the model directory exists, [minicpm] when the CPU
    does and its directory exists, [doubao] when the cloud API is enabled
    in the configuration and has a key. *)
Definition detect_all_adapters
    (uitars minicpm doubao : option (Screenshot -> Q -> pyres (list UIElement)))
    : list VisionEngine.VisionModelAdapter :=
  found UITarsAdapter uitars ++ found MiniCPMAdapter minicpm
    ++ found DoubaoAPIAdapter doubao.

End ModelDetector.

(** ** __init__.py: the wiring of the engine and the activation script *)

Module GlobalPlugin.

(** The adapter the plugin takes for the cloud one: the first of the
    detected adapters whose name is that of the Doubao adapter, with its
    position. *)
Definition CLOUD_ADAPTER_NAME : string := "Doubao Cloud API".

Fixpoint find_cloud (i : nat) (adapters : list VisionEngine.VisionModelAdapter)
    : option (nat * VisionEngine.VisionModelAdapter) :=
  match adapters with
  | [] => None
  | a :: rest =>
      if String.eqb (VisionEngine.name a) CLOUD_ADAPTER_NAME then Some (i, a)
      else find_cloud (S i) rest
  end.

Fixpoint remove_nth {A : Type} (i : nat) (l : list A) : list A :=
  match l, i with
  | [], _ => []
  | _ :: rest, O => rest
  | a :: rest, S j => a :: remove_nth j rest
  end.

(** The engine [__init__] builds from the adapters the detector found (they
    are distinct objects, so the cloud adapter is in [backups] exactly when
    it is not the first): the first adapter is the primary, the others are
    the backups, the cloud adapter is taken out of the backups.
    [primary_loads] tells whether [load_models] got the primary loaded;
    when it raises, the plugin runs without engine. *)
Definition build_engine (adapters : list VisionEngine.VisionModelAdapter)
    (enable_cloud : bool) (primary_loads : bool) : option VisionEngine.t :=
  match adapters with
  | [] => None
  | primary :: backups =>
      let engine :=
        match find_cloud 0 adapters with
        | None => VisionEngine.init primary (Some backups) None enable_cloud
        | Some (O, cloud) =>
            VisionEngine.init primary (Some backups) (Some cloud) enable_cloud
        | Some (S j, cloud) =>
            VisionEngine.init primary (Some (remove_nth j backups)) (Some cloud)
              enable_cloud
        end in
      if primary_loads then Some engine else None
  end.

(** What the confirmation dialog of [script_activateElement] does: the
    user answers, or [wx] cannot be imported, or showing it raises. *)
Inductive confirmation : Type :=
| AnswerYes
| AnswerNo
| NoDialog
| DialogRaises (e : exn).

(** How [script_activateElement] ends: with one of its messages, or by
    reaching the code that moves the mouse to a point and clicks there
    (which says so when [pyautogui] is missing or fails). *)
Inductive activation : Type :=
| NotAvailable
| NoElementToActivate
| NotActionable (element_type : string)
| ActivationCancelled
| CoordinatesInvalid
| OutOfScreenBounds
| ActivationError
| ClickAt (x y : Z).

(** The checks of [script_activateElement] on the current element;
    [screen] is the size [win32api] reports, if it can be asked. *)
Definition activate_element (e : UIElement) (dialog : confirmation)
    (screen : option (Z * Z)) : activation :=
  if negb (actionable e) then NotActionable (element_type e)
  else
    let confirmed :=
      if Qlt_bool (confidence e) LOW_CONFIDENCE_THRESHOLD then dialog
      else AnswerYes in
    match confirmed with
    | AnswerNo => ActivationCancelled
    | DialogRaises _ => ActivationError
    | AnswerYes | NoDialog =>
        match bbox e with
        | [x1; y1; x2; y2] =>
            let in_bounds :=
              match screen with
              | Some (screen_width, screen_height) =>
                  (0 <=? x1) && (x1 <? x2) && (x2 <=? screen_width)
                  && (0 <=? y1) && (y1 <? y2) && (y2 <=? screen_height)
              | None => true
              end in
            if in_bounds then ClickAt ((x1 + x2) / 2) ((y1 + y2) / 2)
            else OutOfScreenBounds
        | _ => CoordinatesInvalid
        end
    end.

Definition script_activateElement (enabled : bool)
    (controller : RecognitionController.t) (dialog : confirmation)
    (screen : option (Z * Z)) : activation :=
  if negb enabled then NotAvailable
  else
    match snd (RecognitionController.get_current_element controller) with
    | Raise _ => ActivationError
    | Ok None => NoElementToActivate
    | Ok (Some e) => activate_element e dialog screen
    end.

(** [f"{x}"] for an int. *)
Definition string_of_Z (z : Z) : string := NilZero.string_of_int (Z.to_int z).

(** What the user gets to hear: a text given to [speech.speak] or to
    [ui.message]. *)
Inductive announcement : Type :=
| Speak (text : string)
| Message (text : string).

(** The list [text_parts] that [_speak_element] builds; reading the centre
    of the box raises when the box has too few coordinates. *)
Definition text_parts (e : UIElement) : pyres (list string) :=
  let element_description :=
    if String.eqb (text e) "" then
      if String.eqb (element_type e) "button"
         || String.eqb (element_type e) "icon_button"
      then String.append "unrecognized " (element_type e)
      else "unrecognized element"
    else text e in
  let parts :=
    [String.append (element_type e) (String.append ": " element_description)] in
  let parts :=
    if Qlt_bool (confidence e) LOW_CONFIDENCE_THRESHOLD
    then parts ++ ["(uncertain)"] else parts in
  x <- center_x e ;;
  y <- center_y e ;;
  Ok (parts ++ [String.append "at "
                  (String.append (string_of_Z x)
                     (String.append ", " (string_of_Z y)))]).

(** [_speak_element]: any exception gives the short message instead.
    ([speech] is NVDA's own module and is there whenever the plugin
    runs, so its import does not raise.) *)
Definition _speak_element (e : UIElement) : announcement :=
  match text_parts e with
  | Ok parts => Speak (String.concat " " parts)
  | Raise _ => Message (String.append (element_type e) (String.append ": " (text e)))
  end.

(** [script_nextElement] and [script_previousElement] *)
Definition script_nextElement (enabled : bool) (controller : RecognitionController.t)
    : RecognitionController.t * announcement :=
  if negb enabled then (controller, Message "NVDA Vision is not available")
  else
    match RecognitionController.get_next_element controller with
    | (controller', Raise _) => (controller', Message "Navigation failed")
    | (controller', Ok (Some e)) => (controller', _speak_element e)
    | (controller', Ok None) => (controller', Message "No more elements")
    end.

Definition script_previousElement (enabled : bool)
    (controller : RecognitionController.t)
    : RecognitionController.t * announcement :=
  if negb enabled then (controller, Message "NVDA Vision is not available")
  else
    match RecognitionController.get_previous_element controller with
    | (controller', Raise _) => (controller', Message "Navigation failed")
    | (controller', Ok (Some e)) => (controller', _speak_element e)
    | (controller', Ok None) => (controller', Message "No previous elements")
    end.

End GlobalPlugin.

(** ** Runs of the store and the conditions its rows keep *)

Module Invariants.

Import CacheDatabase.

(** The rows of a table with an AUTOINCREMENT key: in the order of their
    keys, which are positive and not above the counter. *)
Definition table_ok {A : Type} (key : A -> Z) (counter : Z) (rows : list A) : Prop :=
  StronglySorted (fun a b => key a < key b) rows
  /\ Forall (fun a => 0 < key a <= counter) rows.

(** The constraints of the schema a store keeps without the foreign keys:
    the keys of the three tables, the UNIQUE hash, the CHECK constraints,
    and references that point at keys already given out. *)
Record well_formed (db : t) : Prop := mkWellFormed {
  wf_counters :
    0 <= seq_screenshots db /\ 0 <= seq_results db /\ 0 <= seq_elements db;
  wf_screenshots : table_ok s_id (seq_screenshots db) (screenshots db);
  wf_results : table_ok r_id (seq_results db) (recognition_results db);
  wf_elements : table_ok e_id (seq_elements db) (ui_elements db);
  wf_unique_hash : NoDup (map sha256_hash (screenshots db));
  wf_screenshot_checks :
    Forall (fun s => 0 < s_width s /\ 0 < s_height s) (screenshots db);
  wf_result_checks :
    Forall (fun r => 0 <= inference_time_ms r
                     /\ in_unit_interval (confidence_score r) = true
                     /\ 0 <= element_count r /\ 0 <= hit_count r
                     /\ 0 < screenshot_id r <= seq_screenshots db)
      (recognition_results db);
  wf_element_checks :
    Forall (fun e => in_unit_interval (e_confidence e) = true
                     /\ 0 < result_id e <= seq_results db)
      (ui_elements db)
}.

(** Everything a caller can ask of a cache manager. *)
Inductive store_op : Type :=
| Get (s : Screenshot) (clk : CacheManager.get_clock) (fresh_uuid : string)
| Put (s : Screenshot) (r : RecognitionResult) (now : datetime) (utc : Z)
| Cleanup (now : datetime)
| Clear.

Definition store_step (cm : CacheManager.t) (op : store_op) : CacheManager.t :=
  match op with
  | Get s clk u => fst (CacheManager.get cm s clk u)
  | Put s r now utc => CacheManager.put cm s r now utc
  | Cleanup now => CacheManager.cleanup cm now
  | Clear => CacheManager.clear cm
  end.

Definition store_run (cm : CacheManager.t) (ops : list store_op) : CacheManager.t :=
  fold_left store_step ops cm.

(** The rows the SELECT of [lookup_cache] ranges over: a result joined to
    a screenshot row of the hash that expires after [now]. *)
Definition joined_live (db : t) (screenshot_hash : string) (now : datetime)
    (r : result_row) : Prop :=
  exists s, In s (screenshots db) /\ s_id s = screenshot_id r
            /\ sha256_hash s = screenshot_hash
            /\ sqltime_ltb (IsoLocal now) (s_expires_at s) = true.

(** An int that [sqlite3] can bind to a statement: one of 64 bits; for
    any other it raises [OverflowError]. *)
Definition sqlite_int (z : Z) : bool := (- 2 ^ 63 <=? z) && (z <? 2 ^ 63).



(** The step of the scan of [select_newest]: the row kept so far gives
    way to one that was created later. *)
Definition newer_of (best : option result_row) (r : result_row)
    : option result_row :=
  match best with
  | None => Some r
  | Some b => if sqltime_ltb (r_created b) (r_created r) then Some r else Some b
  end.






(** The store after the three windows of [three_puts] were put into a
    store of at most two entries. *)
Definition as_store_op (op : Scenarios.cache_op) : store_op :=
  match op with
  | Scenarios.OpGet s clk u => Get s clk u
  | Scenarios.OpPut s r now utc => Put s r now utc
  | Scenarios.OpCleanup now => Cleanup now
  end.

Definition three_stored : CacheManager.t :=
  store_run (Scenarios.fresh_manager 300 2) (map as_store_op Scenarios.three_puts).

(** The order of the texts of two timestamps: not greater. *)
Definition sqltime_le (a b : sqltime) : Prop := sqltime_compare a b <> Gt.

(** What the text of a timestamp is compared by: its date, then its format
    (the text with the space is the smaller), then its time. *)
Definition sqltime_key (a : sqltime) : Z * Z * Z :=
  match a with
  | UtcSecond s => (s / 86400, 0, s)
  | IsoLocal t => (t / 86400000000, 1, t)
  end.

Definition is_local_gpu (src : InferenceSource) : bool :=
  match src with LOCAL_GPU => true | _ => false end.

(** Every local adapter of the engine raises on the screenshot. *)
Definition local_adapters_fail (self : VisionEngine.t) (screenshot : Screenshot)
    (timeout : Q) : bool :=
  negb (is_ok (VisionEngine.infer (VisionEngine.primary_adapter self) screenshot timeout))
  && forallb (fun a => negb (is_ok (VisionEngine.infer a screenshot timeout)))
       (VisionEngine.backup_adapters self).

(** An invocation in which the cloud adapter was called. *)
Definition used_cloud (evs : list VisionEngine.event) : bool :=
  existsb Scenarios.is_cloud (VisionEngine.attempted evs).

(** The reading order of two elements: by the top edge of the box, and on
    one top edge by the left edge. *)
Definition reading_order (a b : UIElement) : Prop :=
  exists x1 y1 x2 y2 x1' y1' x2' y2',
    bbox a = [x1; y1; x2; y2] /\ bbox b = [x1'; y1'; x2'; y2']
    /\ (y1 < y1' \/ (y1 = y1' /\ x1 <= x1')).

(** The element carries a non-empty [id]. *)
Definition has_id (e : UIElement) : Prop :=
  exists s, attr_id e = Some s /\ s <> "".

End Invariants.

(** * Properties *)

(** ** The fallback chain of the engine *)

Section FallbackChain.

Import VisionEngine.

Variables (screenshot : Screenshot) (timeout : Q).

Lemma attempted_app (a b : list event) :
  attempted (a ++ b) = attempted a ++ attempted b.
Proof.
  induction a as [|ev a IH]; simpl; [reflexivity|].
  destruct ev; simpl; rewrite IH; reflexivity.
Qed.











End FallbackChain.



Section AdaptersCalled.

Import VisionEngine.

Variable screenshot : Screenshot.
Variable timeout : Q.








End AdaptersCalled.



(** C1 (the code at an input where every adapter fails). With a primary,
    a backup and a consented cloud adapter that all raise,
    [infer_with_fallback] returns no element with the source [CACHE], the
    value the code labels as coming from the cache: it has no value of its
    own for a request without result. *)
Theorem C1_exhausted_is_tagged_cache :
  forall (screenshot : Screenshot) (timeout : Q) (consent : bool),
    fst (fst (VisionEngine.infer_with_fallback Scenarios.exhausted_engine
                screenshot timeout consent)) = ([], CACHE)
    /\ source_text CACHE = "from cache".
Proof.
  intros screenshot timeout consent.
  split; [|reflexivity].
  destruct consent; reflexivity.
Qed.

(** ** The result processor *)

Section Processor.

Import ResultProcessor.

Variable confidence_threshold : Q.

Lemma dict_get_set {V : Type} (k : string) (v : V) (d : list (string * V)) :
  dict_get k (dict_set k v d) = Some v.
Proof.
  induction d as [|[k' v'] d IH]; simpl.
  - rewrite String.eqb_refl. reflexivity.
  - destruct (String.eqb k k') eqn:E; simpl; rewrite E; [reflexivity | exact IH].
Qed.

Lemma dict_mem_get {V : Type} (k : string) (d : list (string * V)) :
  dict_mem k d = true -> exists v, dict_get k d = Some v.
Proof.
  induction d as [|[k' v'] d IH]; simpl; [discriminate|].
  destruct (String.eqb k k'); simpl; [exists v'; reflexivity | exact IH].
Qed.

(** Annotating leaves every declared field as it was. *)
Lemma annotate_element_fields (e e' : UIElement) :
  annotate_element confidence_threshold e = Ok e' -> fields e' = fields e.
Proof.
  unfold annotate_element.
  destruct (Qlt_bool (confidence e) confidence_threshold).
  - destruct (attr_attributes e) as [d|]; [|discriminate].
    destruct (dict_get "annotations" _); [|discriminate].
    intros H. injection H as <-. reflexivity.
  - intros H. injection H as <-. reflexivity.
Qed.

(** On an instance that carries [attributes], an element below the
    threshold gets the annotation. *)
Lemma annotate_element_marks (e : UIElement) (d : list (string * list string)) :
  Qlt_bool (confidence e) confidence_threshold = true ->
  attr_attributes e = Some d ->
  exists e', annotate_element confidence_threshold e = Ok e'
             /\ In "uncertain" (Scenarios.annotations e').
Proof.
  intros Hlt Hd. unfold annotate_element. rewrite Hlt, Hd.
  destruct (dict_mem "annotations" d) eqn:M.
  - destruct (dict_mem_get _ _ M) as [l Hl]. rewrite Hl.
    eexists. split; [reflexivity|].
    unfold Scenarios.annotations, set_attributes. simpl.
    rewrite dict_get_set. apply in_or_app. right. left. reflexivity.
  - rewrite dict_get_set. eexists. split; [reflexivity|].
    unfold Scenarios.annotations, set_attributes. simpl.
    rewrite dict_get_set. left. reflexivity.
Qed.

(** On an instance as the constructor builds it, an element below the
    threshold makes the annotation step raise. *)
Lemma annotate_element_without_attributes (e : UIElement) :
  Qlt_bool (confidence e) confidence_threshold = true ->
  attr_attributes e = None ->
  annotate_element confidence_threshold e = Raise (AttributeError "attributes").
Proof.
  intros Hlt Hd. unfold annotate_element. rewrite Hlt, Hd. reflexivity.
Qed.

(** When [process] returns, the status of the result is the one
    [_determine_status] gives to its elements. *)
Lemma process_status (elements : list UIElement) (screenshot : Screenshot)
    (model_name : string) (inference_time : Q) (source : InferenceSource)
    (fresh_uuid : string) (now : datetime) (r : RecognitionResult) :
  process confidence_threshold elements screenshot model_name inference_time
    source fresh_uuid now = Ok r ->
  status r = _determine_status confidence_threshold (Schemas.elements r).
Proof.
  unfold process.
  destruct (_annotate_uncertainty _ _) as [a|]; simpl; [|discriminate].
  destruct (_sort_by_position a) as [s0|]; simpl; [|discriminate].
  destruct (_assign_ids s0) as [i|]; simpl; [|discriminate].
  unfold RecognitionResult_init.
  destruct (Qlt_bool inference_time 0); [discriminate|].
  intros H. injection H as <-. reflexivity.
Qed.

Lemma insert_by_key_length {A : Type} (x : (Z * Z) * A) (l : list ((Z * Z) * A)) :
  List.length (insert_by_key x l) = S (List.length l).
Proof.
  induction l as [|y l IH]; simpl; [reflexivity|].
  destruct (key_le (fst y) (fst x)); simpl; [rewrite IH|]; reflexivity.
Qed.

Lemma insert_by_key_Forall {A : Type} (P : A -> Prop) (x : (Z * Z) * A)
    (l : list ((Z * Z) * A)) :
  P (snd x) -> Forall P (map snd l) -> Forall P (map snd (insert_by_key x l)).
Proof.
  intros Hx. induction l as [|y l IH]; simpl; intros Hl.
  - constructor; [assumption | constructor].
  - inversion Hl; subst.
    destruct (key_le (fst y) (fst x)); simpl; repeat constructor; auto.
Qed.

Lemma sorted_by_key_preserves {A : Type} (P : A -> Prop) (l : list ((Z * Z) * A)) :
  Forall P (map snd l) ->
  Forall P (map snd (sorted_by_key l))
  /\ List.length (sorted_by_key l) = List.length l.
Proof.
  unfold sorted_by_key.
  assert (G : forall acc,
             Forall P (map snd l) -> Forall P (map snd acc) ->
             Forall P (map snd (fold_left (fun acc x => insert_by_key x acc) l acc))
             /\ List.length (fold_left (fun acc x => insert_by_key x acc) l acc)
                = (List.length l + List.length acc)%nat).
  { induction l as [|x l IH]; simpl; intros acc Hl Hacc; [split; auto|].
    inversion Hl as [|? ? Hx Hl']; subst.
    destruct (IH (insert_by_key x acc)) as [G1 G2]; auto.
    - apply insert_by_key_Forall; assumption.
    - split; [assumption|]. rewrite G2, insert_by_key_length. lia. }
  intros Hl. destruct (G [] Hl (Forall_nil _)) as [H1 H2].
  split; [assumption | rewrite H2; simpl; lia].
Qed.

Lemma mapM_length {A B : Type} (f : A -> pyres B) (l : list A) (l' : list B) :
  mapM f l = Ok l' -> List.length l' = List.length l.
Proof.
  revert l'. induction l as [|a l IH]; simpl; intros l' H.
  - injection H as <-. reflexivity.
  - destruct (f a); simpl in H; [|discriminate].
    destruct (mapM f l); simpl in H; [|discriminate].
    injection H as <-. simpl. f_equal. apply IH. reflexivity.
Qed.

Lemma mapM_Forall {A B : Type} (f : A -> pyres B) (P : A -> Prop) (Q : B -> Prop)
    (l : list A) (l' : list B) :
  (forall a b, P a -> f a = Ok b -> Q b) ->
  Forall P l -> mapM f l = Ok l' -> Forall Q l'.
Proof.
  intros Hf. revert l'. induction l as [|a l IH]; simpl; intros l' Hl H.
  - injection H as <-. constructor.
  - inversion Hl; subst.
    destruct (f a) eqn:E; simpl in H; [|discriminate].
    destruct (mapM f l); simpl in H; [|discriminate].
    injection H as <-. constructor; eauto.
Qed.

(** On elements as the constructor builds them, [process] returns only
    when no element survives the filter: the first survivor stops it, in
    the annotation step or where [_assign_ids] reads its [id]. *)
Lemma process_raises_on_constructed (elements : list UIElement)
    (screenshot : Screenshot) (model_name : string) (inference_time : Q)
    (source : InferenceSource) (fresh_uuid : string) (now : datetime) :
  Forall (fun e => attr_id e = None) elements ->
  _filter_invalid elements <> [] ->
  is_ok (process confidence_threshold elements screenshot model_name
           inference_time source fresh_uuid now) = false.
Proof.
  intros Hid Hne. unfold process.
  assert (Hv : Forall (fun e => attr_id e = None) (_filter_invalid elements)).
  { unfold _filter_invalid. apply Forall_forall. intros e He.
    apply filter_In in He. destruct He as [He _].
    revert e He. apply Forall_forall. assumption. }
  destruct (_annotate_uncertainty _ _) as [a|] eqn:Ea; simpl; [|reflexivity].
  assert (Ha : Forall (fun e => attr_id e = None) a).
  { unfold _annotate_uncertainty in Ea.
    eapply mapM_Forall; [|exact Hv|exact Ea].
    intros e e' He. unfold annotate_element.
    destruct (Qlt_bool _ _).
    - destruct (attr_attributes e); [|discriminate].
      destruct (dict_get _ _); [|discriminate].
      intros H. injection H as <-. exact He.
    - intros H. injection H as <-. exact He. }
  assert (La : List.length a = List.length (_filter_invalid elements)).
  { eapply mapM_length. exact Ea. }
  unfold _sort_by_position.
  destruct (mapM sort_key a) as [keys|] eqn:Ek; simpl; [|reflexivity].
  assert (Lk : List.length keys = List.length a) by (eapply mapM_length; exact Ek).
  destruct (sorted_by_key_preserves (fun e => attr_id e = None) (combine keys a))
    as [Hs Ls].
  { clear - Ha Lk. revert keys Lk.
    induction Ha as [|e a He Ha IH]; intros [|k keys] Lk; simpl in *;
      try constructor; try discriminate; auto. }
  rewrite length_combine, Lk, Nat.min_id in Ls.
  destruct (map snd (sorted_by_key (combine keys a))) as [|e rest] eqn:Es.
  - apply (f_equal (@List.length _)) in Es. rewrite length_map, Ls, La in Es.
    destruct (_filter_invalid elements); [contradiction | discriminate].
  - inversion Hs as [|? ? He _]; subst. unfold _assign_ids. simpl.
    rewrite He. reflexivity.
Qed.

Lemma mapM_total {A B : Type} (f : A -> pyres B) (P : A -> Prop) (Q : B -> Prop)
    (l : list A) :
  (forall a, P a -> exists b, f a = Ok b /\ Q b) ->
  Forall P l ->
  exists l', mapM f l = Ok l' /\ Forall Q l' /\ List.length l' = List.length l.
Proof.
  intros Hf. induction l as [|a l IH]; intros Hl; simpl.
  - exists []. repeat split. constructor.
  - inversion Hl as [|? ? Ha Hl']; subst.
    destruct (Hf a Ha) as (b & -> & Hb).
    destruct (IH Hl') as (l' & -> & Hq & Hlen). simpl.
    exists (b :: l'). repeat split; [constructor; assumption | simpl; lia].
Qed.

Lemma assign_ids_total (l : list UIElement) : forall i,
  Forall (fun e => attr_id e <> None) l ->
  exists l', assign_ids_from i l = Ok l' /\ List.length l' = List.length l.
Proof.
  induction l as [|e l IH]; intros i H; simpl.
  - exists []. split; reflexivity.
  - inversion H as [|? ? He Hl]; subst.
    destruct (attr_id e) as [s0|]; [|contradiction].
    destruct (IH (S i) Hl) as (l' & -> & Hlen). simpl.
    eexists. split; [reflexivity | simpl; lia].
Qed.

(** On instances that carry [id] and [attributes], [process] returns a
    result for every list of raw elements: it keeps the elements that
    survive the filter, and its status is their classification. *)
Lemma process_returns_with_attributes (elements : list UIElement)
    (screenshot : Screenshot) (model_name : string) (inference_time : Q)
    (source : InferenceSource) (fresh_uuid : string) (now : datetime) :
  Forall (fun e => attr_id e <> None /\ attr_attributes e <> None) elements ->
  Qle_bool 0 inference_time = true ->
  exists r,
    process confidence_threshold elements screenshot model_name inference_time
      source fresh_uuid now = Ok r
    /\ status r = _determine_status confidence_threshold (Schemas.elements r)
    /\ List.length (Schemas.elements r) = List.length (_filter_invalid elements).
Proof.
  intros Hattr Htime.
  assert (Hv : Forall (fun e => keep_element e = true
                               /\ attr_id e <> None /\ attr_attributes e <> None)
                 (_filter_invalid elements)).
  { unfold _filter_invalid. apply Forall_forall. intros e He.
    apply filter_In in He. destruct He as [He Hk].
    split; [exact Hk|]. clear Hk. revert e He. apply Forall_forall. exact Hattr. }
  destruct (mapM_total (annotate_element confidence_threshold)
              (fun e => keep_element e = true
                        /\ attr_id e <> None /\ attr_attributes e <> None)
              (fun e => (exists k, sort_key e = Ok k) /\ attr_id e <> None)
              (_filter_invalid elements)) as (a & Ea & Ha & La); [|exact Hv|].
  { intros e (Hk & Hid & Hat). unfold annotate_element.
    assert (Hkey : exists k, sort_key e = Ok k).
    { unfold sort_key. unfold keep_element in Hk.
      destruct (bbox e) as [|x1 [|y1 [|x2 [|y2 [|]]]]]; try discriminate.
      eexists. reflexivity. }
    destruct (Qlt_bool _ _); [|exists e; repeat split; assumption].
    destruct (attr_attributes e) as [d|]; [|contradiction].
    assert (Hget : exists l, dict_get "annotations"
                               (if dict_mem "annotations" d then d
                                else dict_set "annotations" [] d) = Some l).
    { destruct (dict_mem "annotations" d) eqn:M.
      - apply dict_mem_get. exact M.
      - exists []. apply dict_get_set. }
    destruct Hget as [l ->]. eexists. split; [reflexivity|].
    split; assumption. }
  destruct (mapM_total sort_key (fun e => exists k, sort_key e = Ok k)
              (fun _ => True) a) as (keys & Ek & _ & Lk).
  { intros e [k Hk]. exists k. split; [exact Hk | exact I]. }
  { eapply Forall_impl; [|exact Ha]. intros e [H _]. exact H. }
  destruct (sorted_by_key_preserves (fun e => attr_id e <> None) (combine keys a))
    as [Hs Ls].
  { assert (Hid : Forall (fun e => attr_id e <> None) a)
      by (eapply Forall_impl; [|exact Ha]; intros e [_ H]; exact H).
    clear - Hid Lk. revert keys Lk.
    induction Hid as [|e a He Ha IH]; intros [|k keys] Lk; simpl in *;
      try constructor; try discriminate; auto. }
  destruct (assign_ids_total _ 0%nat Hs) as (ids & Ei & Li).
  unfold process. unfold _annotate_uncertainty. rewrite Ea. simpl.
  unfold _sort_by_position. rewrite Ek. simpl.
  unfold _assign_ids. rewrite Ei. simpl.
  unfold RecognitionResult_init, Qlt_bool. rewrite Htime. simpl.
  eexists. split; [reflexivity|]. split; [reflexivity|]. simpl.
  rewrite Li, length_map, Ls, length_combine, Lk, Nat.min_id, La. reflexivity.
Qed.

(** The two elements of the status examples on such instances: the one of
    confidence 0.5 is annotated and gives PARTIAL_SUCCESS, the one of
    confidence 0.9 gives SUCCESS. *)
Lemma process_on_instances_with_attributes (screenshot : Screenshot)
    (model_name : string) (source : InferenceSource) (fresh_uuid : string)
    (now : datetime) :
  option_map (fun r => (status r, map Scenarios.annotations (Schemas.elements r),
                        map attr_id (Schemas.elements r)))
    (match process (7 # 10) [Scenarios.ok_button_with_attributes (1 # 2)]
             screenshot model_name (3 # 2) source fresh_uuid now with
     | Ok r => Some r
     | Raise _ => None
     end)
  = Some (PARTIAL_SUCCESS, [["uncertain"]], [Some "element_001"])
  /\ option_map status
       (match process (7 # 10) [Scenarios.ok_button_with_attributes (9 # 10)]
                screenshot model_name (3 # 2) source fresh_uuid now with
        | Ok r => Some r
        | Raise _ => None
        end)
     = Some SUCCESS.
Proof. split; reflexivity. Qed.

End Processor.

(** C4 (the code at an element below the threshold). The element the
    constructor builds for a button of confidence 0.5 survives the filter,
    and with the threshold 0.7 [process] raises [AttributeError] in the
    annotation step instead of returning a result: the dataclass declares
    no [attributes]. *)
Theorem C4_uncertain_element_raises :
  forall (screenshot : Screenshot) (model_name : string) (inference_time : Q)
         (source : InferenceSource) (fresh_uuid : string) (now : datetime),
    UIElement_init "button" "OK" [100; 100; 180; 130] (1 # 2) None None true 0
      = Ok (Scenarios.ok_button (1 # 2))
    /\ ResultProcessor._filter_invalid [Scenarios.ok_button (1 # 2)]
       = [Scenarios.ok_button (1 # 2)]
    /\ ResultProcessor.process (7 # 10) [Scenarios.ok_button (1 # 2)] screenshot
         model_name inference_time source fresh_uuid now
       = Raise (AttributeError "attributes").
Proof.
  intros. repeat split.
Qed.

(** C5 (the code at the inputs of the claim). With the threshold 0.7,
    [_determine_status] gives SUCCESS to an actionable element of
    confidence 0.9, PARTIAL_SUCCESS to one of confidence 0.5 and FAILURE
    to no element; [process] returns the FAILURE result for the empty
    list, but on either element as the constructor builds it [process]
    raises [AttributeError] before it reaches the classification. *)
Theorem C5_process_raises_before_classification :
  forall (screenshot : Screenshot) (model_name : string)
         (source : InferenceSource) (fresh_uuid : string) (now : datetime),
    ResultProcessor._determine_status (7 # 10) [Scenarios.ok_button (9 # 10)]
      = SUCCESS
    /\ ResultProcessor._determine_status (7 # 10) [Scenarios.ok_button (1 # 2)]
       = PARTIAL_SUCCESS
    /\ ResultProcessor._determine_status (7 # 10) [] = FAILURE
    /\ UIElement_init "button" "OK" [100; 100; 180; 130] (9 # 10) None None true 0
       = Ok (Scenarios.ok_button (9 # 10))
    /\ ResultProcessor.process (7 # 10) [Scenarios.ok_button (9 # 10)] screenshot
         model_name (3 # 2) source fresh_uuid now
       = Raise (AttributeError "id")
    /\ ResultProcessor.process (7 # 10) [Scenarios.ok_button (1 # 2)] screenshot
         model_name (3 # 2) source fresh_uuid now
       = Raise (AttributeError "attributes")
    /\ option_map status
         (match ResultProcessor.process (7 # 10) [] screenshot model_name
                  (3 # 2) source fresh_uuid now with
          | Ok r => Some r
          | Raise _ => None
          end) = Some FAILURE.
Proof.
  intros. repeat split.
Qed.

(** ** The cache database and its manager *)

Section Cache.

Import CacheDatabase.


(** Deleting results, evicting and inserting elements leave [screenshots]
    alone. *)
Lemma delete_results_screenshots (db : t) (rids : list Z) :
  screenshots (delete_results db rids) = screenshots db.
Proof. reflexivity. Qed.

Lemma _evict_lru_screenshots (db : t) (keep_count : Z) :
  screenshots (_evict_lru db keep_count) = screenshots db.
Proof.
  unfold _evict_lru. destruct (_ <=? keep_count); reflexivity.
Qed.

Lemma insert_element_screenshots (db : t) (rid utc : Z)
    (element : list (string * json)) :
  screenshots (fst (insert_element db rid utc element)) = screenshots db.
Proof.
  unfold insert_element, guard.
  repeat match goal with
         | |- context [match ?m with Ok _ => _ | Raise _ => _ end] =>
             destruct m; simpl; try reflexivity
         end.
  match goal with
  | |- context [match ?l with [] => _ | _ :: _ => _ end] =>
      destruct l as [|b0 [|b1 [|b2 [|b3 rest]]]]; try reflexivity
  end.
  destruct (in_unit_interval _); reflexivity.
Qed.

Lemma insert_elements_screenshots (elements : list (list (string * json))) :
  forall (db : t) (rid utc : Z),
    screenshots (fst (insert_elements db rid utc elements)) = screenshots db.
Proof.
  induction elements as [|e elements IH]; intros db rid utc; simpl;
    [reflexivity|].
  pose proof (insert_element_screenshots db rid utc e) as He.
  destruct (insert_element db rid utc e) as [db' [u|ex]]; simpl in *.
  - rewrite IH. exact He.
  - exact He.
Qed.







Lemma put_db (cm : CacheManager.t) (s : Screenshot) (r : RecognitionResult)
    (now : datetime) (utc : Z) :
  CacheManager.db (CacheManager.put cm s r now utc)
  = fst (insert_cache (CacheManager.db cm) (hash s) (width s) (height s)
           (RecognitionResult_to_dict r) (model_name r)
           (CacheManager.ttl_seconds cm / 60) (CacheManager.max_size cm) now utc)
  /\ CacheManager.ttl_seconds (CacheManager.put cm s r now utc)
     = CacheManager.ttl_seconds cm
  /\ CacheManager.max_size (CacheManager.put cm s r now utc)
     = CacheManager.max_size cm.
Proof.
  unfold CacheManager.put. destruct (insert_cache _ _ _ _ _ _ _ _ _ _).
  repeat split.
Qed.





End Cache.

(** ** The navigation cursor *)

Section Cursor.

Import RecognitionController.

Lemma getitem_in_range {A : Type} (l : list A) (i : Z) :
  0 <= i < Z.of_nat (List.length l) ->
  exists a, getitem l i = Ok a /\ nth_error l (Z.to_nat i) = Some a.
Proof.
  intros Hi. unfold getitem.
  destruct (i <? 0) eqn:E1; [apply Z.ltb_lt in E1; lia|]. rewrite E1. simpl.
  destruct (Z.of_nat (List.length l) <=? i) eqn:E2; [apply Z.leb_le in E2; lia|].
  destruct (nth_error l (Z.to_nat i)) as [a|] eqn:E3.
  - exists a. split; reflexivity.
  - apply nth_error_None in E3. lia.
Qed.

Variable r : RecognitionResult.

Hypothesis has_elements : elements r <> [].

Local Abbreviation n := (Z.of_nat (List.length (elements r))).

Lemma match_nonempty {B : Type} (a b : B) :
  match elements r with [] => a | _ :: _ => b end = b.
Proof. destruct (elements r); [contradiction | reflexivity]. Qed.

Lemma n_positive : 1 <= n.
Proof.
  destruct (elements r); [contradiction | simpl; lia].
Qed.

Lemma next_inside (self : t) (i : Z) :
  _current_result self = Some r -> 0 <= i < n - 1 ->
  exists e, nth_error (elements r) (Z.to_nat (i + 1)) = Some e
            /\ get_next_element (with_index self i)
               = (with_index self (i + 1), Ok (Some e)).
Proof.
  intros Hr Hi. unfold get_next_element. simpl. rewrite Hr, match_nonempty.
  destruct (i + 1 >=? n) eqn:E; [apply Z.geb_le in E; lia|].
  destruct (getitem_in_range (elements r) (i + 1)) as (e & He & Hn); [lia|].
  exists e. split; [exact Hn|]. rewrite He. reflexivity.
Qed.

Lemma next_at_end (self : t) :
  _current_result self = Some r ->
  get_next_element (with_index self (n - 1)) = (with_index self (n - 1), Ok None).
Proof.
  intros Hr. unfold get_next_element. simpl. rewrite Hr, match_nonempty.
  destruct (n - 1 + 1 >=? n) eqn:E; [reflexivity|].
  rewrite Z.geb_leb in E. apply Z.leb_gt in E. lia.
Qed.

Lemma previous_at_start (self : t) :
  _current_result self = Some r ->
  get_previous_element (with_index self 0) = (with_index self 0, Ok None).
Proof.
  intros Hr. unfold get_previous_element. simpl. rewrite Hr, match_nonempty.
  reflexivity.
Qed.

Lemma previous_inside (self : t) (i : Z) :
  _current_result self = Some r -> 1 <= i <= n - 1 ->
  exists e, nth_error (elements r) (Z.to_nat (i - 1)) = Some e
            /\ get_previous_element (with_index self i)
               = (with_index self (i - 1), Ok (Some e)).
Proof.
  intros Hr Hi. unfold get_previous_element. simpl. rewrite Hr, match_nonempty.
  destruct (i - 1 <? 0) eqn:E; [apply Z.ltb_lt in E; lia|].
  destruct (getitem_in_range (elements r) (i - 1)) as (e & He & Hn); [lia|].
  exists e. split; [exact Hn|]. rewrite He. reflexivity.
Qed.

Lemma with_index_same (self : t) :
  with_index self (_current_element_index self) = self.
Proof. destruct self; reflexivity. Qed.

(** Every cursor operation returns normally and leaves the cursor on an
    element. *)
Lemma cursor_step_on_element (self : t) (op : cursor_op) :
  on_element r self ->
  on_element r (fst (cursor_step self op))
  /\ is_ok (snd (cursor_step self op)) = true.
Proof.
  intros [Hr Hi]. pose proof n_positive as Hn.
  rewrite <- (with_index_same self).
  remember (_current_element_index self) as i eqn:Ei. clear Ei.
  unfold on_element.
  destruct op; simpl.
  - destruct (Z.eq_dec i (n - 1)) as [->|Hne].
    + rewrite (next_at_end self Hr). simpl. split; [split; [exact Hr|lia]|reflexivity].
    + destruct (next_inside self i Hr) as (e & _ & ->); [lia|]. simpl.
      split; [split; [exact Hr|lia]|reflexivity].
  - destruct (Z.eq_dec i 0) as [->|Hne].
    + rewrite (previous_at_start self Hr). simpl.
      split; [split; [exact Hr|lia]|reflexivity].
    + destruct (previous_inside self i Hr) as (e & _ & ->); [lia|]. simpl.
      split; [split; [exact Hr|lia]|reflexivity].
  - unfold get_current_element. simpl. rewrite Hr, match_nonempty.
    destruct (i <? 0) eqn:E1; [apply Z.ltb_lt in E1; lia|].
    destruct (i >=? n) eqn:E2; [apply Z.geb_le in E2; lia|]. simpl.
    destruct (getitem_in_range (elements r) i) as (e & -> & _); [lia|].
    simpl. split; [split; [exact Hr|simpl; lia]|reflexivity].
Qed.

Lemma cursor_run_on_element (ops : list cursor_op) : forall self,
  on_element r self ->
  on_element r (fst (cursor_run self ops))
  /\ Forall (fun out => is_ok (fst out) = true /\ 0 <= snd out <= n - 1)
       (snd (cursor_run self ops)).
Proof.
  induction ops as [|op ops IH]; intros self H; simpl.
  - split; [exact H | constructor].
  - destruct (cursor_step_on_element self op H) as [H1 H2].
    destruct (cursor_step self op) as [self1 out]. simpl in *.
    destruct (IH self1 H1) as [H3 H4].
    destruct (cursor_run self1 ops) as [self2 outs]. simpl in *.
    split; [exact H3|]. constructor; [|exact H4].
    simpl. split; [exact H2 | apply H1].
Qed.

End Cursor.

(** C9. For a last result with at least one element and a cursor on one
    of them (the controller puts it on the first when it stores a result):
    after any run of [next], [previous] and [current] calls the index is
    still within [0, n-1] and no call raised; [next] on the last element
    and [previous] on the first return [None] and leave the index where it
    is; inside, [next] moves by one and returns the element there.  For a
    result of 5 elements and the cursor on the first, 10 calls of [next]
    return the elements 1 to 4 and then [None] six times, the index
    going 1, 2, 3, 4 and staying at 4. *)
Theorem C9_cursor_stays_in_bounds :
  forall (self : RecognitionController.t) (r : RecognitionResult)
         (ops : list RecognitionController.cursor_op),
    RecognitionController._current_result self = Some r ->
    elements r <> [] ->
    0 <= RecognitionController._current_element_index self
      <= Z.of_nat (List.length (elements r)) - 1 ->
    let n := Z.of_nat (List.length (elements r)) in
    let run := RecognitionController.cursor_run self ops in
    0 <= RecognitionController._current_element_index (fst run) <= n - 1
    /\ Forall (fun out => is_ok (fst out) = true /\ 0 <= snd out <= n - 1) (snd run)
    /\ RecognitionController.get_next_element
         (RecognitionController.with_index self (n - 1))
       = (RecognitionController.with_index self (n - 1), Ok None)
    /\ RecognitionController.get_previous_element
         (RecognitionController.with_index self 0)
       = (RecognitionController.with_index self 0, Ok None)
    /\ (forall i, 0 <= i < n - 1 ->
          exists e, nth_error (elements r) (Z.to_nat (i + 1)) = Some e
                    /\ RecognitionController.get_next_element
                         (RecognitionController.with_index self i)
                       = (RecognitionController.with_index self (i + 1),
                          Ok (Some e)))
    /\ (forall e0 e1 e2 e3 e4,
          elements r = [e0; e1; e2; e3; e4] ->
          snd (RecognitionController.cursor_run
                 (RecognitionController.with_index self 0)
                 (repeat RecognitionController.Next 10))
          = [(Ok (Some e1), 1); (Ok (Some e2), 2); (Ok (Some e3), 3);
             (Ok (Some e4), 4); (Ok None, 4); (Ok None, 4); (Ok None, 4);
             (Ok None, 4); (Ok None, 4); (Ok None, 4)]).
Proof.
  intros self r ops Hr Hne Hi n run.
  destruct (cursor_run_on_element r Hne ops self (conj Hr Hi)) as [[_ H1] H2].
  split; [exact H1|]. split; [exact H2|].
  split; [apply (next_at_end r Hne self Hr)|].
  split; [apply (previous_at_start r Hne self Hr)|].
  split; [intros i Hin; apply (next_inside r Hne self i Hr Hin)|].
  intros e0 e1 e2 e3 e4 El. clear - El Hr.
  destruct self as [cm eng thr tmo cancel cur idx]. simpl in Hr. subst cur.
  destruct r as [rid sh els mn it st src cr ex mv]. simpl in El. subst els.
  reflexivity.
Qed.

Lemma C9_witness :
  RecognitionController._current_result Scenarios.navigating_controller
    = Some Scenarios.navigation_result
  /\ 0 <= RecognitionController._current_element_index
            (fst (RecognitionController.cursor_run
                    Scenarios.navigating_controller
                    (repeat RecognitionController.Next 7
                       ++ repeat RecognitionController.Previous 9)))
       <= 5 - 1.
Proof.
  split; [reflexivity|].
  apply (C9_cursor_stays_in_bounds Scenarios.navigating_controller
           Scenarios.navigation_result
           (repeat RecognitionController.Next 7
              ++ repeat RecognitionController.Previous 9)).
  - reflexivity.
  - discriminate.
  - simpl. lia.
Defined.

(** ** The size bound, the expiry and the cascade of the store *)

Section Store.

Import CacheDatabase.

(** At the limit [_evict_lru] deletes nothing: the count is not above
    [keep_count]. *)
Lemma _evict_lru_at_limit (db : t) (keep_count : Z) :
  Z.of_nat (List.length (recognition_results db)) <= keep_count ->
  _evict_lru db keep_count = db.
Proof.
  intros H. unfold _evict_lru.
  destruct (_ <=? keep_count) eqn:E; [reflexivity|].
  apply Z.leb_gt in E. lia.
Qed.

Lemma insert_element_results (db : t) (rid utc : Z)
    (element : list (string * json)) :
  recognition_results (fst (insert_element db rid utc element))
  = recognition_results db.
Proof.
  unfold insert_element, guard.
  repeat match goal with
         | |- context [match ?m with Ok _ => _ | Raise _ => _ end] =>
             destruct m; simpl; try reflexivity
         end.
  match goal with
  | |- context [match ?l with [] => _ | _ :: _ => _ end] =>
      destruct l as [|b0 [|b1 [|b2 [|b3 rest]]]]; try reflexivity
  end.
  destruct (in_unit_interval _); reflexivity.
Qed.

Lemma insert_elements_results (elements : list (list (string * json))) :
  forall (db : t) (rid utc : Z),
    recognition_results (fst (insert_elements db rid utc elements))
    = recognition_results db.
Proof.
  induction elements as [|e elements IH]; intros db rid utc; simpl;
    [reflexivity|].
  pose proof (insert_element_results db rid utc e) as He.
  destruct (insert_element db rid utc e) as [db' [u|ex]]; simpl in *.
  - rewrite IH. exact He.
  - exact He.
Qed.

(** An insert into a store that holds exactly [max_results] results, when
    it goes through, leaves one result more than the maximum. *)
Lemma insert_cache_at_limit (db : t) (h : string) (w hg : Z)
    (rr : list (string * json)) (mn : string) (ttl_minutes max_results : Z)
    (now : datetime) (utc : Z) :
  Z.of_nat (List.length (recognition_results db)) = max_results ->
  snd (insert_cache db h w hg rr mn ttl_minutes max_results now utc) = Ok tt ->
  Z.of_nat (List.length (recognition_results
                           (fst (insert_cache db h w hg rr mn ttl_minutes
                                   max_results now utc))))
  = max_results + 1.
Proof.
  intros Hc. unfold insert_cache.
  rewrite Hc, Z.geb_leb, Z.leb_refl.
  rewrite _evict_lru_at_limit by lia.
  unfold guard at 1.
  destruct (as_str _) as [window|]; simpl; [|discriminate].
  set (db2 := insert_or_ignore_screenshot db h w hg window now _ utc).
  assert (H2 : recognition_results db2 = recognition_results db).
  { unfold db2, insert_or_ignore_screenshot. destruct (_ || _); reflexivity. }
  unfold guard.
  repeat match goal with
         | |- context [match ?m with Ok _ => _ | Raise _ => _ end] =>
             destruct m; simpl; try discriminate
         end.
  destruct (_ || _); simpl; [discriminate|].
  intros _. rewrite insert_elements_results. simpl.
  rewrite length_app, H2. simpl. lia.
Qed.

(** With the pragma on, deleting screenshots leaves no result that refers
    to them and no element that refers to a deleted result. *)
Lemma cascade_when_enforced (db : t) (sids : list Z) :
  foreign_keys db = true ->
  let db' := delete_screenshots db sids in
  let rids := map r_id (filter (fun r => mem (screenshot_id r) sids)
                          (recognition_results db)) in
  Forall (fun r => mem (screenshot_id r) sids = false) (recognition_results db')
  /\ Forall (fun e => mem (result_id e) rids = false) (ui_elements db').
Proof.
  intros Hfk. unfold delete_screenshots. rewrite Hfk. simpl.
  unfold delete_results. simpl. rewrite ?Hfk. split.
  - apply Forall_forall. intros r0 Hr. apply filter_In in Hr.
    destruct Hr as [Hr Hm].
    destruct (mem (screenshot_id r0) sids) eqn:E; [|reflexivity].
    exfalso. apply negb_true_iff in Hm.
    assert (Hin : In (r_id r0) (map r_id (filter (fun r => mem (screenshot_id r) sids)
                                           (recognition_results db)))).
    { apply in_map. apply filter_In. split; assumption. }
    assert (Hex : mem (r_id r0)
                    (map r_id (filter (fun r => mem (screenshot_id r) sids)
                                 (recognition_results db))) = true).
    { unfold mem at 1. apply existsb_exists. exists (r_id r0).
      split; [exact Hin | apply Z.eqb_refl]. }
    rewrite Hex in Hm. discriminate.
  - unfold delete_elements_of. apply Forall_forall. intros e He.
    apply in_map_iff in He. destruct He as (e0 & <- & He0).
    apply filter_In in He0. destruct He0 as [_ Hm].
    apply negb_true_iff in Hm.
    destruct (parent_element_id e0) as [p|]; [|exact Hm].
    destruct (mem p _); exact Hm.
Qed.

(** The pragma of a connection the module opens is off, and with the
    pragma off a cleanup deletes from [screenshots] only. *)
Lemma init_pragma_off (file : t) (now : datetime) :
  foreign_keys (init file now) = false.
Proof.
  unfold init, _cleanup_expired, delete_screenshots, connect. reflexivity.
Qed.

Lemma cleanup_without_pragma (db : t) (now : datetime) :
  foreign_keys db = false ->
  recognition_results (fst (_cleanup_expired db now)) = recognition_results db
  /\ ui_elements (fst (_cleanup_expired db now)) = ui_elements db.
Proof.
  intros H. unfold _cleanup_expired, delete_screenshots. simpl.
  rewrite H. split; reflexivity.
Qed.

End Store.

(** C2 (the code at N = 2). Three distinct fingerprints put one after the
    other into a store with [max_size] 2 leave three results, not two:
    the third [insert_cache] finds the count at the limit and calls
    [_evict_lru], which deletes only what is above the limit, so nothing
    is evicted. *)
Theorem C2_store_exceeds_max_entries :
  let cm := fst (Scenarios.run_ops (Scenarios.fresh_manager 300 2)
                   Scenarios.three_puts) in
  CacheManager.max_size cm = 2
  /\ map CacheDatabase.r_id (CacheDatabase.recognition_results (CacheManager.db cm))
     = [1; 2; 3]
  /\ map CacheDatabase.screenshot_id
       (CacheDatabase.recognition_results (CacheManager.db cm))
     = map CacheDatabase.s_id (CacheDatabase.screenshots (CacheManager.db cm))
  /\ List.length (CacheDatabase.screenshots (CacheManager.db cm)) = 3%nat.
Proof.
  vm_compute. repeat split.
Qed.

(** C6 (the code at a fingerprint that is recognized again). With the
    default TTL, a window is put and found; after its entry has expired
    it is put again, and the lookup right after this second [put] is a
    miss: INSERT OR IGNORE keeps the old [screenshots] row with its old
    [expires_at], and the new result is joined to it. *)
Theorem C6_lookup_after_second_put_misses :
  let run := Scenarios.run_ops (Scenarios.fresh_manager 300 1000)
               Scenarios.recognize_again in
  map snd (snd run)
    = [Some (Scenarios.result_for (hash Scenarios.active_window)
               (Scenarios.seconds 1));
       None; None]
  /\ map CacheDatabase.s_expires_at
       (CacheDatabase.screenshots (CacheManager.db (fst run)))
     = [CacheDatabase.IsoLocal (Scenarios.seconds 301)]
  /\ map CacheDatabase.screenshot_id
       (CacheDatabase.recognition_results (CacheManager.db (fst run)))
     = [1; 1].
Proof.
  vm_compute. repeat split.
Qed.

(** C8 (the code at an expired entry). The connection of the cache never
    turns the [foreign_keys] pragma on, so when [_cleanup_expired] deletes
    the expired [screenshots] row, its result and the element of that
    result stay in the store; the same holds for the cleanup a new
    [CacheDatabase] runs on the file at startup. *)
Theorem C8_cleanup_leaves_dependent_rows :
  let db := CacheManager.db Scenarios.one_entry in
  let cleaned := CacheDatabase._cleanup_expired db (Scenarios.seconds 400) in
  CacheDatabase.foreign_keys db = false
  /\ map CacheDatabase.s_id (CacheDatabase.screenshots db) = [1]
  /\ snd cleaned = 1
  /\ CacheDatabase.screenshots (fst cleaned) = []
  /\ map CacheDatabase.screenshot_id (CacheDatabase.recognition_results (fst cleaned))
     = [1]
  /\ map CacheDatabase.result_id (CacheDatabase.ui_elements (fst cleaned))
     = map CacheDatabase.r_id (CacheDatabase.recognition_results (fst cleaned))
  /\ List.length (CacheDatabase.ui_elements (fst cleaned)) = 1%nat
  /\ CacheDatabase.init db (Scenarios.seconds 400) = fst cleaned.
Proof.
  vm_compute. repeat split.
Qed.

(** ** The worker of the controller *)

Section Worker.

Import RecognitionController.



End Worker.




(** ** The round trip of a result through the store *)

Section RoundTrip.

Import CacheDatabase.

Lemma mapM_as_int (l : list Z) : mapM as_int (map JInt l) = Ok l.
Proof.
  induction l as [|z l IH]; simpl; [reflexivity | rewrite IH; reflexivity].
Qed.

Lemma keep_element_inv (e : UIElement) :
  ResultProcessor.keep_element e = true ->
  exists a b c d,
    bbox e = [a; b; c; d] /\ (c <=? a) = false /\ (d <=? b) = false
    /\ Qle_bool 0 (confidence e) = true /\ Qle_bool (confidence e) 1 = true.
Proof.
  unfold ResultProcessor.keep_element, Qlt_bool.
  destruct (bbox e) as [|a [|b [|c [|d [|]]]]]; try discriminate.
  rewrite !Z.geb_leb.
  destruct (c <=? a) eqn:E1; [discriminate|].
  destruct (d <=? b) eqn:E2; [discriminate|].
  destruct (Qle_bool 0 (confidence e)); [|discriminate].
  destruct (Qle_bool (confidence e) 1); [|discriminate].
  intros _. exists a, b, c, d. repeat split; assumption.
Qed.

(** [from_dict] of [to_dict] gives back the declared fields of a valid
    element. *)
Lemma UIElement_round_trip (now : datetime) (e : UIElement) :
  ResultProcessor.keep_element e = true ->
  UIElement_from_dict now (UIElement_to_dict e) = Ok (fields e).
Proof.
  intros H. destruct (keep_element_inv e H) as (a & b & c & d & Hb & H1 & H2 & H3 & H4).
  destruct e as [ty tx bb cf an pi ac cr aid aat]. simpl in *. subst bb.
  unfold UIElement_from_dict, UIElement_to_dict, require, get_default. simpl.
  destruct an, pi; simpl; unfold UIElement_init; rewrite H3, H4; simpl;
    rewrite H1, H2; reflexivity.
Qed.

Lemma elements_round_trip (now : datetime) (l : list UIElement) :
  forallb ResultProcessor.keep_element l = true ->
  mapM (fun v => d <- as_dict v ;; UIElement_from_dict now d)
    (map (fun e => JDict (UIElement_to_dict e)) l)
  = Ok (map fields l).
Proof.
  induction l as [|e l IH]; simpl; intros H; [reflexivity|].
  apply andb_prop in H. destruct H as [He Hl].
  rewrite (UIElement_round_trip now e He). simpl.
  rewrite (IH Hl). reflexivity.
Qed.

Lemma status_name_round_trip (s : RecognitionStatus) :
  status_of_name (status_name s) = s.
Proof. destruct s; reflexivity. Qed.

Lemma source_name_round_trip (s : InferenceSource) :
  source_of_name (source_name s) = s.
Proof. destruct s; reflexivity. Qed.

(** [from_dict] of the dict [lookup_cache] returns for a stored result. *)
Lemma RecognitionResult_round_trip (now : datetime) (fresh_uuid : string)
    (r : RecognitionResult) (hits : Z) :
  forallb ResultProcessor.keep_element (elements r) = true ->
  Qle_bool 0 (inference_time r) = true ->
  RecognitionResult_from_dict now fresh_uuid
    (dict_set "_hit_count" (JInt hits)
       (dict_set "_cache_hit" (JBool true) (RecognitionResult_to_dict r)))
  = Ok (Scenarios.reloaded fresh_uuid r).
Proof.
  intros Hel Hit.
  destruct r as [rid sh els mn it st src cr ex mv]. simpl in *.
  unfold RecognitionResult_from_dict, RecognitionResult_to_dict, require,
    get_default. simpl.
  rewrite (elements_round_trip now els Hel). simpl.
  destruct ex as [t|]; simpl;
    destruct mv; simpl;
    unfold RecognitionResult_init, Qlt_bool; rewrite Hit; simpl;
    rewrite status_name_round_trip, source_name_round_trip; reflexivity.
Qed.

Lemma sum_bounds (qs : list Q) : forall acc : Q,
  Forall (fun q => 0 <= q <= 1)%Q qs ->
  (acc <= fold_left Qplus qs acc
   /\ fold_left Qplus qs acc <= acc + inject_Z (Z.of_nat (List.length qs)))%Q.
Proof.
  induction qs as [|q qs IH]; intros acc H; simpl fold_left.
  - change (inject_Z (Z.of_nat (List.length (@nil Q)))) with 0%Q. split; lra.
  - inversion H as [|? ? Hq Hqs]; subst.
    destruct (IH (acc + q)%Q Hqs) as [H1 H2].
    assert (E : (inject_Z (Z.of_nat (List.length (q :: qs)))
                 == inject_Z (Z.of_nat (List.length qs)) + 1)%Q).
    { simpl List.length. rewrite Nat2Z.inj_succ. unfold Z.succ.
      rewrite inject_Z_plus. reflexivity. }
    rewrite E. split; lra.
Qed.

(** The mean of confidences within [0, 1] passes the CHECK constraint on
    [confidence_score]. *)
Lemma mean_in_unit_interval (qs : list Q) :
  Forall (fun q => 0 <= q <= 1)%Q qs ->
  in_unit_interval
    (if 0 <? Z.of_nat (List.length qs)
     then (fold_left Qplus qs 0 / inject_Z (Z.of_nat (List.length qs)))%Q
     else 0%Q) = true.
Proof.
  intros H. unfold in_unit_interval.
  destruct (0 <? Z.of_nat (List.length qs)) eqn:E; [|reflexivity].
  apply Z.ltb_lt in E.
  assert (Hn : (0 < inject_Z (Z.of_nat (List.length qs)))%Q).
  { change 0%Q with (inject_Z 0). rewrite <- Zlt_Qlt. exact E. }
  destruct (sum_bounds qs 0%Q H) as [H1 H2].
  apply andb_true_intro. split; apply Qle_bool_iff.
  - apply Qle_shift_div_l; [exact Hn | lra].
  - apply Qle_shift_div_r; [exact Hn | lra].
Qed.

Lemma int_of_float_nonneg (q : Q) :
  Qle_bool 0 q = true -> (0 <=? int_of_float (q * 1000)) = true.
Proof.
  intros H. apply Z.leb_le. unfold int_of_float.
  apply Z.quot_pos; [|apply Pos2Z.is_pos].
  unfold Qle_bool in H. apply Z.leb_le in H. simpl in *. lia.
Qed.

Lemma decode_element_dicts (els : list UIElement) :
  mapM as_dict (map (fun e => JDict (UIElement_to_dict e)) els)
  = Ok (map UIElement_to_dict els).
Proof.
  induction els as [|e els IH]; simpl; [reflexivity | rewrite IH; reflexivity].
Qed.

Lemma decode_confidences (els : list UIElement) :
  mapM (fun e => v <- require "confidence" e ;; as_num v)
    (map UIElement_to_dict els)
  = Ok (map confidence els).
Proof.
  induction els as [|e els IH]; simpl; [reflexivity|].
  rewrite IH. reflexivity.
Qed.

Lemma confidences_in_range (els : list UIElement) :
  forallb ResultProcessor.keep_element els = true ->
  Forall (fun q => 0 <= q <= 1)%Q (map confidence els).
Proof.
  induction els as [|e els IH]; simpl; intros H; constructor.
  - apply andb_prop in H. destruct H as [He _].
    destruct (keep_element_inv e He) as (_ & _ & _ & _ & _ & _ & _ & H3 & H4).
    split; apply Qle_bool_iff; assumption.
  - apply andb_prop in H. apply IH, H.
Qed.

(** The elements of a valid result are all inserted. *)
Lemma insert_elements_ok (els : list UIElement) : forall (db : t) (rid utc : Z),
  forallb ResultProcessor.keep_element els = true ->
  snd (insert_elements db rid utc (map UIElement_to_dict els)) = Ok tt.
Proof.
  induction els as [|e els IH]; intros db rid utc H; simpl; [reflexivity|].
  apply andb_prop in H. destruct H as [He Hl].
  destruct (keep_element_inv e He) as (a & b & c & d & Hb & _ & _ & H3 & H4).
  assert (E : exists db', insert_element db rid utc (UIElement_to_dict e) = (db', Ok tt)).
  { unfold insert_element, UIElement_to_dict, guard, require, get_default. simpl.
    rewrite Hb. simpl. unfold in_unit_interval. rewrite H3, H4. simpl.
    eexists. reflexivity. }
  destruct E as [db' ->]. apply IH. exact Hl.
Qed.

Lemma after_eviction_keeps (db : t) (max_results : Z) :
  let db1 := Scenarios.after_eviction db max_results in
  screenshots db1 = screenshots db
  /\ seq_screenshots db1 = seq_screenshots db
  /\ incl (recognition_results db1) (recognition_results db).
Proof.
  unfold Scenarios.after_eviction.
  destruct (_ >=? max_results); [|repeat split; apply incl_refl].
  unfold _evict_lru. destruct (_ <=? max_results);
    [repeat split; apply incl_refl|].
  repeat split. simpl. intros x Hx. apply filter_In in Hx. apply Hx.
Qed.

Lemma find_after_fresh (h : string) (rows : list screenshot_row)
    (row : screenshot_row) :
  existsb (fun s => String.eqb (sha256_hash s) h) rows = false ->
  sha256_hash row = h ->
  find (fun s => String.eqb (sha256_hash s) h) (rows ++ [row]) = Some row.
Proof.
  intros H Hrow. induction rows as [|x rows IH]; simpl in *.
  - rewrite Hrow, String.eqb_refl. reflexivity.
  - apply orb_false_iff in H. destruct H as [Hx Hrows].
    rewrite Hx. apply IH. exact Hrows.
Qed.

(** An insert of a valid result for a fingerprint that has no row goes
    through: it adds the screenshot row, expiring [ttl_minutes] after
    [now], and a result row joined to it that holds the dict. *)
Lemma insert_cache_fresh (db : t) (s : Screenshot) (r : RecognitionResult)
    (ttl_minutes max_results : Z) (now : datetime) (utc : Z) :
  existsb (fun row => String.eqb (sha256_hash row) (hash s)) (screenshots db) = false ->
  0 < width s -> 0 < height s ->
  forallb ResultProcessor.keep_element (elements r) = true ->
  Qle_bool 0 (inference_time r) = true ->
  exists db' row,
    insert_cache db (hash s) (width s) (height s) (RecognitionResult_to_dict r)
      (model_name r) ttl_minutes max_results now utc = (db', Ok tt)
    /\ screenshots db'
       = screenshots db
           ++ [mkScreenshotRow (seq_screenshots db + 1) (hash s) (width s)
                 (height s) "Unknown" (IsoLocal now)
                 (IsoLocal (now + timedelta_minutes ttl_minutes)) (UtcSecond utc)]
    /\ recognition_results db'
       = recognition_results (Scenarios.after_eviction db max_results) ++ [row]
    /\ screenshot_id row = seq_screenshots db + 1
    /\ result_json row = RecognitionResult_to_dict r
    /\ hit_count row = 0.
Proof.
  intros Hfresh Hw Hh Hel Hit.
  destruct (after_eviction_keeps db max_results) as (E1 & E2 & _).
  unfold insert_cache. fold (Scenarios.after_eviction db max_results).
  set (db1 := Scenarios.after_eviction db max_results) in *.
  change (get_default "source_window" (JStr "Unknown") (RecognitionResult_to_dict r))
    with (JStr "Unknown").
  change (get_default "elements" (JList []) (RecognitionResult_to_dict r))
    with (JList (map (fun e => JDict (UIElement_to_dict e)) (elements r))).
  change (get_default "inference_time" (JInt 0) (RecognitionResult_to_dict r))
    with (JFloat (inference_time r)).
  change (get_default "status" (JStr "success") (RecognitionResult_to_dict r))
    with (JStr (status_name (status r))).
  cbn [as_str as_list as_num guard bind].
  unfold insert_or_ignore_screenshot.
  rewrite E1, Hfresh, E2.
  replace (0 <? width s) with true by (symmetry; apply Z.ltb_lt; exact Hw).
  replace (0 <? height s) with true by (symmetry; apply Z.ltb_lt; exact Hh).
  cbn [negb orb].
  unfold select_screenshot_id. cbn [screenshots].
  match goal with
  | |- context [find _ (screenshots db ++ [?row])] =>
      rewrite (find_after_fresh (hash s) (screenshots db) row Hfresh eq_refl)
  end.
  cbn [guard s_id].
  rewrite decode_element_dicts. cbn [guard].
  rewrite decode_confidences. cbn [guard].
  rewrite length_map.
  replace (List.length (elements r)) with (List.length (map confidence (elements r)))
    by apply length_map.
  rewrite (mean_in_unit_interval _ (confidences_in_range _ Hel)).
  rewrite (int_of_float_nonneg _ Hit). cbn [negb orb].
  match goal with
  | |- context [insert_elements ?d ?rid utc _] =>
      pose proof (insert_elements_ok (elements r) d rid utc Hel) as Hok;
      pose proof (insert_elements_screenshots (map UIElement_to_dict (elements r))
                    d rid utc) as Hs;
      pose proof (insert_elements_results (map UIElement_to_dict (elements r))
                    d rid utc) as Hr;
      destruct (insert_elements d rid utc (map UIElement_to_dict (elements r)))
        as [db' res]
  end.
  simpl in Hok, Hs, Hr. subst res.
  eexists. eexists. split; [reflexivity|].
  split; [exact Hs|]. split; [exact Hr|]. repeat split.
Qed.

(** The lookup that follows finds the new result while the new row has
    not expired. *)
Lemma select_newest_fresh (db db' : t) (h : string) (row : result_row)
    (expires now : datetime) (srow : screenshot_row) (older : list result_row) :
  existsb (fun x => String.eqb (sha256_hash x) h) (screenshots db) = false ->
  Forall (fun x => screenshot_id x <= seq_screenshots db) older ->
  screenshots db' = screenshots db ++ [srow] ->
  sha256_hash srow = h -> s_id srow = seq_screenshots db + 1 ->
  s_expires_at srow = IsoLocal expires -> now < expires ->
  recognition_results db' = older ++ [row] ->
  screenshot_id row = seq_screenshots db + 1 ->
  select_newest db' h now = Some row.
Proof.
  intros Hfresh Hold Hs Hh Hid Hexp Hnow Hr Hrow.
  unfold select_newest. rewrite Hs, Hr, !filter_app, map_app.
  assert (E : filter (fun x => String.eqb (sha256_hash x) h
                               && sqltime_ltb (IsoLocal now) (s_expires_at x))
                (screenshots db) = []).
  { clear - Hfresh.
    induction (screenshots db) as [|x l IH]; simpl in *; [reflexivity|].
    apply orb_false_iff in Hfresh. destruct Hfresh as [Hx Hl].
    rewrite Hx. simpl. apply IH. exact Hl. }
  rewrite E. cbn [app filter]. rewrite Hh, String.eqb_refl, Hexp.
  unfold sqltime_ltb. cbn [sqltime_compare andb].
  replace (now ?= expires) with Lt by (symmetry; apply Z.compare_lt_iff; exact Hnow).
  cbn [map app]. rewrite Hid.
  assert (F : filter (fun x => mem (screenshot_id x) [seq_screenshots db + 1]) older = []).
  { clear - Hold.
    induction Hold as [|x l Hx Hl IH]; [reflexivity|].
    cbn [filter mem existsb].
    replace (screenshot_id x =? seq_screenshots db + 1) with false
      by (symmetry; apply Z.eqb_neq; lia).
    cbn [orb]. exact IH. }
  rewrite F. cbn [app filter mem existsb]. rewrite Hrow, Z.eqb_refl.
  reflexivity.
Qed.

End RoundTrip.

(** The round trip of the cache on a fingerprint that has no row yet, in a
    store whose results refer to existing screenshot ids: with a TTL of at
    least one minute, a valid result that is put and looked up before the
    new row and the result itself expire comes back with the declared
    fields of its elements. *)
Lemma put_then_get_fresh (cm : CacheManager.t) (s : Screenshot)
    (r : RecognitionResult) (now : datetime) (utc : Z)
    (clk : CacheManager.get_clock) (fresh_uuid : string) (expires : datetime) :
  existsb (fun row => String.eqb (CacheDatabase.sha256_hash row) (hash s))
    (CacheDatabase.screenshots (CacheManager.db cm)) = false ->
  Forall (fun x => CacheDatabase.screenshot_id x
                   <= CacheDatabase.seq_screenshots (CacheManager.db cm))
    (CacheDatabase.recognition_results (CacheManager.db cm)) ->
  0 < width s -> 0 < height s ->
  forallb ResultProcessor.keep_element (elements r) = true ->
  Qle_bool 0 (inference_time r) = true ->
  expires_at r = Some expires ->
  CacheManager.at_query clk
    < now + timedelta_minutes (CacheManager.ttl_seconds cm / 60) ->
  CacheManager.at_check clk < expires ->
  snd (CacheManager.get (CacheManager.put cm s r now utc) s clk fresh_uuid)
  = Some (Scenarios.reloaded fresh_uuid r).
Proof.
  intros Hfresh Hwf Hw Hh Hel Hit Hex Hq Hc.
  destruct (insert_cache_fresh (CacheManager.db cm) s r
              (CacheManager.ttl_seconds cm / 60) (CacheManager.max_size cm)
              now utc Hfresh Hw Hh Hel Hit)
    as (db' & row & Hins & Hs & Hr & Hrow & Hjson & Hhits).
  unfold CacheManager.put. rewrite Hins.
  unfold CacheManager.get, CacheDatabase.lookup_cache. simpl.
  destruct (after_eviction_keeps (CacheManager.db cm) (CacheManager.max_size cm))
    as (_ & _ & Hincl).
  rewrite (select_newest_fresh (CacheManager.db cm) db' (hash s) row _
             (CacheManager.at_query clk) _ _ Hfresh
             (incl_Forall Hincl Hwf) Hs eq_refl eq_refl eq_refl Hq Hr Hrow).
  rewrite Hjson, Hhits.
  rewrite (RecognitionResult_round_trip _ _ r _ Hel Hit).
  unfold is_expired, Scenarios.reloaded. simpl. rewrite Hex.
  replace (expires <=? CacheManager.at_check clk) with false
    by (symmetry; apply Z.leb_gt; exact Hc).
  reflexivity.
Qed.

Section StoredEntry.

Import CacheDatabase.




End StoredEntry.




(** * Further properties of the code *)

(** ** Elements and results *)

Section ElementsAndResults.

Lemma sum_confidence_fold (l : list UIElement) : forall acc : Q,
  fold_left (fun a e => (a + confidence e)%Q) l acc
  = fold_left Qplus (map confidence l) acc.
Proof.
  induction l as [|e l IH]; intros acc; simpl; [reflexivity | apply IH].
Qed.

Lemma accepted_is_kept (e : UIElement) :
  accepted e = true -> ResultProcessor.keep_element e = true.
Proof.
  unfold ResultProcessor.keep_element, accepted, UIElement_init, Qlt_bool.
  destruct (bbox e) as [|a [|b [|c [|d [|x l]]]]];
    destruct (Qle_bool 0 (confidence e)), (Qle_bool (confidence e) 1);
    simpl; try discriminate;
    rewrite !Z.geb_leb; destruct (c <=? a), (d <=? b); simpl;
    first [discriminate | reflexivity].
Qed.

Lemma kept_element_shape (e : UIElement) :
  ResultProcessor.keep_element e = true ->
  exists x1 y1 x2 y2,
    bbox e = [x1; y1; x2; y2] /\ x1 < x2 /\ y1 < y2
    /\ Qlt_bool (confidence e) 0 = false /\ Qlt_bool 1 (confidence e) = false.
Proof.
  unfold ResultProcessor.keep_element.
  destruct (bbox e) as [|a [|b [|c [|d [|x l]]]]]; try discriminate.
  destruct (a >=? c) eqn:E1; [discriminate|].
  destruct (b >=? d) eqn:E2; [discriminate|].
  destruct (Qlt_bool (confidence e) 0); [discriminate|].
  destruct (Qlt_bool 1 (confidence e)); [discriminate|].
  intros _. exists a, b, c, d.
  rewrite Z.geb_leb in E1, E2. apply Z.leb_gt in E1. apply Z.leb_gt in E2.
  repeat split; assumption.
Qed.

End ElementsAndResults.

(** X1. The validation of the constructor is at least as strict as the
    filter of the result processor.  An element whose field values
    [__post_init__] accepts is kept by [_filter_invalid], so the filter
    drops nothing from a list of elements that were not changed after
    their construction, and an element it drops is one the constructor
    rejects.  What it keeps are elements of the list whose box has four
    coordinates with [x1 < x2] and [y1 < y2] and whose confidence is
    neither below 0 nor above 1. *)
Theorem constructor_validation_passes_filter :
  forall (l : list UIElement),
    (Forall (fun e => accepted e = true) l ->
     ResultProcessor._filter_invalid l = l)
    /\ (forall e, In e l -> ~ In e (ResultProcessor._filter_invalid l) ->
                  accepted e = false)
    /\ Forall (fun e =>
                 In e l
                 /\ exists x1 y1 x2 y2,
                      bbox e = [x1; y1; x2; y2] /\ x1 < x2 /\ y1 < y2
                      /\ Qlt_bool (confidence e) 0 = false
                      /\ Qlt_bool 1 (confidence e) = false)
         (ResultProcessor._filter_invalid l).
Proof.
  intros l. unfold ResultProcessor._filter_invalid. split; [|split].
  - induction 1 as [|e l He Hl IH]; simpl; [reflexivity|].
    rewrite (accepted_is_kept e He), IH. reflexivity.
  - intros e He Hout. destruct (accepted e) eqn:A; [|reflexivity].
    exfalso. apply Hout. apply filter_In. split; [exact He|].
    apply accepted_is_kept. exact A.
  - apply Forall_forall. intros e He. apply filter_In in He.
    split; [apply He | apply kept_element_shape; apply He].
Qed.

(** X2. For every element the constructor returns, the box has a positive
    width and height, and the centre the properties compute lies in the
    box: [x1 <= center_x < x2] and [y1 <= center_y < y2]. *)
Theorem constructed_element_geometry :
  forall (ty tx : string) (bb : list Z) (cf : Q) (an pi : option string)
         (ac : bool) (cr : datetime) (e : UIElement),
    UIElement_init ty tx bb cf an pi ac cr = Ok e ->
    exists x1 y1 x2 y2,
      bbox e = [x1; y1; x2; y2]
      /\ element_width e = Ok (x2 - x1) /\ 0 < x2 - x1
      /\ element_height e = Ok (y2 - y1) /\ 0 < y2 - y1
      /\ center_x e = Ok ((x1 + x2) / 2) /\ x1 <= (x1 + x2) / 2 < x2
      /\ center_y e = Ok ((y1 + y2) / 2) /\ y1 <= (y1 + y2) / 2 < y2.
Proof.
  intros ty tx bb cf an pi ac cr e. unfold UIElement_init.
  destruct (negb _); [discriminate|].
  destruct bb as [|x1 [|y1 [|x2 [|y2 [|z l]]]]]; try discriminate.
  destruct (x2 <=? x1) eqn:Ex; [discriminate|].
  destruct (y2 <=? y1) eqn:Ey; [discriminate|].
  simpl. intros H. injection H as <-.
  apply Z.leb_gt in Ex. apply Z.leb_gt in Ey.
  exists x1, y1, x2, y2. simpl.
  repeat split; try lia.
  - apply Z.div_le_lower_bound; lia.
  - apply Z.div_lt_upper_bound; lia.
  - apply Z.div_le_lower_bound; lia.
  - apply Z.div_lt_upper_bound; lia.
Qed.

Lemma constructed_element_geometry_witness :
  exists x1 y1 x2 y2,
    bbox (Scenarios.ok_button (1 # 2)) = [x1; y1; x2; y2]
    /\ center_x (Scenarios.ok_button (1 # 2)) = Ok ((x1 + x2) / 2)
    /\ x1 <= (x1 + x2) / 2 < x2.
Proof.
  destruct (constructed_element_geometry "button" "OK" [100; 100; 180; 130]
              (1 # 2) None None true 0 (Scenarios.ok_button (1 # 2)))
    as (x1 & y1 & x2 & y2 & H1 & _ & _ & _ & _ & H2 & H3 & _).
  - reflexivity.
  - exists x1, y1, x2, y2. repeat split; try assumption; apply H3.
Defined.

Lemma UIElement_init_accepted (ty tx : string) (bb : list Z) (cf : Q)
    (an pi : option string) (ac : bool) (cr : datetime) (e : UIElement) :
  UIElement_init ty tx bb cf an pi ac cr = Ok e ->
  e = mkUIElement ty tx bb cf an pi ac cr None None /\ accepted e = true.
Proof.
  intros H. assert (E : e = mkUIElement ty tx bb cf an pi ac cr None None).
  { unfold UIElement_init in H. destruct (negb _); [discriminate|].
    destruct bb as [|x1 [|y1 [|x2 [|y2 [|z l]]]]]; try discriminate.
    destruct (_ || _); [discriminate|]. injection H as <-. reflexivity. }
  split; [exact E|]. subst e. unfold accepted. simpl. rewrite H. reflexivity.
Qed.

(** X3. [from_dict] undoes [to_dict] on the declared fields of an element the
    filter keeps; the attributes [id] and [attributes] of the instance are
    not serialized, so the element that comes back has neither. *)
Theorem element_dict_round_trip :
  forall (now : datetime) (e : UIElement),
    ResultProcessor.keep_element e = true ->
    UIElement_from_dict now (UIElement_to_dict e) = Ok (fields e)
    /\ attr_id (fields e) = None /\ attr_attributes (fields e) = None.
Proof.
  intros now e H. split; [apply UIElement_round_trip; exact H|].
  split; reflexivity.
Qed.

Lemma element_dict_round_trip_witness :
  UIElement_from_dict 0 (UIElement_to_dict (Scenarios.ok_button_with_attributes (1 # 2)))
  = Ok (Scenarios.ok_button (1 # 2)).
Proof.
  apply (element_dict_round_trip 0 (Scenarios.ok_button_with_attributes (1 # 2))).
  reflexivity.
Defined.

Lemma mapM_as_int_inv (l : list json) : forall bb,
  mapM as_int l = Ok bb -> l = map JInt bb.
Proof.
  induction l as [|v l IH]; intros bb H; simpl in H.
  - injection H as <-. reflexivity.
  - destruct v; try discriminate. simpl in H.
    destruct (mapM as_int l) as [rest|]; [|discriminate].
    simpl in H. injection H as <-. simpl. rewrite (IH rest eq_refl). reflexivity.
Qed.

(** What [from_dict] reads from the dict, when it returns. *)
Lemma from_dict_reads (now : datetime) (data : list (string * json))
    (e : UIElement) :
  UIElement_from_dict now data = Ok e ->
  exists created ty tx l bb v cf an pi ac,
    parse_datetime (get_default "created_at" JNull data) (Some now) = Ok created
    /\ require "type" data = Ok (JStr ty)
    /\ require "text" data = Ok (JStr tx)
    /\ require "bbox" data = Ok (JList l) /\ mapM as_int l = Ok bb
    /\ require "confidence" data = Ok v /\ as_num v = Ok cf
    /\ as_opt_str (get_default "app_name" JNull data) = Ok an
    /\ as_opt_str (get_default "parent_id" JNull data) = Ok pi
    /\ get_default "actionable" (JBool true) data = JBool ac
    /\ UIElement_init ty tx bb cf an pi ac
         (match created with Some t => t | None => now end) = Ok e.
Proof.
  unfold UIElement_from_dict.
  destruct (parse_datetime _ _) as [created|]; [|discriminate]. simpl.
  destruct (require "type" data) as [[| | | |ty| | |]|]; try discriminate. simpl.
  destruct (require "text" data) as [[| | | |tx| | |]|]; try discriminate. simpl.
  destruct (require "bbox" data) as [[| | | | | |l|]|]; try discriminate. simpl.
  destruct (mapM as_int l) as [bb|] eqn:Ebb; [|discriminate]. simpl.
  destruct (require "confidence" data) as [v|]; [|discriminate]. simpl.
  destruct (as_num v) as [cf|] eqn:Ecf; [|discriminate]. simpl.
  destruct (as_opt_str (get_default "app_name" JNull data)) as [an|];
    [|discriminate]. simpl.
  destruct (as_opt_str (get_default "parent_id" JNull data)) as [pi|];
    [|discriminate]. simpl.
  destruct (get_default "actionable" (JBool true) data)
    as [|ac| | | | | |]; try discriminate. simpl.
  intros H. exists created, ty, tx, l, bb, v, cf, an, pi, ac.
  repeat split; try reflexivity; assumption.
Qed.

(** X4. [from_dict] builds its element from the entries of the dict, with
    the constructor.  An element it returns holds the entries [type],
    [text], [bbox] and [confidence] of the dict, the entries [app_name] and
    [parent_id] or None, the entry [actionable] or True, and the time
    under [created_at], or the current time where there is none; it
    passes the validation of [__post_init__] and carries neither [id] nor
    [attributes].  A dict that lacks one of the four entries, whose
    confidence is below 0 or above 1, or whose box has not four
    coordinates with [x1 < x2] and [y1 < y2], makes [from_dict] raise. *)
Theorem element_from_dict_is_validated :
  forall (now : datetime) (data : list (string * json)),
    (forall e, UIElement_from_dict now data = Ok e ->
       require "type" data = Ok (JStr (element_type e))
       /\ require "text" data = Ok (JStr (text e))
       /\ require "bbox" data = Ok (JList (map JInt (bbox e)))
       /\ (exists v, require "confidence" data = Ok v
                     /\ as_num v = Ok (confidence e))
       /\ as_opt_str (get_default "app_name" JNull data) = Ok (app_name e)
       /\ as_opt_str (get_default "parent_id" JNull data) = Ok (parent_id e)
       /\ get_default "actionable" (JBool true) data = JBool (actionable e)
       /\ (exists created,
             parse_datetime (get_default "created_at" JNull data) (Some now)
             = Ok created
             /\ created_at e = match created with Some t => t | None => now end)
       /\ accepted e = true /\ attr_id e = None /\ attr_attributes e = None)
    /\ (forall k, In k ["type"; "text"; "bbox"; "confidence"] ->
          dict_get k data = None ->
          is_ok (UIElement_from_dict now data) = false)
    /\ (forall v c, dict_get "confidence" data = Some v -> as_num v = Ok c ->
          Qlt_bool c 0 || Qlt_bool 1 c = true ->
          is_ok (UIElement_from_dict now data) = false)
    /\ (forall l, dict_get "bbox" data = Some (JList (map JInt l)) ->
          (forall x1 y1 x2 y2, l = [x1; y1; x2; y2] -> x2 <= x1 \/ y2 <= y1) ->
          is_ok (UIElement_from_dict now data) = false).
Proof.
  intros now data.
  assert (Hraise : forall P : Prop,
            (forall e, UIElement_from_dict now data = Ok e -> P -> False) ->
            P -> is_ok (UIElement_from_dict now data) = false).
  { intros P HP p. destruct (UIElement_from_dict now data) as [e|] eqn:E;
      [|reflexivity]. exfalso. exact (HP e eq_refl p). }
  split; [|split; [|split]].
  - intros e H.
    destruct (from_dict_reads now data e H)
      as (created & ty & tx & l & bb & v & cf & an & pi & ac
          & Hc & Hty & Htx & Hl & Hbb & Hv & Hcf & Han & Hpi & Hac & Hinit).
    apply UIElement_init_accepted in Hinit. destruct Hinit as [-> Hacc].
    simpl. rewrite Hty, Htx, Hl, Han, Hpi, Hac, (mapM_as_int_inv l bb Hbb).
    repeat split; try reflexivity.
    + exists v. split; assumption.
    + exists created. split; [exact Hc | reflexivity].
    + exact Hacc.
  - intros k Hk Hnone. revert Hnone. refine (Hraise _ _). intros e H Hnone.
    destruct (from_dict_reads now data e H)
      as (created & ty & tx & l & bb & v & cf & an & pi & ac
          & Hc & Hty & Htx & Hl & Hbb & Hv & Hcf & _).
    unfold require in Hty, Htx, Hl, Hv.
    simpl in Hk. destruct Hk as [<-|[<-|[<-|[<-|[]]]]];
      rewrite Hnone in *; discriminate.
  - intros v c Hv Hc Hout. revert Hout. refine (Hraise _ _). intros e H Hout.
    destruct (from_dict_reads now data e H)
      as (created & ty & tx & l & bb & v' & cf & an & pi & ac
          & _ & _ & _ & _ & _ & Hv' & Hcf & _ & _ & _ & Hinit).
    unfold require in Hv'. rewrite Hv in Hv'. injection Hv' as <-.
    rewrite Hc in Hcf. injection Hcf as <-.
    unfold UIElement_init in Hinit. unfold Qlt_bool in Hout.
    destruct (Qle_bool 0 c), (Qle_bool c 1); simpl in *; discriminate.
  - intros l Hl Hbad. revert Hbad. refine (Hraise _ _). intros e H Hbad.
    destruct (from_dict_reads now data e H)
      as (created & ty & tx & l' & bb & v' & cf & an & pi & ac
          & _ & _ & _ & Hl' & Hbb & _ & _ & _ & _ & _ & Hinit).
    unfold require in Hl'. rewrite Hl in Hl'. injection Hl' as <-.
    rewrite mapM_as_int in Hbb. injection Hbb as <-.
    unfold UIElement_init in Hinit.
    destruct (negb _); [discriminate|].
    destruct l as [|x1 [|y1 [|x2 [|y2 [|z l]]]]]; try discriminate.
    destruct (Hbad x1 y1 x2 y2 eq_refl) as [Hx|Hy].
    + apply Z.leb_le in Hx. rewrite Hx in Hinit. discriminate.
    + apply Z.leb_le in Hy. rewrite Hy, orb_true_r in Hinit. discriminate.
Qed.

Lemma element_from_dict_is_validated_witness :
  (exists v,
     require "confidence" (UIElement_to_dict (Scenarios.ok_button (9 # 10))) = Ok v
     /\ as_num v = Ok (9 # 10))
  /\ accepted (Scenarios.ok_button (9 # 10)) = true
  /\ is_ok (UIElement_from_dict 0 (UIElement_to_dict (Scenarios.ok_button (11 # 10))))
     = false
  /\ is_ok (UIElement_from_dict 0
              [("type", JStr "button"); ("text", JStr "OK");
               ("bbox", JList (map JInt [100; 100; 100; 130]));
               ("confidence", JFloat (9 # 10))])
     = false.
Proof.
  split; [|split; [|split]].
  - destruct (element_from_dict_is_validated 0
                (UIElement_to_dict (Scenarios.ok_button (9 # 10)))) as (H & _).
    destruct (H (Scenarios.ok_button (9 # 10)) eq_refl)
      as (_ & _ & _ & Hv & _).
    exact Hv.
  - destruct (element_from_dict_is_validated 0
                (UIElement_to_dict (Scenarios.ok_button (9 # 10)))) as (H & _).
    apply (H (Scenarios.ok_button (9 # 10)) eq_refl).
  - destruct (element_from_dict_is_validated 0
                (UIElement_to_dict (Scenarios.ok_button (11 # 10))))
      as (_ & _ & H & _).
    apply (H (JFloat (11 # 10)) (11 # 10)); reflexivity.
  - destruct (element_from_dict_is_validated 0
                [("type", JStr "button"); ("text", JStr "OK");
                 ("bbox", JList (map JInt [100; 100; 100; 130]));
                 ("confidence", JFloat (9 # 10))])
      as (_ & _ & _ & H).
    apply (H [100; 100; 100; 130]); [reflexivity|].
    intros x1 y1 x2 y2 E. injection E as <- <- <- <-. left. lia.
Defined.

(** X5. [RecognitionResult.from_dict] undoes [to_dict] for a result whose
    elements the filter keeps and whose inference time is not negative,
    up to the declared fields of the elements; the two keys [lookup_cache]
    adds to the dict do not change what is read. *)
Theorem result_dict_round_trip :
  forall (now : datetime) (fresh_uuid : string) (r : RecognitionResult) (hits : Z),
    forallb ResultProcessor.keep_element (elements r) = true ->
    Qle_bool 0 (inference_time r) = true ->
    RecognitionResult_from_dict now fresh_uuid (RecognitionResult_to_dict r)
    = Ok (Scenarios.reloaded fresh_uuid r)
    /\ RecognitionResult_from_dict now fresh_uuid
         (dict_set "_hit_count" (JInt hits)
            (dict_set "_cache_hit" (JBool true) (RecognitionResult_to_dict r)))
       = Ok (Scenarios.reloaded fresh_uuid r).
Proof.
  intros now fresh_uuid r hits Hel Hit.
  split; [|apply RecognitionResult_round_trip; assumption].
  destruct r as [rid sh els mn it st src cr ex mv]. simpl in *.
  unfold RecognitionResult_from_dict, RecognitionResult_to_dict, require,
    get_default. simpl.
  rewrite (elements_round_trip now els Hel). simpl.
  destruct ex as [t|]; simpl;
    destruct mv; simpl;
    unfold RecognitionResult_init, Qlt_bool; rewrite Hit; simpl;
    rewrite status_name_round_trip, source_name_round_trip; reflexivity.
Qed.

Lemma result_dict_round_trip_witness :
  RecognitionResult_from_dict 0 ""
    (RecognitionResult_to_dict Scenarios.navigation_result)
  = Ok Scenarios.navigation_result.
Proof.
  apply (result_dict_round_trip 0 "" Scenarios.navigation_result 0);
    reflexivity.
Defined.

(** X6. The average confidence of a result whose elements the filter keeps
    lies in [0, 1]; for a result without element the property gives 0 and
    does not divide. *)
Theorem average_confidence_in_range :
  forall (r : RecognitionResult),
    forallb ResultProcessor.keep_element (elements r) = true ->
    (0 <= average_confidence r <= 1)%Q
    /\ (elements r = [] -> average_confidence r = 0%Q).
Proof.
  intros r H. split.
  - pose proof (mean_in_unit_interval _ (confidences_in_range _ H)) as M.
    unfold average_confidence, ResultProcessor.sum_confidence.
    rewrite sum_confidence_fold.
    destruct (elements r) as [|e l] eqn:El.
    + split; [apply Qle_refl | discriminate].
    + rewrite length_map in M.
      replace (0 <? Z.of_nat (List.length (e :: l))) with true in M
        by (symmetry; apply Z.ltb_lt; simpl; lia).
      unfold CacheDatabase.in_unit_interval in M.
      apply andb_prop in M. destruct M as [M1 M2].
      split; apply Qle_bool_iff; assumption.
  - intros El. unfold average_confidence. rewrite El. reflexivity.
Qed.

Lemma average_confidence_in_range_witness :
  (0 <= average_confidence Scenarios.navigation_result <= 1)%Q.
Proof.
  apply (average_confidence_in_range Scenarios.navigation_result).
  reflexivity.
Defined.

(** ** The statistics and the consent dialog of the engine *)

Section EngineCounters.

Import VisionEngine.

Lemma try_backups_quiet (adapters : list VisionModelAdapter) : forall i sc t,
  consent_answers (snd (try_backups i adapters sc t)) = []
  /\ existsb Scenarios.is_cloud (attempted (snd (try_backups i adapters sc t))) = false
  /\ match fst (try_backups i adapters sc t) with None => true | Some _ => false end
     = forallb (fun a => negb (is_ok (infer a sc t))) adapters.
Proof.
  induction adapters as [|a adapters IH]; intros i sc t; simpl.
  - repeat split.
  - destruct (infer a sc t); simpl; [repeat split|].
    specialize (IH (S i) sc t).
    destruct (try_backups (S i) adapters sc t) as [r evs]. simpl in *. exact IH.
Qed.

Lemma consent_answers_app (a b : list event) :
  consent_answers (a ++ b) = consent_answers a ++ consent_answers b.
Proof.
  induction a as [|ev a IH]; simpl; [reflexivity|].
  destruct ev; simpl; rewrite IH; reflexivity.
Qed.

(** What one invocation does to the engine and shows to the user. *)
Lemma infer_with_fallback_effects (self : t) (sc : Screenshot) (timeout : Q)
    (consent : bool) :
  let out := infer_with_fallback self sc timeout consent in
  let self' := snd (fst out) in
  let asked := Invariants.local_adapters_fail self sc timeout
               && enable_cloud self && Scenarios.has_cloud self in
  _inference_count self' = _inference_count self + 1
  /\ _fallback_count self'
     = _fallback_count self
       + (if Invariants.is_local_gpu (snd (fst (fst out))) then 0 else 1)
  /\ _cloud_count self'
     = _cloud_count self + (if Invariants.used_cloud (snd out) then 1 else 0)
  /\ Invariants.is_local_gpu (snd (fst (fst out)))
     = is_ok (infer (primary_adapter self) sc timeout)
  /\ consent_answers (snd out) = (if asked then [consent] else [])
  /\ Invariants.used_cloud (snd out) = asked && consent
  /\ primary_adapter self' = primary_adapter self
  /\ backup_adapters self' = backup_adapters self
  /\ cloud_adapter self' = cloud_adapter self
  /\ enable_cloud self' = enable_cloud self.
Proof.
  unfold infer_with_fallback, Invariants.local_adapters_fail,
    Invariants.used_cloud, Scenarios.has_cloud.
  destruct (infer (primary_adapter self) sc timeout) as [els|e]; simpl.
  - repeat split; lia.
  - destruct (try_backups_quiet (backup_adapters self) 0%nat sc timeout)
      as (Q1 & Q2 & Q3).
    destruct (try_backups 0 (backup_adapters self) sc timeout) as [r evs].
    simpl in *. rewrite <- Q3.
    destruct r as [els|]; cbn [fst snd].
    + cbn [app consent_answers attempted existsb Scenarios.is_cloud orb].
      rewrite Q1, Q2. simpl. repeat split; lia.
    + destruct (enable_cloud self) eqn:En, (cloud_adapter self) as [c|] eqn:Cl;
        [destruct consent; [destruct (infer c sc timeout)|]| | |];
        cbn [fst snd app consent_answers attempted existsb Scenarios.is_cloud orb];
        rewrite ?consent_answers_app, ?attempted_app, ?existsb_app, ?Q1, ?Q2;
        simpl; repeat split; first [lia | assumption].
Qed.

Lemma rate_bounds (a b : Z) :
  0 <= a <= b -> 0 < b ->
  (0 <= inject_Z a / inject_Z b * 100 <= 100)%Q.
Proof.
  intros Ha Hb.
  assert (Hb' : (0 < inject_Z b)%Q).
  { change 0%Q with (inject_Z 0). rewrite <- Zlt_Qlt. exact Hb. }
  assert (H0 : (0 <= inject_Z a)%Q).
  { change 0%Q with (inject_Z 0). rewrite <- Zle_Qle. lia. }
  assert (H1 : (inject_Z a <= inject_Z b)%Q) by (rewrite <- Zle_Qle; lia).
  assert (L : (0 <= inject_Z a / inject_Z b)%Q)
    by (apply Qle_shift_div_l; [exact Hb' | lra]).
  assert (U : (inject_Z a / inject_Z b <= 1)%Q)
    by (apply Qle_shift_div_r; [exact Hb' | lra]).
  split; lra.
Qed.

Lemma infer_many_counters (requests : list (Screenshot * Q * bool)) :
  forall self : t,
    let run := infer_many self requests in
    _inference_count (fst run)
    = _inference_count self + Z.of_nat (List.length requests)
    /\ _fallback_count (fst run)
       = _fallback_count self
         + Z.of_nat (List.length
                       (filter (fun o => negb (Invariants.is_local_gpu (snd (fst o))))
                          (snd run)))
    /\ _cloud_count (fst run)
       = _cloud_count self
         + Z.of_nat (List.length
                       (filter (fun o => Invariants.used_cloud (snd o)) (snd run)))
    /\ _cloud_count (fst run) - _cloud_count self
       <= _fallback_count (fst run) - _fallback_count self
       <= Z.of_nat (List.length requests).
Proof.
  induction requests as [|[[sc t0] consent] rest IH]; intros self; simpl.
  - repeat split; lia.
  - pose proof (infer_with_fallback_effects self sc t0 consent) as E.
    destruct (infer_with_fallback self sc t0 consent) as [[res self1] evs].
    simpl in E. destruct E as (E1 & E2 & E3 & E4 & _ & E6 & _).
    specialize (IH self1).
    destruct (infer_many self1 rest) as [self2 outs]. simpl in *.
    destruct IH as (I1 & I2 & I3 & I4).
    assert (Hc : Invariants.used_cloud evs = true ->
                 Invariants.is_local_gpu (snd res) = false).
    { rewrite E6, E4. unfold Invariants.local_adapters_fail.
      destruct (is_ok _); simpl; [discriminate | reflexivity]. }
    destruct (Invariants.is_local_gpu (snd res)) eqn:G,
             (Invariants.used_cloud evs) eqn:C; simpl;
      try (specialize (Hc eq_refl); discriminate);
      repeat split; try lia.
Qed.

End EngineCounters.

(** X7. The counters of an engine after any number of invocations:
    [_inference_count] is the number of invocations, [_fallback_count] the
    number of them whose result is not tagged LOCAL_GPU, [_cloud_count]
    the number of them in which the cloud adapter was called; so
    [0 <= _cloud_count <= _fallback_count <= _inference_count], and the
    two rates [get_statistics] reports lie between 0 and 100 (and are 0
    before the first invocation, without a division). *)
Theorem engine_statistics_are_consistent :
  forall (primary : VisionEngine.VisionModelAdapter)
         (backups : option (list VisionEngine.VisionModelAdapter))
         (cloud : option VisionEngine.VisionModelAdapter) (enable : bool)
         (requests : list (Screenshot * Q * bool)),
    let run := VisionEngine.infer_many
                 (VisionEngine.init primary backups cloud enable) requests in
    let st := VisionEngine.get_statistics (fst run) in
    VisionEngine.total_inferences st = Z.of_nat (List.length requests)
    /\ VisionEngine.fallback_count st
       = Z.of_nat (List.length
                     (filter (fun o => negb (Invariants.is_local_gpu (snd (fst o))))
                        (snd run)))
    /\ VisionEngine.cloud_count st
       = Z.of_nat (List.length
                     (filter (fun o => Invariants.used_cloud (snd o)) (snd run)))
    /\ 0 <= VisionEngine.cloud_count st <= VisionEngine.fallback_count st
    /\ VisionEngine.fallback_count st <= VisionEngine.total_inferences st
    /\ (0 <= VisionEngine.fallback_rate_percent st <= 100)%Q
    /\ (0 <= VisionEngine.cloud_rate_percent st <= 100)%Q.
Proof.
  intros primary backups cloud enable requests run st.
  destruct (infer_many_counters requests
              (VisionEngine.init primary backups cloud enable))
    as (H1 & H2 & H3 & H4).
  fold run in H1, H2, H3, H4. simpl in H1, H2, H3, H4.
  unfold st, VisionEngine.get_statistics. simpl.
  split; [lia|]. split; [lia|]. split; [lia|]. split; [lia|]. split; [lia|].
  destruct (0 <? VisionEngine._inference_count (fst run)) eqn:E.
  - apply Z.ltb_lt in E. split; apply rate_bounds; lia.
  - split; split; first [apply Qle_refl | discriminate].
Qed.

(** X8. The consent dialog of [infer_with_fallback] is shown exactly when the
    primary and every backup raised and the engine has an enabled cloud
    adapter, and then once; the cloud adapter is called exactly when the
    dialog was shown and answered with yes. *)
Theorem consent_is_asked_before_cloud :
  forall (self : VisionEngine.t) (screenshot : Screenshot) (timeout : Q)
         (consent : bool),
    let evs := snd (VisionEngine.infer_with_fallback self screenshot timeout consent) in
    let asked := Invariants.local_adapters_fail self screenshot timeout
                 && VisionEngine.enable_cloud self && Scenarios.has_cloud self in
    VisionEngine.consent_answers evs = (if asked then [consent] else [])
    /\ Invariants.used_cloud evs = asked && consent.
Proof.
  intros self screenshot timeout consent evs asked.
  destruct (infer_with_fallback_effects self screenshot timeout consent)
    as (_ & _ & _ & _ & H5 & H6 & _).
  split; assumption.
Qed.

(** ** The plugin: which adapter is asked, and what is clicked *)

(** X9. The engine the plugin builds from what the detector found.  When a
    local model was found, the adapter of the cloud API is called in the
    cloud place only, which takes the cloud API enabled and the consent
    dialog answered with yes.  When the cloud adapter is the only one
    found, it is the primary adapter as well: it is called first, before
    any dialog. *)
Theorem plugin_engine_cloud_calls :
  forall (uitars minicpm doubao : option (Screenshot -> Q -> pyres (list UIElement)))
         (enable : bool) (engine : VisionEngine.t) (screenshot : Screenshot)
         (timeout : Q) (consent : bool),
    GlobalPlugin.build_engine
      (ModelDetector.detect_all_adapters uitars minicpm doubao) enable true
    = Some engine ->
    let evs := snd (VisionEngine.infer_with_fallback engine screenshot timeout consent) in
    (uitars <> None \/ minicpm <> None ->
     forall s, In (s, GlobalPlugin.CLOUD_ADAPTER_NAME) (VisionEngine.attempts evs) ->
               s = VisionEngine.Cloud /\ enable = true
               /\ VisionEngine.consent_answers evs = [true])
    /\ (uitars = None -> minicpm = None ->
        exists rest,
          evs = VisionEngine.Attempt VisionEngine.Primary
                  GlobalPlugin.CLOUD_ADAPTER_NAME :: rest).
Proof.
  intros uitars minicpm doubao enable engine screenshot timeout consent H evs.
  subst evs.
  destruct uitars as [f1|], minicpm as [f2|], doubao as [f3|];
    cbn in H; try discriminate; injection H as <-;
    unfold VisionEngine.infer_with_fallback, VisionEngine.init; cbn;
    (split; [intros Hlocal s Hin | intros H1 H2; try discriminate]).
  all: try (exfalso; destruct Hlocal as [Hl|Hl]; apply Hl; reflexivity).
  all: repeat match goal with
       | |- context [match ?f ?a ?b with Ok _ => _ | Raise _ => _ end] =>
           destruct (f a b)
       | H : context [match ?f ?a ?b with Ok _ => _ | Raise _ => _ end] |- _ =>
           destruct (f a b)
       | H : context [if ?b then _ else _] |- _ => is_var b; destruct b
       | |- context [if ?b then _ else _] => is_var b; destruct b
       end; cbn in *.
  all: try (eexists; reflexivity).
  all: repeat match goal with
       | H : _ \/ _ |- _ => destruct H
       | H : False |- _ => contradiction
       | H : (_, _) = (_, _) |- _ => inversion H; clear H; subst
       end.
  all: try discriminate.
  all: repeat split; reflexivity.
Qed.

Lemma plugin_engine_cloud_calls_witness :
  let doubao := Some (fun (_ : Screenshot) (_ : Q) => Ok [Scenarios.ok_button (9 # 10)]) in
  exists rest,
    snd (VisionEngine.infer_with_fallback
           (VisionEngine.init
              (ModelDetector.DoubaoAPIAdapter
                 (fun _ _ => Ok [Scenarios.ok_button (9 # 10)]))
              (Some [])
              (Some (ModelDetector.DoubaoAPIAdapter
                       (fun _ _ => Ok [Scenarios.ok_button (9 # 10)])))
              true)
           Scenarios.active_window 15 false)
    = VisionEngine.Attempt VisionEngine.Primary GlobalPlugin.CLOUD_ADAPTER_NAME
        :: rest.
Proof.
  intros doubao.
  apply (plugin_engine_cloud_calls None None doubao true _
           Scenarios.active_window 15 false eq_refl); reflexivity.
Defined.

(** X10. [script_activateElement] reaches the click only when the plugin is
    enabled and the current element is actionable, has four coordinates
    and, if its confidence is below [LOW_CONFIDENCE_THRESHOLD], the user
    has answered the dialog with yes or the dialog could not be imported;
    the point clicked is the centre of the box, by floor division, and
    when the size of the screen is known the box lies on the screen and
    the point in the box. *)
Theorem activation_clicks_checked_element :
  forall (enabled : bool) (controller : RecognitionController.t)
         (dialog : GlobalPlugin.confirmation) (screen : option (Z * Z)) (x y : Z),
    GlobalPlugin.script_activateElement enabled controller dialog screen
    = GlobalPlugin.ClickAt x y ->
    enabled = true
    /\ exists e,
         snd (RecognitionController.get_current_element controller) = Ok (Some e)
         /\ actionable e = true
         /\ (is_uncertain e = true ->
             dialog = GlobalPlugin.AnswerYes \/ dialog = GlobalPlugin.NoDialog)
         /\ center_x e = Ok x /\ center_y e = Ok y
         /\ exists x1 y1 x2 y2,
              bbox e = [x1; y1; x2; y2]
              /\ forall w h, screen = Some (w, h) ->
                             0 <= x1 <= x /\ x < x2 <= w
                             /\ 0 <= y1 <= y /\ y < y2 <= h.
Proof.
  intros enabled controller dialog screen x y H.
  unfold GlobalPlugin.script_activateElement in H.
  destruct enabled; [|discriminate]. split; [reflexivity|]. simpl in H.
  destruct (snd (RecognitionController.get_current_element controller))
    as [[e|]|] eqn:Hc; try discriminate.
  exists e. split; [reflexivity|].
  unfold GlobalPlugin.activate_element in H.
  destruct (actionable e); [|discriminate]. simpl in H.
  split; [reflexivity|].
  assert (Hd : is_uncertain e = true ->
               dialog = GlobalPlugin.AnswerYes \/ dialog = GlobalPlugin.NoDialog).
  { unfold is_uncertain. intros Hu. rewrite Hu in H.
    destruct dialog; try discriminate; [left | right]; reflexivity. }
  split; [exact Hd|]. clear Hd.
  assert (H' : match bbox e with
               | [x1; y1; x2; y2] =>
                   if match screen with
                      | Some (w, h) =>
                          (0 <=? x1) && (x1 <? x2) && (x2 <=? w)
                          && (0 <=? y1) && (y1 <? y2) && (y2 <=? h)
                      | None => true
                      end
                   then GlobalPlugin.ClickAt ((x1 + x2) / 2) ((y1 + y2) / 2)
                   else GlobalPlugin.OutOfScreenBounds
               | _ => GlobalPlugin.CoordinatesInvalid
               end = GlobalPlugin.ClickAt x y).
  { destruct (if Qlt_bool (confidence e) LOW_CONFIDENCE_THRESHOLD
              then dialog else GlobalPlugin.AnswerYes);
      try discriminate; exact H. }
  clear H. unfold center_x, center_y, item.
  destruct (bbox e) as [|x1 [|y1 [|x2 [|y2 [|]]]]]; try discriminate.
  simpl.
  destruct (match screen with
            | Some (w, h) => _
            | None => true
            end) eqn:Hs; [|discriminate].
  injection H' as <- <-.
  split; [reflexivity|]. split; [reflexivity|].
  exists x1, y1, x2, y2. split; [reflexivity|].
  intros w h ->.
  repeat match type of Hs with
         | _ && _ = true => apply andb_prop in Hs; destruct Hs as [Hs ?]
         end.
  repeat match goal with
         | H : (_ <=? _) = true |- _ => apply Z.leb_le in H
         | H : (_ <? _) = true |- _ => apply Z.ltb_lt in H
         end.
  assert (x1 <= (x1 + x2) / 2) by (apply Z.div_le_lower_bound; lia).
  assert ((x1 + x2) / 2 < x2) by (apply Z.div_lt_upper_bound; lia).
  assert (y1 <= (y1 + y2) / 2) by (apply Z.div_le_lower_bound; lia).
  assert ((y1 + y2) / 2 < y2) by (apply Z.div_lt_upper_bound; lia).
  lia.
Qed.

Lemma activation_clicks_checked_element_witness :
  true = true
  /\ exists e,
       snd (RecognitionController.get_current_element Scenarios.navigating_controller)
       = Ok (Some e)
       /\ actionable e = true
       /\ (is_uncertain e = true ->
           GlobalPlugin.AnswerNo = GlobalPlugin.AnswerYes
           \/ GlobalPlugin.AnswerNo = GlobalPlugin.NoDialog)
       /\ center_x e = Ok 40 /\ center_y e = Ok 15
       /\ exists x1 y1 x2 y2,
            bbox e = [x1; y1; x2; y2]
            /\ forall w h, Some (1920, 1080) = Some (w, h) ->
                           0 <= x1 <= 40 /\ 40 < x2 <= w
                           /\ 0 <= y1 <= 15 /\ 15 < y2 <= h.
Proof.
  apply (activation_clicks_checked_element true Scenarios.navigating_controller
           GlobalPlugin.AnswerNo (Some (1920, 1080)) 40 15).
  reflexivity.
Defined.

(** ** The worker and the cursor of the controller *)

(** X11. One request of [_recognition_worker] hands [_call_on_main_thread] at
    most one call of [callback] or [error_callback], and exactly one when
    it is not cancelled.  The current result
    and the cursor change exactly with a success callback, to its result
    and to index 0; what the controller was configured with stays.  The
    engine is reached only after a capture that succeeded and a miss of
    the cache; a hit of the cache is what the callback gets. *)
Theorem worker_hands_over_one_result :
  forall (self : RecognitionController.t) (env : RecognitionController.worker_env),
    let out := RecognitionController._recognition_worker self env in
    let self' := fst (fst out) in
    let handed := snd (fst out) in
    (List.length handed <= 1)%nat
    /\ (RecognitionController.cancelled_after_capture env = false ->
        RecognitionController.cancelled_before_inference env = false ->
        RecognitionController.cancelled_after_inference env = false ->
        List.length handed = 1%nat)
    /\ (forall r, In (RecognitionController.Callback r) handed ->
                  RecognitionController._current_result self' = Some r
                  /\ RecognitionController._current_element_index self' = 0)
    /\ ((forall r, ~ In (RecognitionController.Callback r) handed) ->
        RecognitionController._current_result self'
        = RecognitionController._current_result self
        /\ RecognitionController._current_element_index self'
           = RecognitionController._current_element_index self)
    /\ (snd out <> [] ->
        exists screenshot,
          RecognitionController.capture env = Ok screenshot
          /\ snd (CacheManager.get (RecognitionController.cache_manager self)
                    screenshot (RecognitionController.cache_clock env)
                    (RecognitionController.uuid_parse env)) = None)
    /\ (forall screenshot cached,
          RecognitionController.capture env = Ok screenshot ->
          RecognitionController.cancelled_after_capture env = false ->
          snd (CacheManager.get (RecognitionController.cache_manager self)
                 screenshot (RecognitionController.cache_clock env)
                 (RecognitionController.uuid_parse env)) = Some cached ->
          handed = [RecognitionController.Callback cached] /\ snd out = [])
    /\ RecognitionController.confidence_threshold self'
       = RecognitionController.confidence_threshold self
    /\ RecognitionController.inference_timeout self'
       = RecognitionController.inference_timeout self.
Proof.
  intros self env out self' handed. subst self' handed out.
  unfold RecognitionController._recognition_worker.
  destruct (RecognitionController.capture env) as [sc|e];
    [destruct (RecognitionController.cancelled_after_capture env) eqn:C1;
     [|destruct (CacheManager.get (RecognitionController.cache_manager self) sc
                   (RecognitionController.cache_clock env)
                   (RecognitionController.uuid_parse env)) as [cm1 [cached|]] eqn:G;
       [|destruct (RecognitionController.cancelled_before_inference env) eqn:C2;
         [|cbn [RecognitionController.vision_engine
                  RecognitionController.with_manager];
           destruct (RecognitionController.vision_engine self) as [engine|];
           [destruct (VisionEngine.infer_with_fallback engine sc _ _)
              as [[[els src] engine'] evs];
            destruct (RecognitionController.cancelled_after_inference env) eqn:C3;
            [|destruct (ResultProcessor.process _ _ _ _ _ _ _ _) as [result|e]]|]]]]|];
    repeat split; intros; simpl in *;
    repeat match goal with
           | H : Ok _ = Ok _ |- _ => inversion H; subst; clear H
           | G : CacheManager.get _ _ _ _ = _, H : context [CacheManager.get] |- _ =>
               rewrite G in H; simpl in H
           | G : CacheManager.get _ _ _ _ = _ |- context [CacheManager.get] =>
               rewrite G; simpl
           | H : _ \/ _ |- _ => destruct H
           | H : False |- _ => contradiction
           | H : RecognitionController.Callback _ = RecognitionController.Callback _ |- _ =>
               injection H as <-
           | H : RecognitionController.ErrorCallback _ = RecognitionController.Callback _ |- _ =>
               discriminate H
           end;
    try lia; try congruence; try reflexivity;
    try (exfalso;
         match goal with
         | H : forall r, ~ _ |- _ => eapply H; left; reflexivity
         end);
    try (eexists; split; [reflexivity|];
         match goal with
         | G : CacheManager.get _ _ _ _ = _ |- _ => rewrite G; reflexivity
         end).
Qed.

Section Walk.

Import RecognitionController.

Variable r : RecognitionResult.

Hypothesis has_elements : elements r <> [].

Local Abbreviation n := (Z.of_nat (List.length (elements r))).

Lemma current_on_element (self : t) :
  on_element r self ->
  exists e, nth_error (elements r) (Z.to_nat (_current_element_index self)) = Some e
            /\ get_current_element self = (self, Ok (Some e)).
Proof.
  intros [Hr Hi]. unfold get_current_element.
  rewrite Hr, (match_nonempty r has_elements).
  destruct (_current_element_index self <? 0) eqn:E1; [apply Z.ltb_lt in E1; lia|].
  destruct (_current_element_index self >=? n) eqn:E2; [apply Z.geb_le in E2; lia|].
  simpl.
  destruct (getitem_in_range (elements r) (_current_element_index self))
    as (e & He & Hn); [lia|].
  exists e. split; [exact Hn|]. rewrite He. reflexivity.
Qed.

Lemma walk_forward (k : nat) : forall (self : t) (i : Z),
  _current_result self = Some r ->
  0 <= i -> i + Z.of_nat k = n - 1 ->
  map fst (snd (cursor_run (with_index self i) (repeat Next (S k))))
  = map (fun e => Ok (Some e)) (skipn (Z.to_nat (i + 1)) (elements r)) ++ [Ok None].
Proof.
  induction k as [|k IH]; intros self i Hr Hi Hk.
  - replace i with (n - 1) by lia.
    cbn [repeat cursor_run cursor_step].
    rewrite (next_at_end r has_elements self Hr). simpl.
    rewrite skipn_all2 by lia. reflexivity.
  - change (repeat Next (S (S k))) with (Next :: repeat Next (S k)).
    cbn [cursor_run cursor_step].
    destruct (next_inside r has_elements self i Hr) as (e & He & ->); [lia|].
    assert (Hr' : _current_result (with_index self (i + 1)) = Some r) by exact Hr.
    specialize (IH (with_index self (i + 1)) (i + 1) Hr').
    assert (Hw : with_index (with_index self (i + 1)) (i + 1) = with_index self (i + 1))
      by reflexivity.
    rewrite Hw in IH.
    destruct (cursor_run (with_index self (i + 1)) (repeat Next (S k)))
      as [self2 outs].
    cbn [snd map fst]. cbn [snd] in IH. rewrite IH by lia.
    assert (Hs : skipn (Z.to_nat (i + 1)) (elements r)
                 = e :: skipn (Z.to_nat (i + 1 + 1)) (elements r)).
    { replace (Z.to_nat (i + 1 + 1)) with (S (Z.to_nat (i + 1))) by lia.
      revert He. generalize (Z.to_nat (i + 1)). generalize (elements r).
      clear. induction l as [|a l IHl]; intros [|m] H; try discriminate.
      - injection H as ->. reflexivity.
      - change (skipn m l = e :: skipn (S m) l). apply IHl. exact H. }
    rewrite Hs. reflexivity.
Qed.

End Walk.

(** X12. After a result with elements has arrived, reading the current element
    and then pressing next once for every element announces the elements
    of the result one by one in their order, and the last press, at the
    end of the list, returns [None]. *)
Theorem next_visits_every_element :
  forall (self : RecognitionController.t) (r : RecognitionResult),
    elements r <> [] ->
    map fst
      (snd (RecognitionController.cursor_run
              (RecognitionController.with_result self r)
              (RecognitionController.Current
                 :: repeat RecognitionController.Next (List.length (elements r)))))
    = map (fun e => Ok (Some e)) (elements r) ++ [Ok None].
Proof.
  intros self r Hne.
  cbn [RecognitionController.cursor_run RecognitionController.cursor_step].
  destruct (current_on_element r Hne (RecognitionController.with_result self r))
    as (e & He & ->).
  { split; [reflexivity|].
    cbn [RecognitionController._current_element_index
           RecognitionController.with_result].
    destruct (elements r); [contradiction | cbn [List.length]; lia]. }
  assert (Hlen : exists k, List.length (elements r) = S k).
  { destruct (elements r) as [|a l]; [contradiction|]. exists (List.length l).
    reflexivity. }
  destruct Hlen as [k Hk].
  pose proof (walk_forward r Hne k (RecognitionController.with_result self r) 0
                eq_refl) as W.
  assert (Hw : RecognitionController.with_index
                 (RecognitionController.with_result self r) 0
               = RecognitionController.with_result self r) by reflexivity.
  rewrite Hw in W. rewrite Hk.
  destruct (RecognitionController.cursor_run
              (RecognitionController.with_result self r)
              (repeat RecognitionController.Next (S k))) as [self2 outs].
  cbn [snd map fst]. cbn [snd] in W. rewrite W by lia.
  simpl in He. simpl.
  destruct (elements r) as [|a l]; [contradiction|].
  simpl in He. injection He as ->. reflexivity.
Qed.

Lemma next_visits_every_element_witness :
  map fst
    (snd (RecognitionController.cursor_run
            (RecognitionController.with_result (Scenarios.controller_with None)
               Scenarios.navigation_result)
            (RecognitionController.Current
               :: repeat RecognitionController.Next
                    (List.length (elements Scenarios.navigation_result)))))
  = map (fun e => Ok (Some e)) (elements Scenarios.navigation_result) ++ [Ok None].
Proof.
  apply (next_visits_every_element (Scenarios.controller_with None)
           Scenarios.navigation_result).
  discriminate.
Defined.

(** X13. Inside the list, previous undoes next: from a cursor that is on an
    element and not on the last one, [get_next_element] followed by
    [get_previous_element] leaves the controller as it was and returns the
    element the cursor was on, which is what [get_current_element]
    returns there. *)
Theorem previous_undoes_next :
  forall (self : RecognitionController.t) (r : RecognitionResult),
    RecognitionController.on_element r self ->
    RecognitionController._current_element_index self
    < Z.of_nat (List.length (elements r)) - 1 ->
    let after_next := fst (RecognitionController.get_next_element self) in
    RecognitionController.get_previous_element after_next
    = RecognitionController.get_current_element self
    /\ fst (RecognitionController.get_current_element self) = self
    /\ exists e,
         nth_error (elements r)
           (Z.to_nat (RecognitionController._current_element_index self)) = Some e
         /\ snd (RecognitionController.get_current_element self) = Ok (Some e).
Proof.
  intros self r Hon Hlt after_next. subst after_next.
  assert (Hne : elements r <> []).
  { destruct Hon as [_ Hi]. destruct (elements r); [simpl in *; lia | discriminate]. }
  destruct (current_on_element r Hne self Hon) as (e & He & Hc).
  destruct Hon as [Hr Hi].
  rewrite Hc. cbn [fst snd].
  split; [|split; [reflexivity | exists e; split; [exact He | reflexivity]]].
  rewrite <- (with_index_same self) at 1.
  destruct (next_inside r Hne self (RecognitionController._current_element_index self) Hr)
    as (e1 & _ & ->); [lia|].
  cbn [fst].
  destruct (previous_inside r Hne self
              (RecognitionController._current_element_index self + 1) Hr)
    as (e0 & He0 & ->); [lia|].
  replace (RecognitionController._current_element_index self + 1 - 1)
    with (RecognitionController._current_element_index self) in * by lia.
  rewrite with_index_same. congruence.
Qed.

Lemma previous_undoes_next_witness :
  RecognitionController.get_previous_element
    (fst (RecognitionController.get_next_element Scenarios.navigating_controller))
  = RecognitionController.get_current_element Scenarios.navigating_controller
  /\ fst (RecognitionController.get_current_element Scenarios.navigating_controller)
     = Scenarios.navigating_controller
  /\ exists e,
       nth_error (elements Scenarios.navigation_result)
         (Z.to_nat (RecognitionController._current_element_index
                      Scenarios.navigating_controller)) = Some e
       /\ snd (RecognitionController.get_current_element
                 Scenarios.navigating_controller) = Ok (Some e).
Proof.
  apply (previous_undoes_next Scenarios.navigating_controller
           Scenarios.navigation_result).
  - split; [reflexivity | simpl; lia].
  - simpl; lia.
Defined.

(** X14. Without a result, or with a result that has no element, the three
    cursor operations return [None] and leave the controller as it is,
    over any run of them. *)
Theorem navigation_without_elements :
  forall (self : RecognitionController.t) (ops : list RecognitionController.cursor_op),
    match RecognitionController._current_result self with
    | None => True
    | Some r => elements r = []
    end ->
    RecognitionController.cursor_run self ops
    = (self, map (fun _ => (Ok None,
                            RecognitionController._current_element_index self)) ops).
Proof.
  intros self ops H.
  assert (Hstep : forall op, RecognitionController.cursor_step self op
                             = (self, Ok None)).
  { intros op.
    destruct op; simpl;
      unfold RecognitionController.get_next_element,
        RecognitionController.get_previous_element,
        RecognitionController.get_current_element;
      destruct (RecognitionController._current_result self) as [r|];
      try reflexivity; rewrite H; reflexivity. }
  induction ops as [|op ops IH]; simpl; [reflexivity|].
  rewrite Hstep, IH. reflexivity.
Qed.

Lemma navigation_without_elements_witness :
  RecognitionController.cursor_run (Scenarios.controller_with None)
    [RecognitionController.Next; RecognitionController.Current;
     RecognitionController.Previous]
  = (Scenarios.controller_with None,
     map (fun _ => (Ok None,
                    RecognitionController._current_element_index
                      (Scenarios.controller_with None)))
       [RecognitionController.Next; RecognitionController.Current;
        RecognitionController.Previous]).
Proof.
  apply (navigation_without_elements (Scenarios.controller_with None)).
  exact I.
Defined.

(** ** The result processor *)

Section ReadingOrder.

Import ResultProcessor.

Lemma key_le_iff (k1 k2 : Z * Z) :
  key_le k1 k2 = true
  <-> fst k1 < fst k2 \/ (fst k1 = fst k2 /\ snd k1 <= snd k2).
Proof.
  unfold key_le.
  destruct (Z.ltb_spec (fst k1) (fst k2)), (Z.eqb_spec (fst k1) (fst k2)),
    (Z.leb_spec (snd k1) (snd k2)); simpl; split; intros Hk;
    try reflexivity; try discriminate; lia.
Qed.

Lemma key_le_total (k1 k2 : Z * Z) : key_le k1 k2 = false -> key_le k2 k1 = true.
Proof.
  intros H. apply key_le_iff.
  destruct (key_le k2 k1) eqn:E; [apply key_le_iff in E; exact E|].
  assert (N1 : ~ (fst k1 < fst k2 \/ (fst k1 = fst k2 /\ snd k1 <= snd k2)))
    by (intros C; apply key_le_iff in C; congruence).
  lia.
Qed.

Lemma key_le_trans (k1 k2 k3 : Z * Z) :
  key_le k1 k2 = true -> key_le k2 k3 = true -> key_le k1 k3 = true.
Proof.
  rewrite !key_le_iff. lia.
Qed.

Context {A : Type}.

Lemma insert_by_key_perm (x : (Z * Z) * A) (l : list ((Z * Z) * A)) :
  Permutation (x :: l) (insert_by_key x l).
Proof.
  induction l as [|y l IH]; simpl; [reflexivity|].
  destruct (key_le (fst y) (fst x)); [|reflexivity].
  eapply perm_trans; [apply perm_swap | apply perm_skip, IH].
Qed.

Lemma insert_by_key_sorted (x : (Z * Z) * A) (l : list ((Z * Z) * A)) :
  StronglySorted (fun a b => key_le (fst a) (fst b) = true) l ->
  StronglySorted (fun a b => key_le (fst a) (fst b) = true) (insert_by_key x l).
Proof.
  induction 1 as [|y l Hs IH Hy]; simpl.
  - constructor; constructor.
  - destruct (key_le (fst y) (fst x)) eqn:E.
    + constructor; [exact IH|].
      eapply Permutation_Forall; [apply insert_by_key_perm|].
      constructor; assumption.
    + apply key_le_total in E.
      constructor; [constructor; assumption|].
      constructor; [exact E|].
      eapply Forall_impl; [|exact Hy].
      intros z Hz. simpl in Hz. eapply key_le_trans; eassumption.
Qed.

Lemma sorted_by_key_fold (l : list ((Z * Z) * A)) : forall acc,
  StronglySorted (fun a b => key_le (fst a) (fst b) = true) acc ->
  Permutation (acc ++ l) (fold_left (fun acc x => insert_by_key x acc) l acc)
  /\ StronglySorted (fun a b => key_le (fst a) (fst b) = true)
       (fold_left (fun acc x => insert_by_key x acc) l acc).
Proof.
  induction l as [|x l IH]; intros acc Hacc; simpl.
  - rewrite app_nil_r. split; [reflexivity | exact Hacc].
  - destruct (IH (insert_by_key x acc) (insert_by_key_sorted x acc Hacc))
      as [P S].
    split; [|exact S].
    eapply perm_trans; [|exact P].
    eapply perm_trans; [symmetry; apply Permutation_middle|].
    apply (Permutation_app_tail l (insert_by_key_perm x acc)).
Qed.

Lemma sorted_by_key_sorts (l : list ((Z * Z) * A)) :
  Permutation l (sorted_by_key l)
  /\ StronglySorted (fun a b => key_le (fst a) (fst b) = true) (sorted_by_key l).
Proof.
  apply (sorted_by_key_fold l []). constructor.
Qed.

End ReadingOrder.

Lemma mapM_Forall2 {A B : Type} (f : A -> pyres B) (l : list A) : forall l',
  mapM f l = Ok l' -> Forall2 (fun a b => f a = Ok b) l l'.
Proof.
  induction l as [|a l IH]; intros l' H; simpl in H.
  - injection H as <-. constructor.
  - destruct (f a) as [b|] eqn:Ea; [|discriminate]. simpl in H.
    destruct (mapM f l) as [bs|]; [|discriminate]. simpl in H.
    injection H as <-. constructor; [exact Ea | apply IH; reflexivity].
Qed.

Lemma mapM_raises {A B : Type} (f : A -> pyres B) (l : list A) :
  is_ok (mapM f l) = forallb (fun a => is_ok (f a)) l.
Proof.
  induction l as [|a l IH]; simpl; [reflexivity|].
  destruct (f a); simpl; [|reflexivity].
  rewrite <- IH. destruct (mapM f l); reflexivity.
Qed.

Lemma Forall2_combine {A B : Type} (R : A -> B -> Prop) (l : list A) (l' : list B) :
  Forall2 R l l' ->
  Forall (fun p => R (snd p) (fst p)) (combine l' l)
  /\ map snd (combine l' l) = l.
Proof.
  induction 1 as [|a b l l' Hab Hl IH]; simpl.
  - split; [constructor | reflexivity].
  - destruct IH as [IH1 IH2]. split; [constructor; assumption|].
    rewrite IH2. reflexivity.
Qed.

Lemma Forall2_Forall {A B : Type} (R : A -> B -> Prop) (P : A -> Prop)
    (Q : B -> Prop) (l : list A) (l' : list B) :
  (forall a b, R a b -> P a -> Q b) ->
  Forall2 R l l' -> Forall P l -> Forall Q l'.
Proof.
  intros HR. induction 1 as [|a b l l' Hab Hl IH]; intros HP.
  - constructor.
  - inversion HP; subst. constructor; [eapply HR; eassumption | apply IH; assumption].
Qed.

Lemma Forall2_map_eq {A B C : Type} (R : A -> B -> Prop) (f : A -> C) (g : B -> C)
    (l : list A) (l' : list B) :
  (forall a b, R a b -> g b = f a) ->
  Forall2 R l l' -> map g l' = map f l.
Proof.
  intros HR. induction 1 as [|a b l l' Hab Hl IH]; simpl; [reflexivity|].
  rewrite IH, (HR a b Hab). reflexivity.
Qed.

Lemma StronglySorted_Forall2 {A B : Type} (R : A -> A -> Prop) (R' : B -> B -> Prop)
    (S : A -> B -> Prop) (l : list A) (l' : list B) :
  (forall a b a' b', S a a' -> S b b' -> R a b -> R' a' b') ->
  Forall2 S l l' -> StronglySorted R l -> StronglySorted R' l'.
Proof.
  intros HS. induction 1 as [|a a' l l' Ha Hl IH]; intros Hs.
  - constructor.
  - inversion Hs as [|? ? Hs' Hall]; subst.
    constructor; [apply IH; exact Hs'|].
    eapply (Forall2_Forall S (R a) (R' a')); [|exact Hl|exact Hall].
    intros b b' Hb Hab. eapply HS; eassumption.
Qed.

Lemma StronglySorted_map_on {A B : Type} (R : A -> A -> Prop) (R' : B -> B -> Prop)
    (P : A -> Prop) (f : A -> B) (l : list A) :
  (forall a b, P a -> P b -> R a b -> R' (f a) (f b)) ->
  Forall P l -> StronglySorted R l -> StronglySorted R' (map f l).
Proof.
  intros HR HP. induction 1 as [|a l Hs IH Hall]; simpl.
  - constructor.
  - inversion HP as [|? ? Pa Pl]; subst.
    constructor; [apply IH; exact Pl|].
    apply Forall_map.
    rewrite Forall_forall in *. intros b Hb.
    apply HR; [exact Pa | apply Pl; exact Hb | apply Hall; exact Hb].
Qed.

Lemma sort_key_bbox (e : UIElement) (k : Z * Z) :
  ResultProcessor.sort_key e = Ok k ->
  exists x1 y1 x2 y2, bbox e = [x1; y1; x2; y2] /\ k = (y1, x1).
Proof.
  unfold ResultProcessor.sort_key.
  destruct (bbox e) as [|x1 [|y1 [|x2 [|y2 [|]]]]]; try discriminate.
  intros H. injection H as <-. exists x1, y1, x2, y2. split; reflexivity.
Qed.

Lemma sort_key_is_ok (e : UIElement) :
  is_ok (ResultProcessor.sort_key e) = (List.length (bbox e) =? 4)%nat.
Proof.
  unfold ResultProcessor.sort_key.
  destruct (bbox e) as [|x1 [|y1 [|x2 [|y2 [|]]]]]; reflexivity.
Qed.

Lemma sort_by_position_spec (l l' : list UIElement) :
  ResultProcessor._sort_by_position l = Ok l' ->
  Permutation l l' /\ StronglySorted Invariants.reading_order l'.
Proof.
  unfold ResultProcessor._sort_by_position.
  destruct (mapM ResultProcessor.sort_key l) as [keys|] eqn:E; [|discriminate].
  simpl. intros H. injection H as <-.
  apply mapM_Forall2 in E.
  destruct (Forall2_combine _ _ _ E) as [Hp Hm].
  destruct (sorted_by_key_sorts (combine keys l)) as [P S].
  split.
  - rewrite <- Hm at 1. apply Permutation_map. exact P.
  - eapply (StronglySorted_map_on _ _
              (fun p => ResultProcessor.sort_key (snd p) = Ok (fst p)));
      [|eapply Permutation_Forall; [exact P | exact Hp]|exact S].
    intros [ka a] [kb b] Ha Hb Hle. simpl in *.
    apply sort_key_bbox in Ha. apply sort_key_bbox in Hb.
    destruct Ha as (x1 & y1 & x2 & y2 & Ba & ->).
    destruct Hb as (x1' & y1' & x2' & y2' & Bb & ->).
    apply key_le_iff in Hle. simpl in Hle.
    exists x1, y1, x2, y2, x1', y1', x2', y2'. repeat split; assumption.
Qed.

(** X15. [_sort_by_position] raises exactly when an element has not four
    coordinates; otherwise it returns the same elements, each as often as
    it came, from top to bottom and on one top edge from left to right. *)
Theorem sort_by_position_is_reading_order :
  forall l : list UIElement,
    is_ok (ResultProcessor._sort_by_position l)
    = forallb (fun e => (List.length (bbox e) =? 4)%nat) l
    /\ forall l', ResultProcessor._sort_by_position l = Ok l' ->
                  Permutation l l'
                  /\ StronglySorted Invariants.reading_order l'.
Proof.
  intros l. split; [|apply sort_by_position_spec].
  unfold ResultProcessor._sort_by_position.
  assert (E : forallb (fun e => (List.length (bbox e) =? 4)%nat) l
              = is_ok (mapM ResultProcessor.sort_key l)).
  { rewrite mapM_raises. induction l as [|e l IH]; simpl; [reflexivity|].
    rewrite IH, sort_key_is_ok. reflexivity. }
  rewrite E. destruct (mapM ResultProcessor.sort_key l); reflexivity.
Qed.

Section ProcessShape.

Import ResultProcessor.

Variable confidence_threshold : Q.

Lemma annotate_element_keeps (e e' : UIElement) :
  annotate_element confidence_threshold e = Ok e' ->
  fields e' = fields e /\ attr_id e' = attr_id e
  /\ (Qlt_bool (confidence e) confidence_threshold = true ->
      In "uncertain" (Scenarios.annotations e')).
Proof.
  unfold annotate_element.
  destruct (Qlt_bool (confidence e) confidence_threshold).
  - destruct (attr_attributes e) as [d|]; [|discriminate].
    destruct (dict_get "annotations" _) as [l|] eqn:G; [|discriminate].
    intros H. injection H as <-.
    split; [reflexivity|]. split; [reflexivity|]. intros _.
    unfold Scenarios.annotations. simpl.
    rewrite dict_get_set. apply in_or_app. right. left. reflexivity.
  - intros H. injection H as <-.
    split; [reflexivity|]. split; [reflexivity|]. discriminate.
Qed.

Lemma assign_ids_keeps (l : list UIElement) : forall i l',
  assign_ids_from i l = Ok l' ->
  Forall2 (fun a b => fields b = fields a
                      /\ attr_attributes b = attr_attributes a
                      /\ Invariants.has_id b) l l'.
Proof.
  induction l as [|e l IH]; intros i l' H; simpl in H.
  - injection H as <-. constructor.
  - destruct (attr_id e) as [s|] eqn:Es; [|discriminate].
    destruct (assign_ids_from (S i) l) as [rest|] eqn:Er; [|discriminate].
    simpl in H. injection H as <-.
    constructor; [|apply (IH (S i)); exact Er].
    destruct (String.eqb_spec s "") as [->|Hne].
    + split; [reflexivity|]. split; [reflexivity|].
      eexists. split; [reflexivity|]. discriminate.
    + split; [reflexivity|]. split; [reflexivity|].
      exists s. split; assumption.
Qed.

Lemma fields_bbox (a b : UIElement) : fields b = fields a -> bbox b = bbox a.
Proof. intros H. apply (f_equal bbox) in H. exact H. Qed.

Lemma fields_confidence (a b : UIElement) :
  fields b = fields a -> confidence b = confidence a.
Proof. intros H. apply (f_equal confidence) in H. exact H. Qed.

Lemma keep_element_fields (a b : UIElement) :
  fields b = fields a -> keep_element b = keep_element a.
Proof.
  intros H. unfold keep_element.
  rewrite (fields_bbox a b H), (fields_confidence a b H). reflexivity.
Qed.

(** What the stages of [process] do to the elements, when none of them
    raises. *)
Lemma assign_ids_reads (l : list UIElement) : forall i l',
  assign_ids_from i l = Ok l' -> Forall (fun e => attr_id e <> None) l.
Proof.
  induction l as [|e l IH]; intros i l' H; simpl in H; [constructor|].
  destruct (attr_id e) as [s|] eqn:Es; [|discriminate].
  destruct (assign_ids_from (S i) l) as [rest|] eqn:Er; [|discriminate].
  constructor; [rewrite Es; discriminate | apply (IH (S i) rest); exact Er].
Qed.

(** [process] reads the [id] of every element the filter keeps. *)
Lemma process_reads_ids (elements : list UIElement) (screenshot : Screenshot)
    (model_name : string) (inference_time : Q) (source : InferenceSource)
    (fresh_uuid : string) (now : datetime) (r : RecognitionResult) :
  process confidence_threshold elements screenshot model_name inference_time
    source fresh_uuid now = Ok r ->
  Forall (fun e => attr_id e <> None) (_filter_invalid elements).
Proof.
  unfold process, _annotate_uncertainty.
  destruct (mapM (annotate_element confidence_threshold) (_filter_invalid elements))
    as [annotated|] eqn:Ea; [|discriminate]. simpl.
  destruct (_sort_by_position annotated) as [sorted|] eqn:Es; [|discriminate].
  simpl. unfold _assign_ids.
  destruct (assign_ids_from 0 sorted) as [ids|] eqn:Ei; [|discriminate].
  intros _.
  destruct (sort_by_position_spec annotated sorted Es) as [P _].
  pose proof (assign_ids_reads sorted 0 ids Ei) as Hs.
  pose proof (Permutation_Forall (Permutation_sym P) Hs) as Ha.
  apply mapM_Forall2 in Ea. clear - Ea Ha.
  induction Ea as [|a b l l' Hab Hl IH]; [constructor|].
  inversion Ha; subst. constructor; [|apply IH; assumption].
  destruct (annotate_element_keeps a b Hab) as (_ & <- & _). assumption.
Qed.

(** From elements as the constructor builds them, without [id], the only
    result [process] returns is the one without elements. *)
Lemma process_of_constructed (elements : list UIElement) (screenshot : Screenshot)
    (model_name : string) (inference_time : Q) (source : InferenceSource)
    (fresh_uuid : string) (now : datetime) (r : RecognitionResult) :
  process confidence_threshold elements screenshot model_name inference_time
    source fresh_uuid now = Ok r ->
  Forall (fun e => attr_id e = None) elements ->
  _filter_invalid elements = [].
Proof.
  intros H Hnone.
  pose proof (process_reads_ids elements screenshot model_name inference_time
                source fresh_uuid now r H) as Hid.
  destruct (_filter_invalid elements) as [|e l] eqn:F; [reflexivity|].
  exfalso. inversion Hid as [|? ? He _]; subst. apply He.
  assert (Hin : In e elements).
  { assert (Hf : In e (_filter_invalid elements))
      by (rewrite F; left; reflexivity).
    unfold _filter_invalid in Hf. apply filter_In in Hf. apply Hf. }
  exact (proj1 (Forall_forall _ _) Hnone e Hin).
Qed.

Lemma process_stages (elements : list UIElement) (screenshot : Screenshot)
    (model_name : string) (inference_time : Q) (source : InferenceSource)
    (fresh_uuid : string) (now : datetime) (r : RecognitionResult) :
  process confidence_threshold elements screenshot model_name inference_time
    source fresh_uuid now = Ok r ->
  exists annotated sorted,
    Forall2 (fun a b => annotate_element confidence_threshold a = Ok b)
      (_filter_invalid elements) annotated
    /\ Permutation annotated sorted
    /\ StronglySorted Invariants.reading_order sorted
    /\ Forall2 (fun a b => fields b = fields a
                           /\ attr_attributes b = attr_attributes a
                           /\ Invariants.has_id b) sorted (Schemas.elements r)
    /\ r = mkRecognitionResult fresh_uuid (hash screenshot) (Schemas.elements r)
             model_name inference_time
             (_determine_status confidence_threshold (Schemas.elements r))
             source now (Some (now + timedelta_seconds CACHE_TTL)) None
    /\ Qlt_bool inference_time 0 = false.
Proof.
  unfold process, _annotate_uncertainty.
  destruct (mapM (annotate_element confidence_threshold) (_filter_invalid elements))
    as [annotated|] eqn:Ea; [|discriminate]. simpl.
  destruct (_sort_by_position annotated) as [sorted|] eqn:Es; [|discriminate].
  simpl. unfold _assign_ids.
  destruct (assign_ids_from 0 sorted) as [ids|] eqn:Ei; [|discriminate].
  simpl. unfold RecognitionResult_init.
  destruct (Qlt_bool inference_time 0) eqn:Et; [discriminate|].
  intros H. injection H as <-.
  exists annotated, sorted.
  destruct (sort_by_position_spec annotated sorted Es) as [P S].
  split; [apply mapM_Forall2; exact Ea|].
  split; [exact P|]. split; [exact S|].
  split; [apply (assign_ids_keeps sorted 0); exact Ei|].
  split; [|reflexivity].
  simpl. destruct (String.eqb fresh_uuid ""); reflexivity.
Qed.

End ProcessShape.

(** X16. Whenever [process] returns a result, its elements are the elements of
    the input that pass the test of [_filter_invalid], each as often as it
    came and with its declared fields unchanged, they stand in reading
    order, from top to bottom and on one top edge from left to right, and
    each of them passes the test of the filter again.  Every element the
    filter keeps had its [id] read, an attribute the constructor does not
    set: from elements as the constructor builds them, the only result
    [process] returns is the one without elements. *)
Theorem process_keeps_valid_elements_in_reading_order :
  forall (confidence_threshold : Q) (elements : list UIElement)
         (screenshot : Screenshot) (model_name : string) (inference_time : Q)
         (source : InferenceSource) (fresh_uuid : string) (now : datetime)
         (r : RecognitionResult),
    ResultProcessor.process confidence_threshold elements screenshot model_name
      inference_time source fresh_uuid now = Ok r ->
    Permutation (map fields (ResultProcessor._filter_invalid elements))
      (map fields (Schemas.elements r))
    /\ StronglySorted Invariants.reading_order (Schemas.elements r)
    /\ Forall (fun e => ResultProcessor.keep_element e = true) (Schemas.elements r)
    /\ Forall (fun e => attr_id e <> None)
         (ResultProcessor._filter_invalid elements)
    /\ (Forall (fun e => attr_id e = None) elements -> Schemas.elements r = []).
Proof.
  intros th elements screenshot model_name inference_time source fresh_uuid
    now r H.
  destruct (process_stages th elements screenshot model_name inference_time
              source fresh_uuid now r H)
    as (annotated & sorted & Ha & P & S & Hi & _ & _).
  pose proof (process_reads_ids th elements screenshot model_name inference_time
                source fresh_uuid now r H) as Hid.
  assert (Fa : map fields annotated
               = map fields (ResultProcessor._filter_invalid elements)).
  { apply (Forall2_map_eq _ fields fields _ _
             (fun a b Hab => proj1 (annotate_element_keeps th a b Hab)) Ha). }
  assert (Fi : map fields (Schemas.elements r) = map fields sorted).
  { apply (Forall2_map_eq _ fields fields _ _ (fun a b Hab => proj1 Hab) Hi). }
  assert (HP : Permutation (map fields (ResultProcessor._filter_invalid elements))
                 (map fields (Schemas.elements r))).
  { rewrite Fi, <- Fa. apply Permutation_map. exact P. }
  split; [exact HP|]. split; [|split; [|split; [exact Hid|]]].
  - eapply (StronglySorted_Forall2 _ _ _ _ _ _ Hi S).
  - eapply (Forall2_Forall _ (fun e => ResultProcessor.keep_element e = true)
              _ _ _ _ Hi).
    eapply Permutation_Forall; [exact P|].
    eapply (Forall2_Forall _ (fun e => ResultProcessor.keep_element e = true)
              _ _ _ _ Ha).
    unfold ResultProcessor._filter_invalid.
    apply Forall_forall. intros e He. apply filter_In in He. apply He.
  - intros Hnone.
    pose proof (process_of_constructed th elements screenshot model_name
                  inference_time source fresh_uuid now r H Hnone) as E.
    rewrite E in HP. apply Permutation_nil in HP.
    destruct (Schemas.elements r); [reflexivity | discriminate].
  Unshelve.
  + intros a b a' b' Sa Sb (x1 & y1 & x2 & y2 & x1' & y1' & x2' & y2' & Ba & Bb & Hle).
    exists x1, y1, x2, y2, x1', y1', x2', y2'.
    rewrite (fields_bbox _ _ (proj1 Sa)), (fields_bbox _ _ (proj1 Sb)).
    repeat split; assumption.
  + intros a b Hab Pa. simpl in *.
    rewrite (keep_element_fields _ _ (proj1 Hab)). exact Pa.
  + intros a b Hab Pa. simpl in *.
    rewrite (keep_element_fields _ _ (proj1 (annotate_element_keeps th a b Hab))).
    exact Pa.
Qed.

Lemma process_keeps_valid_elements_in_reading_order_witness :
  exists r,
    ResultProcessor.process (7 # 10)
      [Scenarios.ok_button_with_attributes (1 # 2);
       mkUIElement "button" "Cancel" [10; 20; 90; 50] (9 # 10) None None true 0
         (Some "") (Some []);
       mkUIElement "text" "" [5; 5; 5; 9] (9 # 10) None None false 0
         (Some "") (Some [])]
      Scenarios.active_window "UI-TARS 7B" (3 # 2) LOCAL_GPU
      "22222222-2222-4222-8222-222222222222" 0 = Ok r
    /\ Permutation
         (map fields
            (ResultProcessor._filter_invalid
               [Scenarios.ok_button_with_attributes (1 # 2);
                mkUIElement "button" "Cancel" [10; 20; 90; 50] (9 # 10) None None
                  true 0 (Some "") (Some []);
                mkUIElement "text" "" [5; 5; 5; 9] (9 # 10) None None false 0
                  (Some "") (Some [])]))
         (map fields (elements r))
    /\ StronglySorted Invariants.reading_order (elements r)
    /\ Forall (fun e => ResultProcessor.keep_element e = true) (elements r).
Proof.
  eexists. split; [vm_compute; reflexivity|].
  destruct (process_keeps_valid_elements_in_reading_order (7 # 10)
              [Scenarios.ok_button_with_attributes (1 # 2);
               mkUIElement "button" "Cancel" [10; 20; 90; 50] (9 # 10) None None
                 true 0 (Some "") (Some []);
               mkUIElement "text" "" [5; 5; 5; 9] (9 # 10) None None false 0
                 (Some "") (Some [])]
              Scenarios.active_window "UI-TARS 7B" (3 # 2) LOCAL_GPU
              "22222222-2222-4222-8222-222222222222" 0 _ eq_refl)
    as (H1 & H2 & H3 & _).
  split; [exact H1|]. split; [exact H2 | exact H3].
Defined.

(** X17. Whenever [process] returns a result: every element carries a
    non-empty [id]; every element whose confidence is below the threshold
    carries the annotation [uncertain]; the status is FAILURE exactly when
    no element is left, and is never TIMEOUT or CACHE_HIT; the result
    bears the fresh id, the hash of the screenshot, the model name and the
    source it was given, and it expires [CACHE_TTL] seconds after its
    creation. *)
Theorem process_labels_its_result :
  forall (confidence_threshold : Q) (elements : list UIElement)
         (screenshot : Screenshot) (model_name : string) (inference_time : Q)
         (source : InferenceSource) (fresh_uuid : string) (now : datetime)
         (r : RecognitionResult),
    ResultProcessor.process confidence_threshold elements screenshot model_name
      inference_time source fresh_uuid now = Ok r ->
    Forall Invariants.has_id (Schemas.elements r)
    /\ Forall (fun e => Qlt_bool (confidence e) confidence_threshold = true ->
                        In "uncertain" (Scenarios.annotations e))
         (Schemas.elements r)
    /\ (status r = FAILURE <-> Schemas.elements r = [])
    /\ (status r = SUCCESS \/ status r = PARTIAL_SUCCESS \/ status r = FAILURE)
    /\ id r = fresh_uuid /\ screenshot_hash r = hash screenshot
    /\ Schemas.model_name r = model_name /\ Schemas.source r = source
    /\ Schemas.inference_time r = inference_time
    /\ Qlt_bool inference_time 0 = false
    /\ forall t, is_expired t r = (now + timedelta_seconds CACHE_TTL <=? t).
Proof.
  intros th elements screenshot model_name inference_time source fresh_uuid
    now r H.
  destruct (process_stages th elements screenshot model_name inference_time
              source fresh_uuid now r H)
    as (annotated & sorted & Ha & P & S & Hi & Hr & Ht).
  split; [|split].
  - eapply (Forall2_Forall _ (fun _ => True) _ _ _ _ Hi).
    apply Forall_forall. trivial.
  - eapply (Forall2_Forall _
              (fun e => Qlt_bool (confidence e) th = true ->
                        In "uncertain" (Scenarios.annotations e)) _ _ _ _ Hi).
    eapply Permutation_Forall; [exact P|].
    eapply (Forall2_Forall _ (fun _ => True) _ _ _ _ Ha).
    apply Forall_forall. trivial.
  - rewrite Hr. cbn [status Schemas.elements id screenshot_hash Schemas.model_name
                       Schemas.source Schemas.inference_time].
    split.
    { unfold ResultProcessor._determine_status.
      destruct (Schemas.elements r) as [|e l]; [split; reflexivity|].
      destruct (_ =? 0); [split; discriminate|].
      destruct (Qlt_bool _ th); split; discriminate. }
    split.
    { unfold ResultProcessor._determine_status.
      destruct (Schemas.elements r) as [|e l]; [right; right; reflexivity|].
      destruct (_ =? 0); [right; left; reflexivity|].
      destruct (Qlt_bool _ th); [right; left | left]; reflexivity. }
    repeat split; try reflexivity; try exact Ht.
  Unshelve.
  + intros a b (_ & _ & Hid) _. exact Hid.
  + intros a b (Hf & Hat & _) Pa Hlt.
    unfold Scenarios.annotations in *. rewrite Hat.
    apply Pa. rewrite <- (fields_confidence _ _ Hf). exact Hlt.
  + intros a b Hab _ Hlt.
    destruct (annotate_element_keeps th a b Hab) as (Hf & _ & Hu).
    apply Hu. rewrite <- (fields_confidence _ _ Hf). exact Hlt.
Qed.

Lemma process_labels_its_result_witness :
  exists r,
    ResultProcessor.process (7 # 10)
      [Scenarios.ok_button_with_attributes (1 # 2)]
      Scenarios.active_window "UI-TARS 7B" (3 # 2) LOCAL_GPU
      "22222222-2222-4222-8222-222222222222" 0 = Ok r
    /\ Forall Invariants.has_id (elements r)
    /\ Forall (fun e => Qlt_bool (confidence e) (7 # 10) = true ->
                        In "uncertain" (Scenarios.annotations e))
         (elements r)
    /\ (status r = FAILURE <-> elements r = [])
    /\ (status r = SUCCESS \/ status r = PARTIAL_SUCCESS \/ status r = FAILURE)
    /\ id r = "22222222-2222-4222-8222-222222222222"
    /\ screenshot_hash r = hash Scenarios.active_window
    /\ model_name r = "UI-TARS 7B" /\ source r = LOCAL_GPU
    /\ inference_time r = (3 # 2)
    /\ Qlt_bool (3 # 2) 0 = false
    /\ forall t, is_expired t r = (0 + timedelta_seconds CACHE_TTL <=? t).
Proof.
  eexists. split; [vm_compute; reflexivity|].
  apply (process_labels_its_result (7 # 10)
           [Scenarios.ok_button_with_attributes (1 # 2)]
           Scenarios.active_window "UI-TARS 7B" (3 # 2) LOCAL_GPU
           "22222222-2222-4222-8222-222222222222" 0).
  vm_compute. reflexivity.
Defined.

(** ** The constraints of the schema over the life of a store *)

Section StoreInvariant.

Import CacheDatabase.

Lemma sorted_map_filter {A : Type} (key : A -> Z) (f : A -> A) (p : A -> bool)
    (l : list A) :
  (forall a, key (f a) = key a) ->
  StronglySorted (fun a b => key a < key b) l ->
  StronglySorted (fun a b => key a < key b) (map f (filter p l)).
Proof.
  intros Hf. induction 1 as [|a l Hs IH Hall]; simpl; [constructor|].
  destruct (p a); simpl; [|exact IH].
  constructor; [exact IH|].
  rewrite Forall_forall in *. intros x Hx.
  apply in_map_iff in Hx. destruct Hx as (y & <- & Hy).
  apply filter_In in Hy. rewrite !Hf. apply Hall. apply Hy.
Qed.

Lemma table_ok_map_filter {A : Type} (key : A -> Z) (c : Z) (f : A -> A)
    (p : A -> bool) (l : list A) :
  (forall a, key (f a) = key a) ->
  Invariants.table_ok key c l -> Invariants.table_ok key c (map f (filter p l)).
Proof.
  intros Hf [Hs Hb]. split; [apply sorted_map_filter; assumption|].
  rewrite Forall_forall in *. intros x Hx.
  apply in_map_iff in Hx. destruct Hx as (y & <- & Hy).
  apply filter_In in Hy. rewrite Hf. apply Hb. apply Hy.
Qed.

Lemma table_ok_filter {A : Type} (key : A -> Z) (c : Z) (p : A -> bool)
    (l : list A) :
  Invariants.table_ok key c l -> Invariants.table_ok key c (filter p l).
Proof.
  intros H. rewrite <- (map_id (filter p l)).
  apply table_ok_map_filter; [reflexivity | exact H].
Qed.

Lemma filter_all {A : Type} (l : list A) : filter (fun _ => true) l = l.
Proof. induction l as [|a l IH]; simpl; [|rewrite IH]; reflexivity. Qed.

Lemma table_ok_map {A : Type} (key : A -> Z) (c : Z) (f : A -> A) (l : list A) :
  (forall a, key (f a) = key a) ->
  Invariants.table_ok key c l -> Invariants.table_ok key c (map f l).
Proof.
  intros Hf H. rewrite <- (filter_all l).
  apply table_ok_map_filter; assumption.
Qed.

Lemma sorted_snoc {A : Type} (R : A -> A -> Prop) (l : list A) (x : A) :
  StronglySorted R l -> Forall (fun a => R a x) l -> StronglySorted R (l ++ [x]).
Proof.
  induction 1 as [|a l Hs IH Hall]; intros Hx; simpl.
  - constructor; constructor.
  - inversion Hx as [|? ? Hax Hlx]; subst.
    constructor; [apply IH; exact Hlx|].
    apply Forall_app. split; [exact Hall | constructor; [exact Hax | constructor]].
Qed.

Lemma table_ok_snoc {A : Type} (key : A -> Z) (c : Z) (l : list A) (x : A) :
  0 <= c -> key x = c + 1 ->
  Invariants.table_ok key c l -> Invariants.table_ok key (c + 1) (l ++ [x]).
Proof.
  intros Hc Hx [Hs Hb]. split.
  - apply sorted_snoc; [exact Hs|].
    eapply Forall_impl; [|exact Hb]. intros a Ha. simpl in *. lia.
  - apply Forall_app. split.
    + eapply Forall_impl; [|exact Hb]. intros a Ha. simpl in *. lia.
    + constructor; [lia | constructor].
Qed.

Lemma table_ok_in {A : Type} (key : A -> Z) (c : Z) (l : list A) (x : A) :
  Invariants.table_ok key c l -> In x l -> 0 < key x <= c.
Proof.
  intros [_ Hb] Hx. rewrite Forall_forall in Hb. apply Hb. exact Hx.
Qed.

Lemma hashes_stay_unique (keep : screenshot_row -> bool) (rows : list screenshot_row) :
  NoDup (map sha256_hash rows) -> NoDup (map sha256_hash (filter keep rows)).
Proof.
  intros Hu. induction rows as [|row rows IH]; simpl; [constructor|].
  simpl in Hu. apply NoDup_cons_iff in Hu. destruct Hu as [Hnew Hrest].
  destruct (keep row); simpl; [|exact (IH Hrest)].
  apply NoDup_cons_iff. split; [|exact (IH Hrest)].
  intros Hin. apply Hnew.
  apply in_map_iff in Hin. destruct Hin as (other & Hh & Hf).
  apply in_map_iff. exists other. split; [exact Hh|].
  apply filter_In in Hf. exact (proj1 Hf).
Qed.

Lemma hash_not_stored (h : string) (rows : list screenshot_row) :
  existsb (fun s => String.eqb (sha256_hash s) h) rows = false ->
  ~ In h (map sha256_hash rows).
Proof.
  induction rows as [|r rows IH]; simpl; intros H; [tauto|].
  apply orb_false_iff in H. destruct H as [H1 H2].
  intros [Heq|Hin]; [|exact (IH H2 Hin)].
  rewrite Heq, String.eqb_refl in H1. discriminate.
Qed.

Lemma delete_elements_of_row (gone : list Z) (e : element_row) :
  let e' := match parent_element_id e with
            | Some p =>
                if mem p gone then
                  mkElementRow (e_id e) (result_id e) (e_element_type e)
                    (text_content e) (x1 e) (y1 e) (x2 e) (y2 e) (e_confidence e)
                    (e_actionable e) None (e_created e)
                else e
            | None => e
            end in
  e_id e' = e_id e /\ result_id e' = result_id e /\ e_confidence e' = e_confidence e.
Proof.
  simpl. destruct (parent_element_id e) as [p|]; [destruct (mem p gone)|];
    repeat split.
Qed.

Lemma well_formed_delete_results (db : t) (rids : list Z) :
  Invariants.well_formed db -> Invariants.well_formed (delete_results db rids).
Proof.
  intros [Hc Hs Hr He Hu Hsc Hrc Hec]. unfold delete_results.
  constructor; simpl; try assumption.
  - apply table_ok_filter. exact Hr.
  - destruct (foreign_keys db); [|exact He].
    unfold delete_elements_of. apply table_ok_map_filter; [|exact He].
    intros e. apply (delete_elements_of_row _ e).
  - rewrite Forall_forall in *. intros r Hin. apply filter_In in Hin.
    apply Hrc. apply Hin.
  - destruct (foreign_keys db); [|exact Hec].
    unfold delete_elements_of.
    rewrite Forall_forall in *. intros e Hin.
    apply in_map_iff in Hin. destruct Hin as (e0 & <- & Hin).
    apply filter_In in Hin. destruct Hin as [Hin _].
    destruct (delete_elements_of_row
                (map e_id (filter (fun e => mem (result_id e) rids) (ui_elements db)))
                e0) as (_ & -> & ->).
    apply Hec. exact Hin.
Qed.

Lemma well_formed_delete_screenshots (db : t) (sids : list Z) :
  Invariants.well_formed db -> Invariants.well_formed (delete_screenshots db sids).
Proof.
  intros H. unfold delete_screenshots.
  assert (H1 : Invariants.well_formed
                 (mkDb (foreign_keys db)
                    (filter (fun s => negb (mem (s_id s) sids)) (screenshots db))
                    (recognition_results db) (ui_elements db)
                    (seq_screenshots db) (seq_results db) (seq_elements db))).
  { destruct H as [Hc Hs Hr He Hu Hsc Hrc Hec].
    constructor; simpl; try assumption.
    - apply table_ok_filter. exact Hs.
    - apply hashes_stay_unique. exact Hu.
    - rewrite Forall_forall in *. intros s Hin. apply filter_In in Hin.
      apply Hsc. apply Hin. }
  destruct (foreign_keys db); [|exact H1].
  apply well_formed_delete_results. exact H1.
Qed.

Lemma well_formed_cleanup (db : t) (now : datetime) :
  Invariants.well_formed db -> Invariants.well_formed (fst (_cleanup_expired db now)).
Proof.
  intros H. unfold _cleanup_expired. simpl.
  apply well_formed_delete_screenshots. exact H.
Qed.

Lemma well_formed_connect (file : t) :
  Invariants.well_formed file -> Invariants.well_formed (connect file).
Proof.
  intros [Hc Hs Hr He Hu Hsc Hrc Hec]. constructor; assumption.
Qed.

Lemma well_formed_empty : Invariants.well_formed empty.
Proof.
  constructor; simpl; try constructor; try lia; try constructor; try lia;
    constructor.
Qed.

Lemma well_formed_evict (db : t) (keep_count : Z) :
  Invariants.well_formed db -> Invariants.well_formed (_evict_lru db keep_count).
Proof.
  intros H. unfold _evict_lru.
  destruct (_ <=? keep_count); [exact H|].
  apply well_formed_delete_results. exact H.
Qed.

Lemma touch_row (now : datetime) (rid : Z) (r : result_row) :
  r_id (touch now rid r) = r_id r
  /\ screenshot_id (touch now rid r) = screenshot_id r
  /\ inference_time_ms (touch now rid r) = inference_time_ms r
  /\ confidence_score (touch now rid r) = confidence_score r
  /\ element_count (touch now rid r) = element_count r
  /\ result_json (touch now rid r) = result_json r
  /\ hit_count (touch now rid r)
     = hit_count r + (if r_id r =? rid then 1 else 0).
Proof.
  unfold touch. destruct (r_id r =? rid); simpl; repeat split; lia.
Qed.

Lemma well_formed_lookup (db : t) (h : string) (q u : datetime) :
  Invariants.well_formed db -> Invariants.well_formed (fst (lookup_cache db h q u)).
Proof.
  intros H. unfold lookup_cache.
  destruct (select_newest db h q) as [row|]; [|exact H]. simpl.
  destruct H as [Hc Hs Hr He Hu Hsc Hrc Hec].
  constructor; simpl; try assumption.
  - apply table_ok_map; [|exact Hr]. intros r. apply touch_row.
  - rewrite Forall_forall in *. intros r Hin.
    apply in_map_iff in Hin. destruct Hin as (r0 & <- & Hin).
    destruct (touch_row u (r_id row) r0) as (_ & -> & -> & -> & -> & _ & ->).
    specialize (Hrc r0 Hin). destruct (r_id r0 =? r_id row); lia || intuition lia.
Qed.

Lemma well_formed_insert_screenshot (db : t) (h : string) (w hg : Z)
    (window : string) (now expires : datetime) (utc : Z) :
  Invariants.well_formed db ->
  Invariants.well_formed (insert_or_ignore_screenshot db h w hg window now expires utc).
Proof.
  intros H. unfold insert_or_ignore_screenshot.
  destruct (existsb _ (screenshots db)) eqn:E; [exact H|]. simpl.
  destruct (0 <? w) eqn:Ew; [|exact H]. simpl.
  destruct (0 <? hg) eqn:Eh; [|exact H]. simpl.
  apply Z.ltb_lt in Ew. apply Z.ltb_lt in Eh.
  destruct H as [Hc Hs Hr He Hu Hsc Hrc Hec].
  constructor; simpl; try assumption.
  - lia.
  - apply table_ok_snoc; [lia | reflexivity | exact Hs].
  - rewrite map_app. simpl.
    eapply Permutation_NoDup; [apply Permutation_cons_append|].
    constructor; [apply hash_not_stored; exact E | exact Hu].
  - apply Forall_app. split; [exact Hsc|]. constructor; [|constructor].
    simpl. lia.
  - eapply Forall_impl; [|exact Hrc]. intros r Hr0. simpl in *. intuition lia.
Qed.

Lemma select_screenshot_id_range (db : t) (h : string) (sid : Z) :
  Invariants.well_formed db ->
  select_screenshot_id db h = Ok sid -> 0 < sid <= seq_screenshots db.
Proof.
  intros H. unfold select_screenshot_id.
  destruct (find _ (screenshots db)) as [s|] eqn:F; [|discriminate].
  intros E. injection E as <-.
  apply find_some in F. destruct F as [Hin _].
  apply (table_ok_in s_id _ _ s (Invariants.wf_screenshots db H) Hin).
Qed.

Lemma well_formed_insert_element (db : t) (rid utc : Z)
    (element : list (string * json)) :
  0 < rid <= seq_results db ->
  Invariants.well_formed db ->
  Invariants.well_formed (fst (insert_element db rid utc element))
  /\ seq_results (fst (insert_element db rid utc element)) = seq_results db.
Proof.
  intros Hrid H. unfold insert_element, guard.
  repeat match goal with
         | |- context [match ?m with Ok _ => _ | Raise _ => _ end] =>
             destruct m; simpl; [|split; [exact H | reflexivity]]
         end.
  match goal with
  | |- context [match ?l with [] => _ | _ :: _ => _ end] =>
      destruct l as [|b0 [|b1 [|b2 [|b3 rest]]]]; simpl;
        try (split; [exact H | reflexivity])
  end.
  destruct (in_unit_interval _) eqn:Ec; simpl; [|split; [exact H | reflexivity]].
  split; [|reflexivity].
  destruct H as [Hc Hs Hr He Hu Hsc Hrc Hec].
  constructor; simpl; try assumption.
  - lia.
  - apply table_ok_snoc; [lia | reflexivity | exact He].
  - apply Forall_app. split; [exact Hec|]. constructor; [|constructor].
    simpl. split; [exact Ec | exact Hrid].
Qed.

Lemma well_formed_insert_elements (elements : list (list (string * json))) :
  forall (db : t) (rid utc : Z),
    0 < rid <= seq_results db ->
    Invariants.well_formed db ->
    Invariants.well_formed (fst (insert_elements db rid utc elements)).
Proof.
  induction elements as [|element rest IH]; intros db rid utc Hrid H; simpl.
  - exact H.
  - destruct (well_formed_insert_element db rid utc element Hrid H) as [H1 H2].
    destruct (insert_element db rid utc element) as [db' [u|e]]; simpl in *.
    + apply IH; [rewrite H2; exact Hrid | exact H1].
    + exact H1.
Qed.

Lemma well_formed_insert_cache (db : t) (h : string) (w hg : Z)
    (rr : list (string * json)) (mn : string) (ttl_minutes max_results : Z)
    (now : datetime) (utc : Z) :
  Invariants.well_formed db ->
  Invariants.well_formed
    (fst (insert_cache db h w hg rr mn ttl_minutes max_results now utc)).
Proof.
  intros H. unfold insert_cache.
  set (db1 := if _ >=? max_results then _evict_lru db max_results else db).
  assert (H1 : Invariants.well_formed db1).
  { subst db1. destruct (_ >=? max_results); [apply well_formed_evict|]; exact H. }
  clearbody db1. clear H db.
  unfold guard at 1.
  destruct (as_str (get_default "source_window" (JStr "Unknown") rr)) as [window|];
    simpl; [|exact H1].
  set (db2 := insert_or_ignore_screenshot db1 h w hg window now
                (now + timedelta_minutes ttl_minutes) utc).
  assert (H2 : Invariants.well_formed db2)
    by (apply well_formed_insert_screenshot; exact H1).
  clearbody db2. clear H1 db1.
  unfold guard at 1.
  destruct (select_screenshot_id db2 h) as [sid|] eqn:Esid; simpl; [|exact H2].
  pose proof (select_screenshot_id_range db2 h sid H2 Esid) as Hsid.
  repeat (unfold guard at 1;
          match goal with
          | |- context [match ?m with Ok _ => _ | Raise _ => _ end] =>
              destruct m; simpl; [|exact H2]
          end).
  match goal with
  | |- context [if ?c then (db2, _) else _] => destruct c eqn:Eg; simpl; [exact H2|]
  end.
  apply orb_false_iff in Eg. destruct Eg as [Eg1 Eg2].
  apply negb_false_iff in Eg1. apply negb_false_iff in Eg2.
  apply Z.leb_le in Eg1.
  apply well_formed_insert_elements; [simpl; destruct H2 as [Hc _]; lia|].
  destruct H2 as [Hc Hs Hr He Hu Hsc Hrc Hec].
  constructor; simpl; try assumption.
  - lia.
  - apply table_ok_snoc; [lia | reflexivity | exact Hr].
  - apply Forall_app. split; [exact Hrc|]. constructor; [|constructor].
    simpl. repeat split; try lia; try exact Eg2.
  - eapply Forall_impl; [|exact Hec]. intros e0 He0. simpl in *. intuition lia.
Qed.

Lemma well_formed_clear (db : t) :
  Invariants.well_formed db -> Invariants.well_formed (clear db).
Proof.
  intros [Hc Hs Hr He Hu Hsc Hrc Hec].
  constructor; simpl; try assumption; try constructor; constructor.
Qed.

Lemma well_formed_step (cm : CacheManager.t) (op : Invariants.store_op) :
  Invariants.well_formed (CacheManager.db cm) ->
  Invariants.well_formed (CacheManager.db (Invariants.store_step cm op)).
Proof.
  intros H. destruct op as [s clk u|s r now utc|now|]; simpl.
  - unfold CacheManager.get.
    pose proof (well_formed_lookup (CacheManager.db cm) (hash s)
                  (CacheManager.at_query clk) (CacheManager.at_update clk) H) as L.
    destruct (lookup_cache _ _ _ _) as [db' [d|]]; simpl in *; [|exact L].
    destruct (RecognitionResult_from_dict _ _ _) as [res|]; simpl; [|exact L].
    destruct (is_expired _ res); exact L.
  - unfold CacheManager.put.
    pose proof (well_formed_insert_cache (CacheManager.db cm) (hash s) (width s)
                  (height s) (RecognitionResult_to_dict r) (model_name r)
                  (CacheManager.ttl_seconds cm / 60) (CacheManager.max_size cm)
                  now utc H) as P.
    destruct (insert_cache _ _ _ _ _ _ _ _ _ _) as [db' out]. exact P.
  - apply well_formed_cleanup. exact H.
  - apply well_formed_clear. exact H.
Qed.

Lemma well_formed_run (ops : list Invariants.store_op) : forall cm,
  Invariants.well_formed (CacheManager.db cm) ->
  Invariants.well_formed (CacheManager.db (Invariants.store_run cm ops)).
Proof.
  unfold Invariants.store_run.
  induction ops as [|op ops IH]; intros cm H; simpl; [exact H|].
  apply IH. apply well_formed_step. exact H.
Qed.

Lemma well_formed_init (file : t) (now : datetime) :
  Invariants.well_formed file -> Invariants.well_formed (init file now).
Proof.
  intros H. unfold init. apply well_formed_cleanup, well_formed_connect. exact H.
Qed.

End StoreInvariant.

(** X18. Every store a manager reaches from a well-formed database file (an
    empty one, for a start), by any sequence of [get], [put], [cleanup]
    and [clear], keeps the constraints of the schema that do not depend on
    the foreign keys: ids in increasing order and not above the
    AUTOINCREMENT counters, one row per hash, positive dimensions,
    confidences in the unit interval, counts and times not negative, and
    references to ids that have been given out. *)
Theorem store_keeps_schema_constraints :
  forall (file : CacheDatabase.t) (ttl_seconds max_size : Z) (now : datetime)
         (ops : list Invariants.store_op),
    Invariants.well_formed file ->
    Invariants.well_formed
      (CacheManager.db
         (Invariants.store_run (CacheManager.init file ttl_seconds max_size now) ops)).
Proof.
  intros file ttl_seconds max_size now ops H.
  apply well_formed_run. simpl. apply well_formed_init. exact H.
Qed.

Lemma store_keeps_schema_constraints_witness :
  Invariants.well_formed
    (CacheManager.db
       (Invariants.store_run (CacheManager.init CacheDatabase.empty 300 2 0)
          [Invariants.Put Scenarios.active_window Scenarios.navigation_result
             (Scenarios.seconds 1) 1;
           Invariants.Get Scenarios.active_window
             (Scenarios.at_time (Scenarios.seconds 2))
             "11111111-1111-4111-8111-111111111111";
           Invariants.Cleanup (Scenarios.seconds 400);
           Invariants.Clear])).
Proof.
  apply (store_keeps_schema_constraints CacheDatabase.empty 300 2 0).
  constructor; simpl; try constructor; try lia; try constructor; try lia;
    constructor.
Defined.

(** ** Eviction and the size of the store *)

Section Eviction.

Import CacheDatabase.

Lemma sqltime_compare_key (a b : sqltime) :
  Invariants.sqltime_le a b
  <-> (let '(d, f, v) := Invariants.sqltime_key a in
       let '(d', f', v') := Invariants.sqltime_key b in
       d < d' \/ (d = d' /\ (f < f' \/ (f = f' /\ v <= v')))).
Proof.
  unfold Invariants.sqltime_le, sqltime_compare.
  destruct a as [x|x], b as [y|y]; simpl.
  - pose proof (Z.div_le_mono x y 86400000000) as M1.
    pose proof (Z.div_le_mono y x 86400000000) as M2.
    destruct (Z.compare_spec x y); split; intros H0; try congruence; try lia;
      exfalso; apply H0; reflexivity.
  - destruct (Z.compare_spec (x / 86400000000) (y / 86400)); split; intros H0;
      try congruence; try lia; exfalso; apply H0; reflexivity.
  - destruct (Z.compare_spec (x / 86400) (y / 86400000000)); split; intros H0;
      try congruence; try lia; exfalso; apply H0; reflexivity.
  - pose proof (Z.div_le_mono x y 86400) as M1.
    pose proof (Z.div_le_mono y x 86400) as M2.
    destruct (Z.compare_spec x y); split; intros H0; try congruence; try lia;
      exfalso; apply H0; reflexivity.
Qed.

Lemma sqltime_le_trans (a b c : sqltime) :
  Invariants.sqltime_le a b -> Invariants.sqltime_le b c -> Invariants.sqltime_le a c.
Proof.
  rewrite !sqltime_compare_key.
  destruct (Invariants.sqltime_key a) as [[d1 f1] v1],
           (Invariants.sqltime_key b) as [[d2 f2] v2],
           (Invariants.sqltime_key c) as [[d3 f3] v3]. lia.
Qed.

Lemma sqltime_le_total (a b : sqltime) :
  sqltime_compare a b = Gt -> Invariants.sqltime_le b a.
Proof.
  intros H. apply sqltime_compare_key.
  assert (N : ~ Invariants.sqltime_le a b) by (intros C; apply C; exact H).
  rewrite sqltime_compare_key in N.
  destruct (Invariants.sqltime_key a) as [[d1 f1] v1],
           (Invariants.sqltime_key b) as [[d2 f2] v2]. lia.
Qed.

Lemma insert_by_access_perm (x : result_row) (l : list result_row) :
  Permutation (x :: l) (insert_by_access x l).
Proof.
  induction l as [|y l IH]; simpl; [reflexivity|].
  destruct (sqltime_compare (last_accessed_at y) (last_accessed_at x));
    try reflexivity;
    (eapply perm_trans; [apply perm_swap | apply perm_skip, IH]).
Qed.

Lemma insert_by_access_sorted (x : result_row) (l : list result_row) :
  StronglySorted
    (fun a b => Invariants.sqltime_le (last_accessed_at a) (last_accessed_at b)) l ->
  StronglySorted
    (fun a b => Invariants.sqltime_le (last_accessed_at a) (last_accessed_at b))
    (insert_by_access x l).
Proof.
  induction 1 as [|y l Hs IH Hy]; simpl.
  - constructor; constructor.
  - destruct (sqltime_compare (last_accessed_at y) (last_accessed_at x)) eqn:E.
    + constructor; [exact IH|].
      eapply Permutation_Forall; [apply insert_by_access_perm|].
      constructor; [|exact Hy]. unfold Invariants.sqltime_le. congruence.
    + constructor; [exact IH|].
      eapply Permutation_Forall; [apply insert_by_access_perm|].
      constructor; [|exact Hy]. unfold Invariants.sqltime_le. congruence.
    + apply sqltime_le_total in E.
      constructor; [constructor; assumption|].
      constructor; [exact E|].
      eapply Forall_impl; [|exact Hy].
      intros z Hz. simpl in Hz. eapply sqltime_le_trans; eassumption.
Qed.

Lemma order_by_access_fold (l : list result_row) : forall acc,
  StronglySorted
    (fun a b => Invariants.sqltime_le (last_accessed_at a) (last_accessed_at b)) acc ->
  Permutation (acc ++ l) (fold_left (fun acc r => insert_by_access r acc) l acc)
  /\ StronglySorted
       (fun a b => Invariants.sqltime_le (last_accessed_at a) (last_accessed_at b))
       (fold_left (fun acc r => insert_by_access r acc) l acc).
Proof.
  induction l as [|x l IH]; intros acc Hacc; simpl.
  - rewrite app_nil_r. split; [reflexivity | exact Hacc].
  - destruct (IH (insert_by_access x acc) (insert_by_access_sorted x acc Hacc))
      as [P S].
    split; [|exact S].
    eapply perm_trans; [|exact P].
    eapply perm_trans; [symmetry; apply Permutation_middle|].
    apply (Permutation_app_tail l (insert_by_access_perm x acc)).
Qed.

Lemma order_by_access_sorts (l : list result_row) :
  Permutation l (order_by_access l)
  /\ StronglySorted
       (fun a b => Invariants.sqltime_le (last_accessed_at a) (last_accessed_at b))
       (order_by_access l).
Proof.
  apply (order_by_access_fold l []). constructor.
Qed.

Lemma filter_length_perm {A : Type} (p : A -> bool) (l l' : list A) :
  Permutation l l' -> List.length (filter p l) = List.length (filter p l').
Proof.
  induction 1 as [|a l l' H IH|a b l|l l' l'' H1 IH1 H2 IH2]; simpl.
  - reflexivity.
  - destruct (p a); simpl; rewrite IH; reflexivity.
  - destruct (p a), (p b); reflexivity.
  - rewrite IH1. exact IH2.
Qed.

Lemma mem_map_in {A : Type} (key : A -> Z) (a : A) (l : list A) :
  In a l -> mem (key a) (map key l) = true.
Proof.
  intros H. unfold mem. apply existsb_exists. exists (key a).
  split; [apply in_map; exact H | apply Z.eqb_refl].
Qed.

Lemma mem_map_inv {A : Type} (key : A -> Z) (k : Z) (l : list A) :
  mem k (map key l) = true -> exists a, In a l /\ key a = k.
Proof.
  unfold mem. intros H. apply existsb_exists in H. destruct H as (k' & Hin & E).
  apply Z.eqb_eq in E. subst k'. apply in_map_iff in Hin.
  destruct Hin as (a & Ha & Hin). exists a. split; [exact Hin | exact Ha].
Qed.

Lemma sorted_key_inj {A : Type} (key : A -> Z) (l : list A) (a b : A) :
  StronglySorted (fun a b => key a < key b) l ->
  In a l -> In b l -> key a = key b -> a = b.
Proof.
  induction 1 as [|x l Hs IH Hall]; intros Ha Hb E; [contradiction|].
  rewrite Forall_forall in Hall.
  destruct Ha as [->|Ha], Hb as [->|Hb].
  - reflexivity.
  - specialize (Hall b Hb). lia.
  - specialize (Hall a Ha). lia.
  - apply IH; assumption.
Qed.

Lemma sorted_app_order {A : Type} (R : A -> A -> Prop) (l1 l2 : list A) (a b : A) :
  StronglySorted R (l1 ++ l2) -> In a l1 -> In b l2 -> R a b.
Proof.
  induction l1 as [|x l1 IH]; simpl; intros Hs Ha Hb; [contradiction|].
  inversion Hs as [|? ? Hs' Hall]; subst.
  destruct Ha as [->|Ha].
  - rewrite Forall_forall in Hall. apply Hall. apply in_or_app. right. exact Hb.
  - apply IH; assumption.
Qed.

(** The rows an eviction step takes: the [k] first in the order of their
    last access. *)
Lemma evicted_rows (rows : list result_row) (k : nat) :
  StronglySorted (fun a b => r_id a < r_id b) rows ->
  let order := order_by_access rows in
  let kept := filter (fun r => negb (mem (r_id r) (map r_id (firstn k order)))) rows in
  (forall r, In r kept <-> In r (skipn k order))
  /\ (forall r, In r rows -> ~ In r kept -> In r (firstn k order))
  /\ List.length kept = (List.length rows - k)%nat.
Proof.
  intros Hs order kept.
  destruct (order_by_access_sorts rows) as [P _]. fold order in P.
  assert (Hin : forall r, In r order <-> In r rows).
  { intros r. split; intros H.
    - eapply Permutation_in; [symmetry; exact P | exact H].
    - eapply Permutation_in; [exact P | exact H]. }
  assert (Hnd : NoDup order).
  { eapply Permutation_NoDup; [exact P|].
    clear - Hs. induction Hs as [|x l Hs IH Hall]; constructor; [|exact IH].
    intros Hx. rewrite Forall_forall in Hall. specialize (Hall x Hx). lia. }
  assert (Hsplit : order = firstn k order ++ skipn k order)
    by (symmetry; apply firstn_skipn).
  assert (Hdisj : forall r, In r (firstn k order) -> In r (skipn k order) -> False).
  { rewrite Hsplit in Hnd. intros r H1 H2.
    clear - Hnd H1 H2. induction (firstn k order) as [|x l IH]; [contradiction|].
    simpl in Hnd. inversion Hnd as [|? ? Hx Hl]; subst.
    destruct H1 as [->|H1]; [apply Hx, in_or_app; right; exact H2 | apply IH; assumption]. }
  assert (Hmem : forall r, In r rows ->
                  mem (r_id r) (map r_id (firstn k order)) = true
                  <-> In r (firstn k order)).
  { intros r Hr. split; intros H.
    - apply mem_map_inv in H. destruct H as (r' & Hr' & E).
      assert (In r' rows).
      { apply Hin. rewrite Hsplit. apply in_or_app. left. exact Hr'. }
      rewrite <- (sorted_key_inj r_id rows r' r Hs H Hr E). exact Hr'.
    - apply mem_map_in. exact H. }
  assert (Hkept : forall r, In r kept <-> In r (skipn k order)).
  { intros r. unfold kept. rewrite filter_In. split.
    - intros [Hr Hm]. apply negb_true_iff in Hm.
      assert (Ho : In r order) by (apply Hin; exact Hr).
      rewrite Hsplit in Ho. apply in_app_or in Ho. destruct Ho as [Ho|Ho]; [|exact Ho].
      apply (Hmem r Hr) in Ho. congruence.
    - intros Hr.
      assert (Hrows : In r rows).
      { apply Hin. rewrite Hsplit. apply in_or_app. right. exact Hr. }
      split; [exact Hrows|]. apply negb_true_iff.
      destruct (mem (r_id r) (map r_id (firstn k order))) eqn:E; [|reflexivity].
      exfalso. apply (Hdisj r); [apply (Hmem r Hrows); exact E | exact Hr]. }
  split; [exact Hkept|]. split.
  - intros r Hr Hn.
    assert (Ho : In r order) by (apply Hin; exact Hr).
    rewrite Hsplit in Ho. apply in_app_or in Ho. destruct Ho as [Ho|Ho]; [exact Ho|].
    exfalso. apply Hn. apply Hkept. exact Ho.
  - unfold kept.
    rewrite (filter_length_perm _ rows order P).
    replace (filter (fun r => negb (mem (r_id r) (map r_id (firstn k order)))) order)
      with (filter (fun r => negb (mem (r_id r) (map r_id (firstn k order))))
              (firstn k order ++ skipn k order))
      by (rewrite firstn_skipn; reflexivity).
    rewrite filter_app, length_app.
    assert (F1 : filter (fun r => negb (mem (r_id r) (map r_id (firstn k order))))
                   (firstn k order) = []).
    { assert (G : forall l, (forall r, In r l -> In r (firstn k order)) ->
                    filter (fun r => negb (mem (r_id r) (map r_id (firstn k order)))) l
                    = []).
      { induction l as [|x l IH]; intros Hl; simpl; [reflexivity|].
        rewrite (mem_map_in r_id x _ (Hl x (or_introl eq_refl))). simpl.
        apply IH. intros r Hr. apply Hl. right. exact Hr. }
      apply G. trivial. }
    assert (F2 : filter (fun r => negb (mem (r_id r) (map r_id (firstn k order))))
                   (skipn k order) = skipn k order).
    { assert (G : forall l, (forall r, In r l -> In r (skipn k order)) ->
                    filter (fun r => negb (mem (r_id r) (map r_id (firstn k order)))) l
                    = l).
      { induction l as [|x l IH]; intros Hl; simpl; [reflexivity|].
        assert (Hx : In x kept) by (apply Hkept, Hl; left; reflexivity).
        unfold kept in Hx. apply filter_In in Hx. destruct Hx as [_ Hx].
        rewrite Hx. f_equal. apply IH. intros r Hr. apply Hl. right. exact Hr. }
      apply G. trivial. }
    rewrite F1, F2. simpl. rewrite length_skipn.
    rewrite (Permutation_length P). reflexivity.
Qed.

Lemma evict_lru_spec (db : t) (keep_count : Z) :
  Invariants.well_formed db -> 0 <= keep_count ->
  let db' := _evict_lru db keep_count in
  Z.of_nat (List.length (recognition_results db'))
  = Z.min (Z.of_nat (List.length (recognition_results db))) keep_count
  /\ (forall kept, In kept (recognition_results db') ->
                   In kept (recognition_results db))
  /\ (forall gone kept,
        In gone (recognition_results db) ->
        ~ In gone (recognition_results db') ->
        In kept (recognition_results db') ->
        Invariants.sqltime_le (last_accessed_at gone) (last_accessed_at kept))
  /\ screenshots db' = screenshots db.
Proof.
  intros H Hk db'. subst db'. unfold _evict_lru.
  destruct (Z.leb_spec (Z.of_nat (List.length (recognition_results db))) keep_count)
    as [Hle|Hgt].
  - repeat split; try lia; try tauto.
  - unfold delete_results. simpl.
    destruct (evicted_rows (recognition_results db)
                (Z.to_nat (Z.of_nat (List.length (recognition_results db)) - keep_count))
                (proj1 (Invariants.wf_results db H)))
      as (Hkept & Hgone & Hlen).
    destruct (order_by_access_sorts (recognition_results db)) as [_ S].
    split; [rewrite Hlen; lia|].
    split; [intros kept Hin; apply filter_In in Hin; apply Hin|].
    split; [|reflexivity].
    intros gone kept Hg Hng Hin.
    rewrite <- (firstn_skipn
                  (Z.to_nat (Z.of_nat (List.length (recognition_results db))
                             - keep_count))
                  (order_by_access (recognition_results db))) in S.
    apply (sorted_app_order _ _ _ gone kept S).
    + apply Hgone; assumption.
    + apply Hkept. exact Hin.
Qed.

Lemma insert_cache_results (db : t) (h : string) (w hg : Z)
    (rr : list (string * json)) (mn : string) (ttl_minutes max_results : Z)
    (now : datetime) (utc : Z) :
  let db' := fst (insert_cache db h w hg rr mn ttl_minutes max_results now utc) in
  recognition_results db'
  = recognition_results (Scenarios.after_eviction db max_results)
  \/ exists row,
       recognition_results db'
       = recognition_results (Scenarios.after_eviction db max_results) ++ [row].
Proof.
  unfold insert_cache. fold (Scenarios.after_eviction db max_results).
  set (db1 := Scenarios.after_eviction db max_results). clearbody db1.
  unfold guard at 1.
  destruct (as_str (get_default "source_window" (JStr "Unknown") rr)) as [window|];
    simpl; [|left; reflexivity].
  set (db2 := insert_or_ignore_screenshot db1 h w hg window now
                (now + timedelta_minutes ttl_minutes) utc).
  assert (E2 : recognition_results db2 = recognition_results db1).
  { subst db2. unfold insert_or_ignore_screenshot.
    destruct (_ || _ || _); reflexivity. }
  clearbody db2. rewrite <- E2.
  repeat (unfold guard at 1;
          match goal with
          | |- context [match ?m with Ok _ => _ | Raise _ => _ end] =>
              destruct m; simpl; [|left; reflexivity]
          end).
  match goal with
  | |- context [if ?c then (db2, _) else _] =>
      destruct c; simpl; [left; reflexivity|]
  end.
  right. eexists. rewrite insert_elements_results. reflexivity.
Qed.

Lemma after_eviction_bound (db : t) (max_results : Z) :
  Invariants.well_formed db -> 0 <= max_results ->
  Z.of_nat (List.length (recognition_results (Scenarios.after_eviction db max_results)))
  <= max_results.
Proof.
  intros H Hm. unfold Scenarios.after_eviction.
  destruct (Z.of_nat (List.length (recognition_results db)) >=? max_results) eqn:E.
  - destruct (evict_lru_spec db max_results H Hm) as (Hl & _). lia.
  - rewrite Z.geb_leb in E. apply Z.leb_gt in E. lia.
Qed.

Lemma store_step_size (cm : CacheManager.t) (op : Invariants.store_op) :
  Invariants.well_formed (CacheManager.db cm) ->
  0 <= CacheManager.max_size cm ->
  Z.of_nat (List.length (recognition_results (CacheManager.db cm)))
  <= CacheManager.max_size cm + 1 ->
  Z.of_nat (List.length (recognition_results
                           (CacheManager.db (Invariants.store_step cm op))))
  <= CacheManager.max_size cm + 1
  /\ CacheManager.max_size (Invariants.store_step cm op) = CacheManager.max_size cm.
Proof.
  intros H Hm Hb. destruct op as [s clk u|s r now utc|now|]; simpl.
  - unfold CacheManager.get, lookup_cache.
    destruct (select_newest _ _ _) as [row|]; simpl.
    + destruct (RecognitionResult_from_dict _ _ _) as [res|]; simpl;
        [destruct (is_expired _ res)|]; simpl; rewrite length_map; split;
        (exact Hb || reflexivity).
    + split; [exact Hb | reflexivity].
  - destruct (put_db cm s r now utc) as (-> & _ & ->). split; [|reflexivity].
    pose proof (after_eviction_bound (CacheManager.db cm) (CacheManager.max_size cm)
                  H Hm) as B.
    destruct (insert_cache_results (CacheManager.db cm) (hash s) (width s) (height s)
                (RecognitionResult_to_dict r) (model_name r)
                (CacheManager.ttl_seconds cm / 60) (CacheManager.max_size cm) now utc)
      as [E|[row E]]; rewrite E; [lia|].
    rewrite length_app. simpl. lia.
  - split; [|reflexivity].
    unfold _cleanup_expired, delete_screenshots. simpl.
    destruct (foreign_keys (CacheManager.db cm)); simpl; [|exact Hb].
    pose proof (filter_length_le
                  (fun r => negb (mem (r_id r)
                     (map r_id (filter (fun r0 => mem (screenshot_id r0)
                        (map s_id (filter (fun s => sqltime_ltb (s_expires_at s)
                                                      (IsoLocal now))
                                     (screenshots (CacheManager.db cm)))))
                        (recognition_results (CacheManager.db cm))))))
                  (recognition_results (CacheManager.db cm))) as L.
    lia.
  - split; [simpl; lia | reflexivity].
Qed.

Lemma store_run_size (ops : list Invariants.store_op) : forall cm,
  Invariants.well_formed (CacheManager.db cm) ->
  0 <= CacheManager.max_size cm ->
  Z.of_nat (List.length (recognition_results (CacheManager.db cm)))
  <= CacheManager.max_size cm + 1 ->
  Z.of_nat (List.length (recognition_results
                           (CacheManager.db (Invariants.store_run cm ops))))
  <= CacheManager.max_size cm + 1.
Proof.
  unfold Invariants.store_run.
  induction ops as [|op ops IH]; intros cm H Hm Hb; simpl; [exact Hb|].
  destruct (store_step_size cm op H Hm Hb) as [B E].
  rewrite <- E. apply IH.
  - apply well_formed_step. exact H.
  - rewrite E. exact Hm.
  - rewrite E. exact B.
Qed.

End Eviction.

(** X19. The store of a manager with [max_size >= 0] that starts on an empty
    database never holds more than [max_size + 1] results, whatever is
    asked of it. *)
Theorem store_holds_at_most_one_more :
  forall (ttl_seconds max_size : Z) (ops : list Invariants.store_op),
    0 <= max_size ->
    CacheDatabase.total_results
      (CacheManager.get_stats
         (Invariants.store_run (Scenarios.fresh_manager ttl_seconds max_size) ops))
    <= max_size + 1.
Proof.
  intros ttl_seconds max_size ops Hm.
  unfold CacheManager.get_stats, CacheDatabase.get_stats. simpl.
  apply (store_run_size ops (Scenarios.fresh_manager ttl_seconds max_size)).
  - apply well_formed_init. apply well_formed_empty.
  - exact Hm.
  - simpl. lia.
Qed.

Lemma store_holds_at_most_one_more_witness :
  CacheDatabase.total_results
    (CacheManager.get_stats
       (Invariants.store_run (Scenarios.fresh_manager 300 0)
          [Invariants.Put Scenarios.active_window Scenarios.navigation_result
             (Scenarios.seconds 1) 1]))
  <= 0 + 1.
Proof.
  apply (store_holds_at_most_one_more 300 0). lia.
Defined.

(** X20. [_evict_lru] with [keep_count >= 0] on a well-formed store leaves
    [min(count, keep_count)] results, all of them results of the store
    before, and every result it deletes was last accessed not later, in
    the order of the texts of the timestamps, than every result it keeps;
    the screenshots stay. *)
Theorem evict_lru_deletes_least_recently_used :
  forall (db : CacheDatabase.t) (keep_count : Z),
    Invariants.well_formed db -> 0 <= keep_count ->
    let db' := CacheDatabase._evict_lru db keep_count in
    Z.of_nat (List.length (CacheDatabase.recognition_results db'))
    = Z.min (Z.of_nat (List.length (CacheDatabase.recognition_results db))) keep_count
    /\ (forall kept, In kept (CacheDatabase.recognition_results db') ->
                     In kept (CacheDatabase.recognition_results db))
    /\ (forall gone kept,
          In gone (CacheDatabase.recognition_results db) ->
          ~ In gone (CacheDatabase.recognition_results db') ->
          In kept (CacheDatabase.recognition_results db') ->
          Invariants.sqltime_le (CacheDatabase.last_accessed_at gone)
            (CacheDatabase.last_accessed_at kept))
    /\ CacheDatabase.screenshots db' = CacheDatabase.screenshots db.
Proof.
  intros db keep_count H Hk. apply evict_lru_spec; assumption.
Qed.

(** ** Cleanup, lookups and the statistics of the store *)

Section StoreReads.

Import CacheDatabase.

Lemma filter_true_on {A : Type} (p : A -> bool) (l : list A) :
  (forall a, In a l -> p a = true) -> filter p l = l.
Proof.
  induction l as [|a l IH]; intros H; simpl; [reflexivity|].
  rewrite (H a (or_introl eq_refl)). f_equal. apply IH.
  intros b Hb. apply H. right. exact Hb.
Qed.

Lemma filter_false_on {A : Type} (p : A -> bool) (l : list A) :
  (forall a, In a l -> p a = false) -> filter p l = [].
Proof.
  induction l as [|a l IH]; intros H; simpl; [reflexivity|].
  rewrite (H a (or_introl eq_refl)). apply IH.
  intros b Hb. apply H. right. exact Hb.
Qed.

Lemma map_same_on {A : Type} (f : A -> A) (l : list A) :
  (forall a, In a l -> f a = a) -> map f l = l.
Proof.
  induction l as [|a l IH]; intros H; simpl; [reflexivity|].
  rewrite (H a (or_introl eq_refl)). f_equal. apply IH.
  intros b Hb. apply H. right. exact Hb.
Qed.

Lemma map_same {A : Type} (f : A -> A) (l : list A) :
  (forall a, f a = a) -> map f l = l.
Proof.
  intros H. induction l as [|a l IH]; simpl; [reflexivity|].
  rewrite H, IH. reflexivity.
Qed.

Lemma filter_none {A : Type} (l : list A) : filter (fun _ => false) l = [].
Proof. induction l as [|a l IH]; simpl; [|rewrite IH]; reflexivity. Qed.

Lemma delete_screenshots_nil (db : t) : delete_screenshots db [] = db.
Proof.
  destruct db as [fk ss rs es c1 c2 c3].
  unfold delete_screenshots, delete_results, delete_elements_of. simpl.
  rewrite filter_all.
  destruct fk; [|reflexivity].
  repeat (rewrite ?filter_all, ?filter_none; simpl).
  rewrite map_same; [reflexivity|].
  intros e. destruct (parent_element_id e); reflexivity.
Qed.

Lemma delete_screenshots_rows (db : t) (sids : list Z) :
  screenshots (delete_screenshots db sids)
  = filter (fun s => negb (mem (s_id s) sids)) (screenshots db).
Proof.
  unfold delete_screenshots. destruct (foreign_keys db); reflexivity.
Qed.

Lemma cleanup_spec (db : t) (now : datetime) :
  Invariants.well_formed db ->
  let out := _cleanup_expired db now in
  screenshots (fst out)
  = filter (fun s => negb (sqltime_ltb (s_expires_at s) (IsoLocal now)))
      (screenshots db)
  /\ snd out = Z.of_nat (List.length (screenshots db))
               - Z.of_nat (List.length (screenshots (fst out)))
  /\ _cleanup_expired (fst out) now = (fst out, 0).
Proof.
  intros H out. subst out. unfold _cleanup_expired. cbn [fst snd].
  assert (E : screenshots
                (delete_screenshots db
                   (map s_id (filter (fun s => sqltime_ltb (s_expires_at s) (IsoLocal now))
                                (screenshots db))))
              = filter (fun s => negb (sqltime_ltb (s_expires_at s) (IsoLocal now)))
                  (screenshots db)).
  { rewrite delete_screenshots_rows. apply filter_ext_in. intros s Hs. f_equal.
    destruct (sqltime_ltb (s_expires_at s) (IsoLocal now)) eqn:E.
    - apply mem_map_in. apply filter_In. split; assumption.
    - destruct (mem (s_id s) _) eqn:M; [|reflexivity].
      apply mem_map_inv in M. destruct M as (s' & Hs' & Eid).
      apply filter_In in Hs'. destruct Hs' as [Hin' E'].
      rewrite (sorted_key_inj s_id _ s' s
                 (proj1 (Invariants.wf_screenshots db H)) Hin' Hs Eid) in E'.
      congruence. }
  split; [exact E|]. split.
  - rewrite E.
    pose proof (filter_length (fun s => sqltime_ltb (s_expires_at s) (IsoLocal now))
                  (screenshots db)) as L.
    lia.
  - rewrite E.
    rewrite (filter_false_on _ (filter _ (screenshots db))).
    + simpl. rewrite delete_screenshots_nil. reflexivity.
    + intros s Hs. apply filter_In in Hs. apply negb_true_iff. apply Hs.
Qed.

Lemma select_newest_in (db : t) (h : string) (q : datetime) (row : result_row) :
  select_newest db h q = Some row -> In row (recognition_results db).
Proof.
  unfold select_newest.
  set (f := fun (best : option result_row) (r : result_row) =>
              match best with
              | None => Some r
              | Some b => if sqltime_ltb (r_created b) (r_created r) then Some r
                          else Some b
              end).
  assert (G : forall l acc, fold_left f l acc = Some row ->
                            acc = Some row \/ In row l).
  { induction l as [|x l IH]; intros acc E; simpl in *; [left; exact E|].
    apply IH in E. destruct E as [E|E]; [|right; right; exact E].
    unfold f in E. destruct acc as [b|].
    - destruct (sqltime_ltb (r_created b) (r_created x)).
      + injection E as <-. right. left. reflexivity.
      + left. exact E.
    - injection E as <-. right. left. reflexivity. }
  intros E. apply G in E. destruct E as [E|E]; [discriminate|].
  apply filter_In in E. apply E.
Qed.

Lemma sum_hits_from (l : list result_row) : forall a,
  fold_left (fun acc r => acc + hit_count r) l a = a + sum_hits l.
Proof.
  unfold sum_hits.
  induction l as [|x l IH]; intros a; simpl; [lia|].
  rewrite (IH (a + hit_count x)), (IH (hit_count x)). lia.
Qed.

Lemma sum_hits_cons (x : result_row) (l : list result_row) :
  sum_hits (x :: l) = hit_count x + sum_hits l.
Proof.
  unfold sum_hits at 1. simpl. apply sum_hits_from.
Qed.

Lemma sum_hits_nonneg (l : list result_row) :
  Forall (fun r => 0 <= hit_count r) l -> 0 <= sum_hits l.
Proof.
  induction 1 as [|x l Hx Hl IH]; [unfold sum_hits; simpl; lia|].
  rewrite sum_hits_cons. lia.
Qed.

Lemma sum_hits_touch (now : datetime) (row : result_row) (l : list result_row) :
  StronglySorted (fun a b => r_id a < r_id b) l -> In row l ->
  sum_hits (map (touch now (r_id row)) l) = sum_hits l + 1.
Proof.
  induction 1 as [|x l Hs IH Hall]; intros Hin; [contradiction|].
  simpl. rewrite !sum_hits_cons. rewrite Forall_forall in Hall.
  destruct Hin as [->|Hin].
  - rewrite (map_same_on _ l).
    + unfold touch. rewrite Z.eqb_refl. simpl. lia.
    + intros r Hr. unfold touch. specialize (Hall r Hr).
      destruct (Z.eqb_spec (r_id r) (r_id row)); [lia | reflexivity].
  - rewrite (IH Hin). unfold touch. specialize (Hall row Hin).
    destruct (Z.eqb_spec (r_id x) (r_id row)); lia.
Qed.

Lemma dict_get_set_other {V : Type} (k k' : string) (v : V) (d : list (string * V)) :
  String.eqb k k' = false ->
  dict_get k (dict_set k' v d) = dict_get k d.
Proof.
  intros Hk. induction d as [|[k0 v0] d IH]; simpl.
  - rewrite Hk. reflexivity.
  - destruct (String.eqb k' k0) eqn:E; simpl.
    + apply String.eqb_eq in E. subst k0. rewrite Hk. reflexivity.
    + destruct (String.eqb k k0); [reflexivity | exact IH].
Qed.

Lemma lookup_spec (db : t) (h : string) (q u : datetime) :
  Invariants.well_formed db ->
  let out := lookup_cache db h q u in
  match snd out with
  | None => fst out = db
  | Some d =>
      exists row,
        select_newest db h q = Some row
        /\ In row (recognition_results db)
        /\ dict_get "_hit_count" d = Some (JInt (hit_count row + 1))
        /\ dict_get "_cache_hit" d = Some (JBool true)
        /\ In (touch u (r_id row) row) (recognition_results (fst out))
        /\ hit_count (touch u (r_id row) row) = hit_count row + 1
        /\ last_accessed_at (touch u (r_id row) row) = IsoLocal u
        /\ sum_hits (recognition_results (fst out))
           = sum_hits (recognition_results db) + 1
        /\ List.length (recognition_results (fst out))
           = List.length (recognition_results db)
        /\ screenshots (fst out) = screenshots db
        /\ ui_elements (fst out) = ui_elements db
  end.
Proof.
  intros H out. subst out. unfold lookup_cache.
  destruct (select_newest db h q) as [row|] eqn:E; simpl; [|reflexivity].
  pose proof (select_newest_in db h q row E) as Hin.
  exists row. split; [reflexivity|]. split; [exact Hin|].
  split; [apply dict_get_set|].
  split; [rewrite dict_get_set_other by reflexivity; apply dict_get_set|].
  split; [apply in_map; exact Hin|].
  split; [unfold touch; rewrite Z.eqb_refl; reflexivity|].
  split; [unfold touch; rewrite Z.eqb_refl; reflexivity|].
  split; [apply sum_hits_touch;
          [exact (proj1 (Invariants.wf_results db H)) | exact Hin]|].
  split; [apply length_map|]. split; reflexivity.
Qed.

Lemma stats_spec (db : t) :
  Invariants.well_formed db ->
  let st := get_stats db in
  0 <= total_cache_hits st
  /\ (0 <= hit_rate st)%Q /\ (hit_rate st <= 100)%Q
  /\ (0 <= avg_hits_per_result st)%Q
  /\ (total_results st = 0 ->
      total_cache_hits st = 0 /\ hit_rate st = 0%Q
      /\ avg_hits_per_result st = 0%Q).
Proof.
  intros H st. subst st. unfold get_stats. cbn [total_cache_hits hit_rate
    avg_hits_per_result total_results].
  assert (Hh : 0 <= sum_hits (recognition_results db)).
  { apply sum_hits_nonneg. eapply Forall_impl; [|exact (Invariants.wf_result_checks db H)].
    intros r Hr. simpl in Hr. tauto. }
  destruct (recognition_results db) as [|x l] eqn:El.
  - unfold sum_hits. simpl. repeat split; try lia; try apply Qle_refl;
      try reflexivity; discriminate.
  - set (n := Z.of_nat (List.length (x :: l))).
    assert (Hn : 1 <= n) by (subst n; simpl; lia).
    set (hits := sum_hits (x :: l)) in *.
    assert (Hq : (0 <= inject_Z hits)%Q).
    { change 0%Q with (inject_Z 0). rewrite <- Zle_Qle. exact Hh. }
    assert (Hnq : (0 < inject_Z n)%Q).
    { change 0%Q with (inject_Z 0). rewrite <- Zlt_Qlt. lia. }
    assert (Htq : (0 < inject_Z (n + hits))%Q).
    { change 0%Q with (inject_Z 0). rewrite <- Zlt_Qlt. lia. }
    assert (Hlt : (inject_Z hits < inject_Z (n + hits))%Q).
    { rewrite <- Zlt_Qlt. lia. }
    destruct (0 <? n + hits) eqn:Et; [|apply Z.ltb_ge in Et; lia].
    split; [exact Hh|].
    assert (L : (0 <= inject_Z hits / inject_Z (n + hits))%Q)
      by (apply Qle_shift_div_l; [exact Htq | lra]).
    assert (U : (inject_Z hits / inject_Z (n + hits) < 1)%Q)
      by (apply Qlt_shift_div_r; [exact Htq | lra]).
    split; [lra|]. split; [lra|].
    split; [apply Qle_shift_div_l; [exact Hnq | lra]|].
    intros Hz. lia.
Qed.

Lemma clear_spec (cm : CacheManager.t) (s : Screenshot)
    (clk : CacheManager.get_clock) (u : string) :
  let cm' := CacheManager.clear cm in
  CacheManager.get cm' s clk u = (cm', None)
  /\ CacheManager.get_stats cm' = mkStats 0 0 0 0 0 0
  /\ seq_screenshots (CacheManager.db cm') = seq_screenshots (CacheManager.db cm)
  /\ seq_results (CacheManager.db cm') = seq_results (CacheManager.db cm)
  /\ seq_elements (CacheManager.db cm') = seq_elements (CacheManager.db cm)
  /\ CacheManager.ttl_seconds cm' = CacheManager.ttl_seconds cm
  /\ CacheManager.max_size cm' = CacheManager.max_size cm.
Proof.
  repeat split.
Qed.

End StoreReads.

(** X21. On a well-formed store [_cleanup_expired] deletes exactly the
    screenshots whose [expires_at] is before the time of the call, returns
    their number, and a second call at the same time deletes nothing. *)
Theorem cleanup_deletes_exactly_the_expired :
  forall (db : CacheDatabase.t) (now : datetime),
    Invariants.well_formed db ->
    let out := CacheDatabase._cleanup_expired db now in
    CacheDatabase.screenshots (fst out)
    = filter (fun s => negb (CacheDatabase.sqltime_ltb (CacheDatabase.s_expires_at s)
                               (CacheDatabase.IsoLocal now)))
        (CacheDatabase.screenshots db)
    /\ snd out = Z.of_nat (List.length (CacheDatabase.screenshots db))
                 - Z.of_nat (List.length (CacheDatabase.screenshots (fst out)))
    /\ CacheDatabase._cleanup_expired (fst out) now = (fst out, 0).
Proof.
  intros db now H. apply cleanup_spec. exact H.
Qed.

Section NewestResult.

Import CacheDatabase.

Lemma sqltime_ltb_key (a b : sqltime) :
  sqltime_ltb a b = true
  <-> (let '(d, f, v) := Invariants.sqltime_key a in
       let '(d', f', v') := Invariants.sqltime_key b in
       d < d' \/ (d = d' /\ (f < f' \/ (f = f' /\ v < v')))).
Proof.
  unfold sqltime_ltb, sqltime_compare.
  destruct a as [x|x], b as [y|y]; simpl.
  - pose proof (Z.div_le_mono x y 86400000000) as M1.
    pose proof (Z.div_le_mono y x 86400000000) as M2.
    destruct (Z.compare_spec x y); split; intros H0; try discriminate; try lia;
      reflexivity.
  - destruct (Z.compare_spec (x / 86400000000) (y / 86400)); split; intros H0;
      try discriminate; try lia; reflexivity.
  - destruct (Z.compare_spec (x / 86400) (y / 86400000000)); split; intros H0;
      try discriminate; try lia; reflexivity.
  - pose proof (Z.div_le_mono x y 86400) as M1.
    pose proof (Z.div_le_mono y x 86400) as M2.
    destruct (Z.compare_spec x y); split; intros H0; try discriminate; try lia;
      reflexivity.
Qed.

Lemma sqltime_not_ltb (a b : sqltime) :
  sqltime_ltb a b = false -> Invariants.sqltime_le b a.
Proof.
  intros H. apply sqltime_compare_key.
  assert (N : ~ sqltime_ltb a b = true) by (rewrite H; discriminate).
  rewrite sqltime_ltb_key in N.
  destruct (Invariants.sqltime_key a) as [[d1 f1] v1],
           (Invariants.sqltime_key b) as [[d2 f2] v2]. lia.
Qed.

Lemma sqltime_ltb_trans (a b c : sqltime) :
  sqltime_ltb a b = true -> sqltime_ltb b c = true -> sqltime_ltb a c = true.
Proof.
  rewrite !sqltime_ltb_key.
  destruct (Invariants.sqltime_key a) as [[d1 f1] v1],
           (Invariants.sqltime_key b) as [[d2 f2] v2],
           (Invariants.sqltime_key c) as [[d3 f3] v3]. lia.
Qed.

Lemma sqltime_le_ltb_trans (a b c : sqltime) :
  Invariants.sqltime_le a b -> sqltime_ltb b c = true -> sqltime_ltb a c = true.
Proof.
  rewrite sqltime_compare_key, !sqltime_ltb_key.
  destruct (Invariants.sqltime_key a) as [[d1 f1] v1],
           (Invariants.sqltime_key b) as [[d2 f2] v2],
           (Invariants.sqltime_key c) as [[d3 f3] v3]. lia.
Qed.

Lemma sqltime_ltb_not_le (a b : sqltime) :
  sqltime_ltb a b = true -> ~ Invariants.sqltime_le b a.
Proof.
  rewrite sqltime_compare_key, sqltime_ltb_key.
  destruct (Invariants.sqltime_key a) as [[d1 f1] v1],
           (Invariants.sqltime_key b) as [[d2 f2] v2]. lia.
Qed.

(** The scan of [select_newest] over the candidate rows: the row it ends
    with has only older rows before it and no newer row after it. *)
Lemma scan_from (l : list result_row) : forall (b row : result_row),
  fold_left Invariants.newer_of l (Some b) = Some row ->
  (row = b
   /\ Forall (fun o => Invariants.sqltime_le (r_created o) (r_created row)) l)
  \/ (exists older later,
        l = older ++ row :: later
        /\ sqltime_ltb (r_created b) (r_created row) = true
        /\ Forall (fun o => sqltime_ltb (r_created o) (r_created row) = true) older
        /\ Forall (fun o => Invariants.sqltime_le (r_created o) (r_created row))
             later).
Proof.
  induction l as [|x l IH]; intros b row H; simpl in H.
  - injection H as <-. left. split; [reflexivity | constructor].
  - destruct (sqltime_ltb (r_created b) (r_created x)) eqn:E.
    + right. destruct (IH x row H) as [[-> Hl]|(older & later & -> & Hb & Ho & Hl)].
      * exists [], l. repeat split; [exact E | constructor | exact Hl].
      * exists (x :: older), later. split; [reflexivity|].
        split; [exact (sqltime_ltb_trans _ _ _ E Hb)|].
        split; [constructor; assumption | exact Hl].
    + apply sqltime_not_ltb in E.
      destruct (IH b row H) as [[-> Hl]|(older & later & -> & Hb & Ho & Hl)].
      * left. split; [reflexivity | constructor; assumption].
      * right. exists (x :: older), later. split; [reflexivity|].
        split; [exact Hb|].
        split; [constructor;
                [exact (sqltime_le_ltb_trans _ _ _ E Hb) | exact Ho] | exact Hl].
Qed.

Lemma scan_spec (l : list result_row) :
  match fold_left Invariants.newer_of l None with
  | None => l = []
  | Some row =>
      exists older later,
        l = older ++ row :: later
        /\ Forall (fun o => sqltime_ltb (r_created o) (r_created row) = true) older
        /\ Forall (fun o => Invariants.sqltime_le (r_created o) (r_created row))
             later
  end.
Proof.
  destruct l as [|x l]; simpl; [reflexivity|].
  destruct (fold_left Invariants.newer_of l (Some x)) as [row|] eqn:E.
  - destruct (scan_from l x row E) as [[-> Hl]|(older & later & -> & Hb & Ho & Hl)].
    + exists [], l. repeat split; [constructor | exact Hl].
    + exists (x :: older), later. repeat split;
        [constructor; assumption | exact Hl].
  - exfalso. clear - E. revert x E.
    induction l as [|y l IH]; intros x E; simpl in E; [discriminate|].
    destruct (sqltime_ltb (r_created x) (r_created y)); eapply IH; exact E.
Qed.

Lemma candidate_iff (db : t) (h : string) (q : datetime) (r : result_row) :
  mem (screenshot_id r)
    (map s_id
       (filter (fun s => String.eqb (sha256_hash s) h
                         && sqltime_ltb (IsoLocal q) (s_expires_at s))
          (screenshots db))) = true
  <-> Invariants.joined_live db h q r.
Proof.
  split.
  - intros H. apply mem_map_inv in H. destruct H as (s & Hs & E).
    apply filter_In in Hs. destruct Hs as [Hs Hp].
    apply andb_true_iff in Hp. destruct Hp as [Hh Hl].
    apply String.eqb_eq in Hh. exists s. repeat split; assumption.
  - intros (s & Hs & E & Hh & Hl). rewrite <- E.
    apply (mem_map_in s_id s). apply filter_In. split; [exact Hs|].
    rewrite Hl, andb_true_r. apply String.eqb_eq. exact Hh.
Qed.

Lemma rows_around (rows : list result_row) (keep : result_row -> bool)
    (older later : list result_row) (row : result_row) :
  StronglySorted (fun a b => r_id a < r_id b) rows ->
  filter keep rows = older ++ row :: later ->
  Forall (fun o => r_id o <> r_id row) older
  /\ Forall (fun o => r_id row < r_id o) later.
Proof.
  intros Hs. revert older. induction Hs as [|x l Hs IH Hx]; intros older E;
    simpl in E.
  - destruct older; discriminate.
  - destruct (keep x).
    + destruct older as [|o older]; simpl in E; injection E as -> E.
      * split; [constructor|].
        rewrite <- E. apply Forall_forall. intros o Ho.
        apply filter_In in Ho. rewrite Forall_forall in Hx. apply Hx, Ho.
      * destruct (IH older E) as [Ho Hl]. split; [|exact Hl].
        constructor; [|exact Ho].
        assert (Hin : In row (filter keep l))
          by (rewrite E; apply in_or_app; right; left; reflexivity).
        apply filter_In in Hin. rewrite Forall_forall in Hx.
        specialize (Hx row (proj1 Hin)). lia.
    + apply IH. exact E.
Qed.

(** What the SELECT of [lookup_cache] returns on a well-formed store: a
    result joined to a live screenshot of the hash such that no other one
    was created later and, of those created at the same time, none has a
    lower id; nothing, exactly when there is no such result. *)
Lemma select_newest_spec (db : t) (h : string) (q : datetime) :
  Invariants.well_formed db ->
  match select_newest db h q with
  | None => forall r, In r (recognition_results db) ->
                      ~ Invariants.joined_live db h q r
  | Some row =>
      In row (recognition_results db) /\ Invariants.joined_live db h q row
      /\ (forall other,
            In other (recognition_results db) ->
            Invariants.joined_live db h q other ->
            Invariants.sqltime_le (r_created other) (r_created row)
            /\ (Invariants.sqltime_le (r_created row) (r_created other) ->
                r_id row <= r_id other))
  end.
Proof.
  intros Hwf. unfold select_newest.
  set (live := map s_id _).
  set (cands := filter (fun r => mem (screenshot_id r) live) (recognition_results db)).
  change (fold_left _ cands None) with (fold_left Invariants.newer_of cands None).
  pose proof (scan_spec cands) as S.
  destruct (fold_left Invariants.newer_of cands None) as [row|].
  - destruct S as (older & later & E & Ho & Hl).
    assert (Hrow : In row cands)
      by (rewrite E; apply in_or_app; right; left; reflexivity).
    apply filter_In in Hrow. destruct Hrow as [Hin Hc].
    split; [exact Hin|]. split; [apply candidate_iff; exact Hc|].
    intros other Hother Hj.
    destruct (rows_around _ _ older later row
                (proj1 (Invariants.wf_results db Hwf)) E) as [Ro Rl].
    assert (Hoc : In other cands).
    { apply filter_In. split; [exact Hother | apply candidate_iff; exact Hj]. }
    rewrite E in Hoc. apply in_app_or in Hoc. destruct Hoc as [Hoc|[<-|Hoc]].
    + rewrite Forall_forall in Ho. specialize (Ho other Hoc). split.
      * apply sqltime_compare_key. apply sqltime_ltb_key in Ho.
        destruct (Invariants.sqltime_key (r_created other)) as [[d1 f1] v1],
                 (Invariants.sqltime_key (r_created row)) as [[d2 f2] v2]. lia.
      * intros C. exfalso. exact (sqltime_ltb_not_le _ _ Ho C).
    + split; [|lia]. apply sqltime_compare_key.
      destruct (Invariants.sqltime_key (r_created row)) as [[d1 f1] v1]. lia.
    + rewrite Forall_forall in Hl, Rl. split; [apply Hl; exact Hoc|].
      intros _. specialize (Rl other Hoc). lia.
  - intros r Hr Hj.
    assert (Hc : In r cands).
    { apply filter_In. split; [exact Hr | apply candidate_iff; exact Hj]. }
    rewrite S in Hc. exact Hc.
Qed.

End NewestResult.

(** X22. A lookup on a well-formed store whose hits, counted once more, fit
    an integer of SQLite misses exactly when no result is
    joined to a screenshot row of the hash that expires after the time of
    the query, and then leaves the store as it is.  A lookup that hits
    reads such a result: none of the others was created later, and of
    those created at the same time none has a lower id.  The dict it
    returns is the JSON of that row with [_cache_hit] set and, under
    [_hit_count], the count it writes to the row; it sets the time of the
    row's last access and changes nothing else: the hits of the store go
    up by one, the numbers of rows stay. *)
Theorem lookup_counts_one_hit :
  forall (db : CacheDatabase.t) (h : string) (q u : datetime),
    Invariants.well_formed db ->
    Invariants.sqlite_int
      (CacheDatabase.sum_hits (CacheDatabase.recognition_results db) + 1) = true ->
    let out := CacheDatabase.lookup_cache db h q u in
    match snd out with
    | None =>
        fst out = db
        /\ (forall r, In r (CacheDatabase.recognition_results db) ->
                      ~ Invariants.joined_live db h q r)
    | Some d =>
        exists row,
          In row (CacheDatabase.recognition_results db)
          /\ Invariants.joined_live db h q row
          /\ (forall other,
                In other (CacheDatabase.recognition_results db) ->
                Invariants.joined_live db h q other ->
                Invariants.sqltime_le (CacheDatabase.r_created other)
                  (CacheDatabase.r_created row)
                /\ (Invariants.sqltime_le (CacheDatabase.r_created row)
                      (CacheDatabase.r_created other) ->
                    CacheDatabase.r_id row <= CacheDatabase.r_id other))
          /\ d = dict_set "_hit_count" (JInt (CacheDatabase.hit_count row + 1))
                   (dict_set "_cache_hit" (JBool true)
                      (CacheDatabase.result_json row))
          /\ (forall k, String.eqb k "_hit_count" = false ->
                        String.eqb k "_cache_hit" = false ->
                        dict_get k d = dict_get k (CacheDatabase.result_json row))
          /\ dict_get "_hit_count" d = Some (JInt (CacheDatabase.hit_count row + 1))
          /\ dict_get "_cache_hit" d = Some (JBool true)
          /\ In (CacheDatabase.touch u (CacheDatabase.r_id row) row)
               (CacheDatabase.recognition_results (fst out))
          /\ CacheDatabase.hit_count (CacheDatabase.touch u (CacheDatabase.r_id row) row)
             = CacheDatabase.hit_count row + 1
          /\ CacheDatabase.last_accessed_at
               (CacheDatabase.touch u (CacheDatabase.r_id row) row)
             = CacheDatabase.IsoLocal u
          /\ CacheDatabase.total_cache_hits (CacheDatabase.get_stats (fst out))
             = CacheDatabase.total_cache_hits (CacheDatabase.get_stats db) + 1
          /\ CacheDatabase.total_results (CacheDatabase.get_stats (fst out))
             = CacheDatabase.total_results (CacheDatabase.get_stats db)
          /\ CacheDatabase.screenshots (fst out) = CacheDatabase.screenshots db
          /\ CacheDatabase.ui_elements (fst out) = CacheDatabase.ui_elements db
    end.
Proof.
  intros db h q u H _ out.
  pose proof (lookup_spec db h q u H) as L. cbv zeta in L. fold out in L.
  pose proof (select_newest_spec db h q H) as N.
  assert (D : snd out
              = match CacheDatabase.select_newest db h q with
                | Some row =>
                    Some (dict_set "_hit_count" (JInt (CacheDatabase.hit_count row + 1))
                            (dict_set "_cache_hit" (JBool true)
                               (CacheDatabase.result_json row)))
                | None => None
                end).
  { unfold out, CacheDatabase.lookup_cache.
    destruct (CacheDatabase.select_newest db h q); reflexivity. }
  destruct (snd out) as [d|].
  - destruct L as (row & L1 & L2 & L3 & L4 & L5 & L6 & L7 & L8 & L9 & L10 & L11).
    rewrite L1 in N, D. injection D as ->.
    destruct N as (N1 & N2 & N3).
    exists row. unfold CacheDatabase.get_stats. simpl.
    rewrite L8, L9.
    split; [exact N1|]. split; [exact N2|]. split; [exact N3|].
    split; [reflexivity|].
    split; [intros k K1 K2; rewrite !dict_get_set_other by assumption; reflexivity|].
    repeat split; assumption.
  - split; [exact L|].
    destruct (CacheDatabase.select_newest db h q); [discriminate | exact N].
Qed.

Lemma lookup_counts_one_hit_witness :
  let db := CacheManager.db Scenarios.one_entry in
  let out := CacheDatabase.lookup_cache db (hash Scenarios.active_window)
               (Scenarios.seconds 2) (Scenarios.seconds 2) in
  exists d row,
    snd out = Some d
    /\ CacheDatabase.recognition_results db = [row]
    /\ Invariants.joined_live db (hash Scenarios.active_window)
         (Scenarios.seconds 2) row
    /\ d = dict_set "_hit_count" (JInt 1)
             (dict_set "_cache_hit" (JBool true)
                (RecognitionResult_to_dict
                   (Scenarios.result_for (hash Scenarios.active_window)
                      (Scenarios.seconds 1))))
    /\ CacheDatabase.total_cache_hits (CacheDatabase.get_stats (fst out)) = 1.
Proof.
  pose proof (lookup_counts_one_hit (CacheManager.db Scenarios.one_entry)
                (hash Scenarios.active_window) (Scenarios.seconds 2)
                (Scenarios.seconds 2)) as L.
  cbv zeta in L.
  destruct (snd (CacheDatabase.lookup_cache (CacheManager.db Scenarios.one_entry)
                   (hash Scenarios.active_window) (Scenarios.seconds 2)
                   (Scenarios.seconds 2))) as [d|] eqn:E;
    [|vm_compute in E; discriminate E].
  destruct L as (row & L1 & L2 & _ & L4 & _ & _ & _ & _ & _ & _ & L11 & _).
  - apply (well_formed_step (Scenarios.fresh_manager 300 1000)
             (Invariants.Put Scenarios.active_window
                (Scenarios.result_for (hash Scenarios.active_window)
                   (Scenarios.seconds 1))
                (Scenarios.seconds 1) 1)).
    apply well_formed_init, well_formed_empty.
  - reflexivity.
  - exists d, row. split; [exact E|].
    assert (R : CacheDatabase.recognition_results (CacheManager.db Scenarios.one_entry)
                = [row]).
    { destruct L1 as [<-|[]]. reflexivity. }
    split; [exact R|]. split; [exact L2|].
    split; [|rewrite L11; reflexivity].
    rewrite L4. injection R as <-. reflexivity.
Defined.

(** X23. The statistics of a well-formed store whose hits fit an integer of
    SQLite: the hits are not negative, the hit rate
    [hits / (results + hits) * 100] is a percentage, from 0 to 100, the
    average is not negative, and all three are 0 on a store without
    results. *)
Theorem hit_rate_is_a_percentage :
  forall (db : CacheDatabase.t),
    Invariants.well_formed db ->
    Invariants.sqlite_int
      (CacheDatabase.sum_hits (CacheDatabase.recognition_results db)) = true ->
    let st := CacheDatabase.get_stats db in
    0 <= CacheDatabase.total_cache_hits st
    /\ (0 <= CacheDatabase.hit_rate st)%Q /\ (CacheDatabase.hit_rate st <= 100)%Q
    /\ (0 <= CacheDatabase.avg_hits_per_result st)%Q
    /\ (CacheDatabase.total_results st = 0 ->
        CacheDatabase.total_cache_hits st = 0
        /\ CacheDatabase.hit_rate st = 0%Q
        /\ CacheDatabase.avg_hits_per_result st = 0%Q).
Proof.
  intros db H _.
  apply stats_spec. exact H.
Qed.

Lemma hit_rate_is_a_percentage_witness :
  let db := fst (CacheDatabase.lookup_cache (CacheManager.db Scenarios.one_entry)
                   (hash Scenarios.active_window) (Scenarios.seconds 2)
                   (Scenarios.seconds 2)) in
  let st := CacheDatabase.get_stats db in
  CacheDatabase.total_cache_hits st = 1
  /\ CacheDatabase.total_results st = 1
  /\ (CacheDatabase.hit_rate st == 50)%Q
  /\ (0 <= CacheDatabase.hit_rate st)%Q /\ (CacheDatabase.hit_rate st <= 100)%Q.
Proof.
  split; [reflexivity|]. split; [reflexivity|]. split; [reflexivity|].
  destruct (hit_rate_is_a_percentage
              (fst (CacheDatabase.lookup_cache (CacheManager.db Scenarios.one_entry)
                      (hash Scenarios.active_window) (Scenarios.seconds 2)
                      (Scenarios.seconds 2))))
    as (_ & H1 & H2 & _).
  - apply well_formed_lookup.
    apply (well_formed_step (Scenarios.fresh_manager 300 1000)
             (Invariants.Put Scenarios.active_window
                (Scenarios.result_for (hash Scenarios.active_window)
                   (Scenarios.seconds 1))
                (Scenarios.seconds 1) 1)).
    apply well_formed_init, well_formed_empty.
  - reflexivity.
  - split; [exact H1 | exact H2].
Defined.

(** X24. After [clear] the three tables are empty: every lookup misses and
    leaves the store, the statistics are all 0; the AUTOINCREMENT counters
    and the settings of the manager stay, so ids are not given out
    again. *)
Theorem clear_empties_the_store :
  forall (cm : CacheManager.t) (s : Screenshot) (clk : CacheManager.get_clock)
         (u : string),
    let cm' := CacheManager.clear cm in
    CacheManager.get cm' s clk u = (cm', None)
    /\ CacheManager.get_stats cm' = CacheDatabase.mkStats 0 0 0 0 0 0
    /\ CacheDatabase.seq_screenshots (CacheManager.db cm')
       = CacheDatabase.seq_screenshots (CacheManager.db cm)
    /\ CacheDatabase.seq_results (CacheManager.db cm')
       = CacheDatabase.seq_results (CacheManager.db cm)
    /\ CacheDatabase.seq_elements (CacheManager.db cm')
       = CacheDatabase.seq_elements (CacheManager.db cm)
    /\ CacheManager.ttl_seconds cm' = CacheManager.ttl_seconds cm
    /\ CacheManager.max_size cm' = CacheManager.max_size cm.
Proof.
  intros cm s clk u. apply clear_spec.
Qed.

Lemma evict_lru_deletes_least_recently_used_witness :
  let db := CacheManager.db Invariants.three_stored in
  let db' := CacheDatabase._evict_lru db 1 in
  Z.of_nat (List.length (CacheDatabase.recognition_results db'))
  = Z.min (Z.of_nat (List.length (CacheDatabase.recognition_results db))) 1
  /\ (forall kept, In kept (CacheDatabase.recognition_results db') ->
                   In kept (CacheDatabase.recognition_results db))
  /\ (forall gone kept,
        In gone (CacheDatabase.recognition_results db) ->
        ~ In gone (CacheDatabase.recognition_results db') ->
        In kept (CacheDatabase.recognition_results db') ->
        Invariants.sqltime_le (CacheDatabase.last_accessed_at gone)
          (CacheDatabase.last_accessed_at kept))
  /\ CacheDatabase.screenshots db' = CacheDatabase.screenshots db.
Proof.
  apply (evict_lru_deletes_least_recently_used
           (CacheManager.db Invariants.three_stored) 1).
  - apply well_formed_run, well_formed_init, well_formed_empty.
  - lia.
Defined.

Lemma cleanup_deletes_exactly_the_expired_witness :
  let out := CacheDatabase._cleanup_expired (CacheManager.db Scenarios.one_entry)
               (Scenarios.seconds 400) in
  CacheDatabase.screenshots (fst out)
  = filter (fun s => negb (CacheDatabase.sqltime_ltb (CacheDatabase.s_expires_at s)
                             (CacheDatabase.IsoLocal (Scenarios.seconds 400))))
      (CacheDatabase.screenshots (CacheManager.db Scenarios.one_entry))
  /\ snd out
     = Z.of_nat (List.length
                   (CacheDatabase.screenshots (CacheManager.db Scenarios.one_entry)))
       - Z.of_nat (List.length (CacheDatabase.screenshots (fst out)))
  /\ CacheDatabase._cleanup_expired (fst out) (Scenarios.seconds 400) = (fst out, 0).
Proof.
  apply (cleanup_deletes_exactly_the_expired
           (CacheManager.db Scenarios.one_entry) (Scenarios.seconds 400)).
  apply (well_formed_step (Scenarios.fresh_manager 300 1000)
           (Invariants.Put Scenarios.active_window
              (Scenarios.result_for (hash Scenarios.active_window) (Scenarios.seconds 1))
              (Scenarios.seconds 1) 1)).
  apply well_formed_init, well_formed_empty.
Defined.

(** ** The life of an entry *)

Section Lifetime.

Import CacheDatabase.



End Lifetime.



(** ** What the user hears *)

Section Announcements.

Import GlobalPlugin.

Lemma colon_in_appended (a b : string) :
  In ":"%char (list_ascii_of_string (String.append a (String.append ": " b))).
Proof.
  induction a as [|c a IH]; simpl; [left; reflexivity | right; exact IH].
Qed.

Lemma description_is_not_the_mark (a b : string) :
  String.append a (String.append ": " b) <> "(uncertain)".
Proof.
  intros E. pose proof (colon_in_appended a b) as H. rewrite E in H.
  simpl in H. repeat (destruct H as [H|H]; [discriminate H|]). exact H.
Qed.

Lemma item_is_ok (l : list Z) (i : nat) :
  is_ok (item l i) = (i <? List.length l)%nat.
Proof.
  unfold item. destruct (nth_error l i) eqn:E; simpl; symmetry.
  - apply Nat.ltb_lt. apply nth_error_Some. congruence.
  - apply Nat.ltb_ge. apply nth_error_None. exact E.
Qed.

Lemma text_parts_spec (e : UIElement) :
  is_ok (text_parts e) = (4 <=? List.length (bbox e))%nat
  /\ forall parts,
       text_parts e = Ok parts ->
       (In "(uncertain)" parts <-> is_uncertain e = true)
       /\ exists first x y,
            center_x e = Ok x /\ center_y e = Ok y
            /\ hd_error parts = Some first /\ first <> ""
            /\ last parts ""
               = String.append "at "
                   (String.append (string_of_Z x)
                      (String.append ", " (string_of_Z y))).
Proof.
  unfold text_parts, is_uncertain, center_x, center_y, item.
  destruct (bbox e) as [|x1 [|y1 [|x2 [|y2 rest]]]]; simpl;
    try (split; [reflexivity | intros parts H; discriminate H]).
  split; [reflexivity|].
  intros parts H. injection H as <-.
  destruct (Qlt_bool (confidence e) LOW_CONFIDENCE_THRESHOLD); simpl.
  - split.
    + split; [reflexivity|]. intros _. right. left. reflexivity.
    + eexists _, _, _. repeat split.
      destruct (element_type e); discriminate.
  - split.
    + split; [|discriminate].
      intros [H|[H|[]]]; [exfalso; exact (description_is_not_the_mark _ _ H)|].
      discriminate H.
    + eexists _, _, _. repeat split.
      destruct (element_type e); discriminate.
Qed.

End Announcements.

(** X26. [_speak_element] speaks the parts it has built exactly when the box of
    the element has at least four coordinates; then the part
    "(uncertain)" is among them exactly when the confidence is below
    [LOW_CONFIDENCE_THRESHOLD], the first part is never empty (an element
    without text is announced as unrecognized) and the last part is the
    centre of the box.  With fewer coordinates the user gets the short
    message of the type and the text, without a mark of uncertainty. *)
Theorem uncertain_elements_are_announced_as_uncertain :
  forall e : UIElement,
    is_ok (GlobalPlugin.text_parts e) = (4 <=? List.length (bbox e))%nat
    /\ (forall parts,
          GlobalPlugin.text_parts e = Ok parts ->
          GlobalPlugin._speak_element e = GlobalPlugin.Speak (String.concat " " parts)
          /\ (In "(uncertain)" parts <-> is_uncertain e = true)
          /\ exists first x y,
               center_x e = Ok x /\ center_y e = Ok y
               /\ hd_error parts = Some first /\ first <> ""
               /\ last parts ""
                  = String.append "at "
                      (String.append (GlobalPlugin.string_of_Z x)
                         (String.append ", " (GlobalPlugin.string_of_Z y))))
    /\ (is_ok (GlobalPlugin.text_parts e) = false ->
        GlobalPlugin._speak_element e
        = GlobalPlugin.Message
            (String.append (element_type e) (String.append ": " (text e)))).
Proof.
  intros e. destruct (text_parts_spec e) as [H1 H2].
  split; [exact H1|]. split.
  - intros parts H. split; [|apply H2; exact H].
    unfold GlobalPlugin._speak_element. rewrite H. reflexivity.
  - unfold GlobalPlugin._speak_element.
    destruct (GlobalPlugin.text_parts e); [discriminate | reflexivity].
Qed.

(** X27. The navigation scripts on a cursor that is on an element of a result:
    at the last element [script_nextElement] says "No more elements", at
    the first [script_previousElement] says "No previous elements", and
    both leave the cursor; inside the list [script_nextElement] moves the
    cursor by one and announces the element there. *)
Theorem navigation_scripts_announce_the_ends :
  forall (self : RecognitionController.t) (r : RecognitionResult),
    RecognitionController.on_element r self ->
    let i := RecognitionController._current_element_index self in
    let n := Z.of_nat (List.length (elements r)) in
    (i = n - 1 ->
     GlobalPlugin.script_nextElement true self
     = (self, GlobalPlugin.Message "No more elements"))
    /\ (i = 0 ->
        GlobalPlugin.script_previousElement true self
        = (self, GlobalPlugin.Message "No previous elements"))
    /\ (i < n - 1 ->
        exists e,
          nth_error (elements r) (Z.to_nat (i + 1)) = Some e
          /\ GlobalPlugin.script_nextElement true self
             = (RecognitionController.with_index self (i + 1),
                GlobalPlugin._speak_element e)).
Proof.
  intros self r Hon i n. subst i n.
  assert (Hne : elements r <> []).
  { destruct Hon as [_ Hi]. destruct (elements r); [simpl in *; lia | discriminate]. }
  destruct Hon as [Hr Hi].
  unfold GlobalPlugin.script_nextElement, GlobalPlugin.script_previousElement.
  cbn [negb].
  assert (Hs : forall j, j = RecognitionController._current_element_index self ->
                         RecognitionController.with_index self j = self).
  { intros j ->. apply with_index_same. }
  split; [|split].
  - intros E.
    pose proof (next_at_end r Hne self Hr) as N.
    rewrite (Hs _ (eq_sym E)) in N. rewrite N. reflexivity.
  - intros E.
    pose proof (previous_at_start r Hne self Hr) as N.
    rewrite (Hs _ (eq_sym E)) in N. rewrite N. reflexivity.
  - intros Hlt.
    destruct (next_inside r Hne self
                (RecognitionController._current_element_index self) Hr)
      as (e & He & Hn); [lia|].
    exists e. split; [exact He|].
    rewrite (Hs _ eq_refl) in Hn. rewrite Hn. reflexivity.
Qed.

Lemma navigation_scripts_announce_the_ends_witness :
  let self := Scenarios.navigating_controller in
  let i := RecognitionController._current_element_index self in
  let n := Z.of_nat (List.length (elements Scenarios.navigation_result)) in
  (i = n - 1 ->
   GlobalPlugin.script_nextElement true self
   = (self, GlobalPlugin.Message "No more elements"))
  /\ (i = 0 ->
      GlobalPlugin.script_previousElement true self
      = (self, GlobalPlugin.Message "No previous elements"))
  /\ (i < n - 1 ->
      exists e,
        nth_error (elements Scenarios.navigation_result) (Z.to_nat (i + 1)) = Some e
        /\ GlobalPlugin.script_nextElement true self
           = (RecognitionController.with_index self (i + 1),
              GlobalPlugin._speak_element e)).
Proof.
  apply (navigation_scripts_announce_the_ends Scenarios.navigating_controller
           Scenarios.navigation_result).
  split; [reflexivity | simpl; lia].
Defined.

(** ** From the processor through the cache *)

Lemma process_keeps_elements (threshold : Q) (els : list UIElement)
    (s : Screenshot) (mn : string) (it : Q) (src : InferenceSource)
    (uuid : string) (now : datetime) (r : RecognitionResult) :
  ResultProcessor.process threshold els s mn it src uuid now = Ok r ->
  forallb ResultProcessor.keep_element (elements r) = true
  /\ Qlt_bool it 0 = false.
Proof.
  intros H.
  destruct (process_stages threshold els s mn it src uuid now r H)
    as (annotated & sorted & Ha & P & _ & Hi & _ & Ht).
  split; [|exact Ht].
  apply forallb_forall. apply Forall_forall.
  eapply (Forall2_Forall _ (fun e => ResultProcessor.keep_element e = true) _ _ _ _ Hi).
  eapply Permutation_Forall; [exact P|].
  eapply (Forall2_Forall _ (fun e => ResultProcessor.keep_element e = true) _ _ _ _ Ha).
  unfold ResultProcessor._filter_invalid.
  apply Forall_forall. intros e He. apply filter_In in He. apply He.
  Unshelve.
  - intros a b Hab Pa. simpl in *.
    rewrite (keep_element_fields _ _ (proj1 Hab)). exact Pa.
  - intros a b Hab Pa. simpl in *.
    rewrite (keep_element_fields _ _
               (proj1 (annotate_element_keeps threshold a b Hab))).
    exact Pa.
Qed.


